(** * Bike_Accidents_GB: the transformation and aggregation pipeline

    A shallow embedding of [src/etl.py], [src/preprocessing.py] and
    [src/dashboard_utils.py].  The functions of the repository are written
    over pandas tables; the embedding gives the table operations they call
    (column lookup, boolean masks, [value_counts], [unique], [isin],
    [groupby(...).size()], [crosstab], [merge], [rolling]) as executable
    functions on lists, and the repository's functions on top of them,
    statement by statement.

    Conventions.
    - A cell is [option val]; [None] is the missing value (NaN, None, NaT).
    - A column ([Series]) is the list of its cells in row order; a table
      ([DataFrame]) is the list of its labelled columns in column order.
      A label is looked up from the left, as in a table whose labels are
      pairwise distinct.
    - Python exceptions are the [Raise] results of the [result] type.
    - Fractions (percentages, means) are exact rationals [Q]; rounding to
      one decimal is to the nearest tenth, ties to even.
    - Text is a string of 8-bit characters; case and white space are those
      of ASCII.
    - Where pandas leaves an order open or version dependent (ties in
      [value_counts], group keys of mixed kinds, rows of a join) one order
      is fixed here; no property below depends on it.
    - What the code takes from outside (file contents, the date and time
      parsers, [str] of a number) is a [Variable] of a [Section]. *)

From Stdlib Require Import List String Ascii Bool Arith ZArith QArith Qround Lia Lqa.
From Stdlib Require Import Permutation Qabs Sorted.
Import ListNotations.
Close Scope Q_scope.

Set Implicit Arguments.

(* ------------------------------------------------------------------ *)
(** ** Cells, columns, tables *)

Inductive val : Type :=
| VInt (z : Z)
| VStr (s : string)
| VDate (y m d : Z).

Definition cell := option val.
Definition Series := list cell.
Definition DataFrame := list (string * Series).

Definition val_eqb (a b : val) : bool :=
  match a, b with
  | VInt x, VInt y => Z.eqb x y
  | VStr s, VStr t => String.eqb s t
  | VDate y1 m1 d1, VDate y2 m2 d2 => Z.eqb y1 y2 && Z.eqb m1 m2 && Z.eqb d1 d2
  | _, _ => false
  end.

Definition cell_eqb (a b : cell) : bool :=
  match a, b with
  | Some x, Some y => val_eqb x y
  | None, None => true
  | _, _ => false
  end.

Definition isnull (c : cell) : bool :=
  match c with None => true | Some _ => false end.

(** Exceptions of the Python code that the claims speak about. *)
Inductive exn : Type := KeyError | TypeError | ValueError | AttributeError.

Inductive result (A : Type) : Type :=
| Ok (a : A)
| Raise (e : exn).
Arguments Ok {A} a.
Arguments Raise {A} e.

Definition bind {A B} (r : result A) (k : A -> result B) : result B :=
  match r with
  | Ok a => k a
  | Raise e => Raise e
  end.

Notation "x <- r ;; k" := (bind r (fun x => k))
  (at level 61, r at next level, right associativity).

(** [name in df.columns] *)
Definition has_column (name : string) (df : DataFrame) : bool :=
  existsb (fun p => String.eqb name (fst p)) df.

(** [df[name]]: the column, or [KeyError]. *)
Fixpoint getitem (df : DataFrame) (name : string) : result Series :=
  match df with
  | [] => Raise KeyError
  | (n, s) :: rest => if String.eqb name n then Ok s else getitem rest name
  end.

(** [df[name] = s]: overwrite in place, or append as the last column. *)
Fixpoint setitem (df : DataFrame) (name : string) (s : Series) : DataFrame :=
  match df with
  | [] => [(name, s)]
  | (n, c) :: rest =>
      if String.eqb name n then (n, s) :: rest else (n, c) :: setitem rest name s
  end.

(** [len(df)] *)
Definition nrows (df : DataFrame) : nat :=
  match df with
  | [] => 0
  | (_, s) :: _ => List.length s
  end.

(** [s[mask]]: the cells at the positions where the mask holds. *)
Fixpoint select (mask : list bool) (s : Series) : Series :=
  match mask, s with
  | b :: m, c :: t => if b then c :: select m t else select m t
  | _, _ => []
  end.

(** [df[mask]]: the same selection in every column; row order is kept. *)
Definition take_rows (mask : list bool) (df : DataFrame) : DataFrame :=
  map (fun p => (fst p, select mask (snd p))) df.

(** Row [i] of a table, as the list of its cells in column order. *)
Definition row (df : DataFrame) (i : nat) : list cell :=
  map (fun p => nth i (snd p) None) df.

Definition rows (df : DataFrame) : list (list cell) :=
  map (row df) (seq 0 (nrows df)).

(* ------------------------------------------------------------------ *)
(** ** Column operations of pandas *)

(** [s.isin(values)]: a missing cell is in no list of values. *)
Definition isin (s : Series) (values : list val) : list bool :=
  map (fun c => match c with
                | Some v => existsb (val_eqb v) values
                | None => false
                end) s.

(** Number of cells of [s] holding [v]. *)
Definition freq (v : val) (s : Series) : nat :=
  List.length (filter (cell_eqb (Some v)) s).

(** Distinct elements in order of first appearance. *)
Fixpoint dedup_from {A} (eqb : A -> A -> bool) (seen l : list A) : list A :=
  match l with
  | [] => []
  | x :: t =>
      if existsb (eqb x) seen then dedup_from eqb seen t
      else x :: dedup_from eqb (x :: seen) t
  end.

Definition dedup {A} (eqb : A -> A -> bool) (l : list A) : list A :=
  dedup_from eqb [] l.

(** [s.unique()]: the distinct cells in order of first appearance; the
    missing value is one of them when it occurs. *)
Definition unique (s : Series) : list cell := dedup cell_eqb s.

Fixpoint dropna (s : Series) : list val :=
  match s with
  | [] => []
  | Some v :: t => v :: dropna t
  | None :: t => dropna t
  end.

(** The distinct values of [s], missing cells left out. *)
Definition distinct_values (s : Series) : list val := dropna (unique s).

(** Insertion of an entry into a list kept by decreasing count, ahead of
    the entries of the same count. *)
Fixpoint insert_desc (e : val * nat) (l : list (val * nat)) : list (val * nat) :=
  match l with
  | [] => [e]
  | h :: t => if Nat.leb (snd h) (snd e) then e :: h :: t else h :: insert_desc e t
  end.

Definition sort_desc (l : list (val * nat)) : list (val * nat) :=
  fold_right insert_desc [] l.

(** [s.value_counts()]: one entry per distinct non-missing value with the
    number of its occurrences, most frequent first. *)
Definition value_counts (s : Series) : list (val * nat) :=
  sort_desc (map (fun v => (v, freq v s)) (distinct_values s)).

(** [s.loc[mask] = c] on a column. *)
Fixpoint mask_assign (mask : list bool) (c : cell) (s : Series) : Series :=
  match mask, s with
  | b :: m, x :: t => (if b then c else x) :: mask_assign m c t
  | _, _ => s
  end.

(* ------------------------------------------------------------------ *)
(** ** Category Collapser: [group_rare_categories] *)

(** The value the function computes, for callers that hold columns by
    value: the rare labels are the index of
    [value_counts[value_counts < min_count]]. *)
Definition rare_categories (s : Series) (min_count : Z) : list val :=
  map fst (filter (fun e => Z.ltb (Z.of_nat (snd e)) min_count) (value_counts s)).

Definition group_rare (s : Series) (min_count : Z) (other_label : string) : Series :=
  mask_assign (isin s (rare_categories s min_count)) (Some (VStr other_label)) s.

(** The function itself works on Series objects: it reads its argument,
    makes a copy, writes into the copy and returns it.  Objects live in a
    store and are named by their position in it. *)
Module Store.

Definition loc := nat.
Definition heap := list Series.

Definition State (A : Type) : Type := heap -> A * heap.

Definition ret {A} (a : A) : State A := fun h => (a, h).

Definition sbind {A B} (m : State A) (k : A -> State B) : State B :=
  fun h => let (a, h') := m h in k a h'.

Definition deref (l : loc) : State Series := fun h => (nth l h [], h).

(** [s.copy()]: a new object with the same cells. *)
Definition copy (l : loc) : State loc :=
  fun h => (List.length h, h ++ [nth l h []]).

Fixpoint update (l : loc) (s : Series) (h : heap) : heap :=
  match l, h with
  | _, [] => []
  | O, _ :: t => s :: t
  | S k, x :: t => x :: update k s t
  end.

(** [obj.loc[mask] = c]: writes into the object itself. *)
Definition loc_assign (l : loc) (mask : list bool) (c : cell) : State unit :=
  fun h => (tt, update l (mask_assign mask c (nth l h [])) h).

Notation "x <~ m ;; k" := (sbind m (fun x => k))
  (at level 61, m at next level, right associativity).

Definition group_rare_categories
    (series : loc) (min_count : Z) (other_label : string) : State loc :=
  s <~ deref series ;;
  let value_counts := value_counts s in
  let rare_categories :=
    map fst (filter (fun e => Z.ltb (Z.of_nat (snd e)) min_count) value_counts) in
  result <~ copy series ;;
  r <~ deref result ;;
  _ <~ loc_assign result (isin r rare_categories) (Some (VStr other_label)) ;;
  ret result.

End Store.

(* ------------------------------------------------------------------ *)
(** ** Filter Engine: [filter_dataframe] *)

(** [s >= bound] and [s <= bound] against an integer: a missing cell
    compares false, a text or a date against an integer is a type error. *)
Fixpoint compare_int (test : Z -> bool) (s : Series) : result (list bool) :=
  match s with
  | [] => Ok []
  | c :: t =>
      b <- match c with
           | None => Ok false
           | Some (VInt y) => Ok (test y)
           | Some _ => Raise TypeError
           end ;;
      m <- compare_int test t ;;
      Ok (b :: m)
  end.

(** [(a) & (b)] on masks *)
Definition mask_and (a b : list bool) : list bool :=
  map (fun p => fst p && snd p) (combine a b).

(** An optional list argument is used only when it is truthy: present
    and not empty. *)
Definition truthy {A} (values : option (list A)) : bool :=
  match values with
  | Some (_ :: _) => true
  | _ => false
  end.

Definition values_of {A} (values : option (list A)) : list A :=
  match values with Some l => l | None => [] end.

(** The loop over [filter_mapping.items()], in the order of the literal. *)
Fixpoint apply_filters (filter_mapping : list (string * option (list string)))
    (filtered_df : DataFrame) : result DataFrame :=
  match filter_mapping with
  | [] => Ok filtered_df
  | (column, values) :: rest =>
      if truthy values && has_column column filtered_df then
        col <- getitem filtered_df column ;;
        apply_filters rest
          (take_rows (isin col (map VStr (values_of values))) filtered_df)
      else apply_filters rest filtered_df
  end.

Definition filter_dataframe (df : DataFrame)
    (year_range : option (Z * Z))
    (severity gender age_groups road_conditions weather_conditions
     road_type light_conditions : option (list string)) : result DataFrame :=
  let filtered_df := df in
  filtered_df <-
    match year_range with
    | Some (min_year, max_year) =>
        y1 <- getitem filtered_df "year" ;;
        ge <- compare_int (fun y => Z.leb min_year y) y1 ;;
        y2 <- getitem filtered_df "year" ;;
        le <- compare_int (fun y => Z.leb y max_year) y2 ;;
        Ok (take_rows (mask_and ge le) filtered_df)
    | None => Ok filtered_df
    end ;;
  let filter_mapping :=
    [ ("severity", severity); ("gender", gender); ("age_grp", age_groups);
      ("road_conditions", road_conditions);
      ("weather_conditions", weather_conditions);
      ("road_type", road_type); ("light_conditions", light_conditions) ]%string in
  apply_filters filter_mapping filtered_df.

(* ------------------------------------------------------------------ *)
(** ** Grouping and cross-tabulation *)

(** Order of group keys: numbers by value, dates by calendar, text by
    code point; across kinds, numbers come first and text last. *)
Definition val_leb (a b : val) : bool :=
  match a, b with
  | VInt x, VInt y => Z.leb x y
  | VInt _, _ => true
  | VDate _ _ _, VInt _ => false
  | VDate y1 m1 d1, VDate y2 m2 d2 =>
      Z.ltb y1 y2 || (Z.eqb y1 y2 && (Z.ltb m1 m2 || (Z.eqb m1 m2 && Z.leb d1 d2)))
  | VDate _ _ _, VStr _ => true
  | VStr s, VStr t => String.leb s t
  | VStr _, _ => false
  end.

Fixpoint insert_by {A} (leb : A -> A -> bool) (x : A) (l : list A) : list A :=
  match l with
  | [] => [x]
  | h :: t => if leb x h then x :: h :: t else h :: insert_by leb x t
  end.

Definition sort_by {A} (leb : A -> A -> bool) (l : list A) : list A :=
  fold_right (insert_by leb) [] l.

(** The sorted distinct keys of a grouping. *)
Definition group_keys (l : list val) : list val :=
  sort_by val_leb (dedup val_eqb l).

(** [df.groupby(key).size()] on the key column: the groups are the
    distinct non-missing keys in sorted order. *)
Definition group_sizes (s : Series) : list (val * nat) :=
  map (fun v => (v, freq v s)) (group_keys (dropna s)).

(** The rows that carry a value in both columns. *)
Fixpoint valid_pairs (a b : Series) : list (val * val) :=
  match a, b with
  | Some x :: a', Some y :: b' => (x, y) :: valid_pairs a' b'
  | _ :: a', _ :: b' => valid_pairs a' b'
  | _, _ => []
  end.

Definition pair_eqb (p q : val * val) : bool :=
  val_eqb (fst p) (fst q) && val_eqb (snd p) (snd q).

Definition pair_leb (p q : val * val) : bool :=
  if val_eqb (fst p) (fst q) then val_leb (snd p) (snd q)
  else val_leb (fst p) (fst q).

Definition count_pair (p : val * val) (l : list (val * val)) : nat :=
  List.length (filter (pair_eqb p) l).

(** [df.groupby([k1, k2]).size()] on the two key columns. *)
Definition group_sizes2 (a b : Series) : list ((val * val) * nat) :=
  let ps := valid_pairs a b in
  map (fun p => (p, count_pair p ps)) (sort_by pair_leb (dedup pair_eqb ps)).

(** A table with a value index, value column labels and cells of type [T]. *)
Record CrossTab (T : Type) : Type := mkCrossTab {
  ct_index : list val;
  ct_columns : list val;
  ct_data : list (list T)
}.

(** [pd.DataFrame()] *)
Definition empty_frame {T} : CrossTab T := mkCrossTab [] [] [].

(** [pd.crosstab(a, b)]: counts of the rows with a value in both columns;
    index and columns are the sorted distinct values that occur in them. *)
Definition crosstab (a b : Series) : CrossTab nat :=
  let ps := valid_pairs a b in
  let index := group_keys (map fst ps) in
  let columns := group_keys (map snd ps) in
  mkCrossTab index columns
    (map (fun r => map (fun c => count_pair (r, c) ps) columns) index).

Definition Qofnat (n : nat) : Q := inject_Z (Z.of_nat n).

Definition sum_nat (l : list nat) : nat := fold_right Nat.add 0 l.

Definition Qsum (l : list Q) : Q := fold_right Qplus 0%Q l.

(** [normalize='index']: every row is divided by its own sum. *)
Definition normalize_index (t : CrossTab nat) : CrossTab Q :=
  mkCrossTab (ct_index t) (ct_columns t)
    (map (fun r => map (fun n => (Qofnat n / Qofnat (sum_nat r))%Q) r) (ct_data t)).

Fixpoint position (v : val) (l : list val) : option nat :=
  match l with
  | [] => None
  | h :: t => if val_eqb v h then Some 0 else option_map S (position v t)
  end.

(** [.reindex(columns=order, fill_value=fill)]: the columns become exactly
    [order]; a label the table has keeps its cells, any other is filled. *)
Definition reindex_columns {T} (order : list val) (fill : T) (t : CrossTab T) : CrossTab T :=
  mkCrossTab (ct_index t) order
    (map (fun r => map (fun c => match position c (ct_columns t) with
                                 | Some j => nth j r fill
                                 | None => fill
                                 end) order) (ct_data t)).

(** [t * k] *)
Definition scale (k : Q) (t : CrossTab Q) : CrossTab Q :=
  mkCrossTab (ct_index t) (ct_columns t) (map (map (fun x => (x * k)%Q)) (ct_data t)).

Definition severity_order : list val := [VStr "Slight"; VStr "Serious"; VStr "Fatal"].

Definition prepare_severity_analysis (df : DataFrame) (by_column : string)
  : result (CrossTab Q) :=
  if has_column "severity" df && has_column by_column df then
    by_col <- getitem df by_column ;;
    sev <- getitem df "severity" ;;
    Ok (scale 100 (reindex_columns severity_order 0%Q
                     (normalize_index (crosstab by_col sev))))
  else Ok empty_frame.

Definition prepare_stacked_bar_data (df : DataFrame) (x_column color_column : string)
  : result (CrossTab nat) :=
  x <- getitem df x_column ;;
  c <- getitem df color_column ;;
  Ok (crosstab x c).

(* ------------------------------------------------------------------ *)
(** ** Rate table: [calculate_accident_rates] *)

(** Nearest integer, ties to the even one. *)
Definition round_half_even (x : Q) : Z :=
  let f := Qfloor x in
  match Qcompare (x - inject_Z f) (1 # 2) with
  | Lt => f
  | Gt => (f + 1)%Z
  | Eq => if Z.even f then f else (f + 1)%Z
  end.

(** [.round(1)] *)
Definition round1 (x : Q) : Q := (inject_Z (round_half_even (x * 10)) / 10)%Q.

(** A table of counts and percentages per label; [pd.DataFrame()] is the
    table without columns and rows. *)
Record RatesFrame : Type := mkRates {
  rates_columns : list string;
  rates_index : list val;
  rates_count : list nat;
  rates_percentage : list Q
}.

Definition empty_rates : RatesFrame := mkRates [] [] [] [].

Definition calculate_accident_rates (df : DataFrame) (by_column : string)
  : result RatesFrame :=
  if has_column by_column df then
    col <- getitem df by_column ;;
    let counts := value_counts col in
    let total := sum_nat (map snd counts) in
    let percentages :=
      map (fun e => round1 (Qofnat (snd e) / Qofnat total * 100)%Q) counts in
    Ok (mkRates [by_column; "count"; "percentage"]%string
          (map fst counts) (map snd counts) percentages)
  else Ok empty_rates.

(* ------------------------------------------------------------------ *)
(** ** Time-series counts: [prepare_time_series_data] *)

Definition int_cell (n : nat) : cell := Some (VInt (Z.of_nat n)).

(** [df.groupby(key).size().reset_index(name='count')] *)
Definition groupby_size (df : DataFrame) (key : string) : result DataFrame :=
  s <- getitem df key ;;
  let g := group_sizes s in
  Ok [(key, map (fun e => Some (fst e)) g); ("count"%string, map (fun e => int_cell (snd e)) g)].

Definition groupby_size2 (df : DataFrame) (k1 k2 : string) : result DataFrame :=
  a <- getitem df k1 ;;
  b <- getitem df k2 ;;
  let g := group_sizes2 a b in
  Ok [(k1, map (fun e => Some (fst (fst e))) g);
      (k2, map (fun e => Some (snd (fst e))) g);
      ("count"%string, map (fun e => int_cell (snd e)) g)].

Definition day_order : list string :=
  ["Monday"; "Tuesday"; "Wednesday"; "Thursday"; "Friday"; "Saturday"; "Sunday"]%string.

Fixpoint lookup_count (v : val) (counts : list (val * nat)) : option nat :=
  match counts with
  | [] => None
  | (k, n) :: t => if val_eqb v k then Some n else lookup_count v t
  end.

Definition prepare_time_series_data (df : DataFrame) (freq : string) : result DataFrame :=
  if String.eqb freq "year" then groupby_size df "year"
  else if String.eqb freq "month" then groupby_size2 df "year" "month"
  else if String.eqb freq "day_of_week" then
    col <- getitem df "day_of_week" ;;
    let day_counts := value_counts col in
    Ok [("day_of_week"%string, map (fun d => Some (VStr d)) day_order);
        ("count"%string,
         map (fun d => match lookup_count (VStr d) day_counts with
                       | Some n => int_cell n
                       | None => int_cell 0
                       end) day_order)]
  else groupby_size df freq.

(* ------------------------------------------------------------------ *)
(** ** Rolling trend: [prepare_temporal_analysis] *)

Definition Zsum (l : list Z) : Z := fold_right Z.add 0%Z l.

(** [s.rolling(window, center).mean()] on a series of counts: the window
    of position [i] ends at [i + (window - 1) / 2] when centered and at
    [i] otherwise; a window that does not lie inside the series gives the
    missing value. *)
Definition rolling_mean (window : nat) (center : bool) (l : list Z) : list (option Q) :=
  let offset := if center then (window - 1) / 2 else 0 in
  map (fun i =>
         let last := i + offset in
         if (window <=? last + 1) && (last <? List.length l) then
           Some (inject_Z (Zsum (firstn window (skipn (last + 1 - window) l)))
                 / Qofnat window)%Q
         else None)
      (seq 0 (List.length l)).

(** [df['date'].dt]: the accessor exists on a column of dates only. *)
Fixpoint dt (s : Series) : result (list (option (Z * Z * Z))) :=
  match s with
  | [] => Ok []
  | c :: t =>
      d <- match c with
           | None => Ok None
           | Some (VDate y m d) => Ok (Some (y, m, d))
           | Some _ => Raise AttributeError
           end ;;
      r <- dt t ;;
      Ok (d :: r)
  end.

(** [.dt.to_period('M')]; a month is kept as the date of its first day. *)
Definition to_period_M (d : option (Z * Z * Z)) : cell :=
  match d with
  | Some (y, m, _) => Some (VDate y m 1)
  | None => None
  end.

Record MonthlyTrends : Type := mkMonthly {
  month : list val;
  count : list Z;
  rolling_avg : list (option Q)
}.

(** The block under [if 'date' in df.columns]. *)
Definition monthly_trends (df : DataFrame) : result MonthlyTrends :=
  col <- getitem df "date" ;;
  dates <- dt col ;;
  let monthly_counts := group_sizes (map to_period_M dates) in
  let counts := map (fun e => Z.of_nat (snd e)) monthly_counts in
  Ok (mkMonthly (map fst monthly_counts) counts (rolling_mean 3 true counts)).

Definition bool_val (b : bool) : cell := Some (VInt (if b then 1 else 0)).

(** [t.index = labels]: the number of labels must be the number of rows. *)
Definition set_index {T} (labels : list val) (t : CrossTab T) : result (CrossTab T) :=
  if Nat.eqb (List.length labels) (List.length (ct_index t)) then
    Ok (mkCrossTab labels (ct_columns t) (ct_data t))
  else Raise ValueError.

(** The block under [if 'day_of_week' in df.columns]; the truth values of
    [is_weekend] are grouped as 0 and 1. *)
Definition weekend_vs_weekday (df : DataFrame) : result (CrossTab Q) :=
  dow <- getitem df "day_of_week" ;;
  let is_weekend := map bool_val (isin dow [VStr "Saturday"; VStr "Sunday"]) in
  sev <- getitem df "severity" ;;
  let weekend_severity := scale 100 (normalize_index (crosstab is_weekend sev)) in
  set_index [VStr "Weekday"; VStr "Weekend"] weekend_severity.

Record TemporalResults : Type := mkTemporal {
  hourly : option DataFrame;
  weekend_vs_weekday_data : option (CrossTab Q);
  monthly_trends_data : option MonthlyTrends
}.

Section Temporal.

(** The two parses of the [time] column that [extract_hour_from_time]
    tries in turn, each giving the column of hours, or nothing when the
    parse raises. *)
Variable hours_strict : Series -> option Series.
Variable hours_any : Series -> option Series.

Definition extract_hour_from_time (df : DataFrame) : DataFrame :=
  let df_copy := df in
  let nan_column := repeat (@None val) (nrows df) in
  if has_column "time" df then
    match getitem df_copy "time" with
    | Ok t =>
        match hours_strict t with
        | Some h => setitem df_copy "hour" h
        | None =>
            match hours_any t with
            | Some h => setitem df_copy "hour" h
            | None => setitem df_copy "hour" nan_column
            end
        end
    | Raise _ => setitem df_copy "hour" nan_column
    end
  else setitem df_copy "hour" nan_column.

Definition prepare_temporal_analysis (df : DataFrame) : result TemporalResults :=
  let df_with_hour := extract_hour_from_time df in
  hourly_data <-
    (if has_column "hour" df_with_hour then
       h <- groupby_size df_with_hour "hour" ;; Ok (Some h)
     else Ok None) ;;
  weekend <-
    (if has_column "day_of_week" df then
       w <- weekend_vs_weekday df ;; Ok (Some w)
     else Ok None) ;;
  monthly <-
    (if has_column "date" df then
       m <- monthly_trends df ;; Ok (Some m)
     else Ok None) ;;
  Ok (mkTemporal hourly_data weekend monthly).

End Temporal.

(* ------------------------------------------------------------------ *)
(** ** Flow graph: [create_sankey_data] *)

Record Sankey : Type := mkSankey {
  nodes : list cell;
  sources : list nat;
  targets : list nat;
  values : list nat
}.

(** [l.index(x)]: the position of the first element equal to [x]. *)
Fixpoint list_index (x : cell) (l : list cell) : result nat :=
  match l with
  | [] => Raise ValueError
  | h :: t => if cell_eqb x h then Ok 0 else n <- list_index x t ;; Ok (S n)
  end.

(** One of the two loops over the pair counts: the flows of at least 100
    records are appended to the three lists. *)
Fixpoint append_flows (nodes : list cell) (counts : list ((val * val) * nat))
    (acc : list nat * list nat * list nat) : result (list nat * list nat * list nat) :=
  match counts with
  | [] => Ok acc
  | ((a, b), count) :: rest =>
      if 100 <=? count then
        s <- list_index (Some a) nodes ;;
        t <- list_index (Some b) nodes ;;
        append_flows nodes rest
          (fst (fst acc) ++ [s], snd (fst acc) ++ [t], snd acc ++ [count])
      else append_flows nodes rest acc
  end.

(** The result is [None] for the empty dictionary. *)
Definition create_sankey_data (df : DataFrame) : result (option Sankey) :=
  if negb (forallb (fun col => has_column col df)
             ["road_type"; "weather_conditions"; "severity"]%string) then Ok None
  else
    let df_temp := df in
    road <- getitem df_temp "road_type" ;;
    let df_temp := setitem df_temp "road_type" (group_rare road 1000 "Other") in
    weather <- getitem df_temp "weather_conditions" ;;
    let df_temp := setitem df_temp "weather_conditions" (group_rare weather 1000 "Other") in
    road_col <- getitem df_temp "road_type" ;;
    weather_col <- getitem df_temp "weather_conditions" ;;
    severity_col <- getitem df_temp "severity" ;;
    (* [flow_counts], the three-column count table, is computed here and
       not used in the result. *)
    let road_types := unique road_col in
    let weather_types := unique weather_col in
    let severities := unique severity_col in
    let nodes := road_types ++ weather_types ++ severities in
    let road_weather_counts := group_sizes2 road_col weather_col in
    acc <- append_flows nodes road_weather_counts ([], [], []) ;;
    let weather_severity_counts := group_sizes2 weather_col severity_col in
    acc <- append_flows nodes weather_severity_counts acc ;;
    Ok (Some (mkSankey nodes (fst (fst acc)) (snd (fst acc)) (snd acc))).

(* ------------------------------------------------------------------ *)
(** ** Record Merger: [merge_accidents_bikers] *)




Section Etl.

(** The content of the file at a path, as [load_csv] reads it. *)
Variable load_csv : string -> DataFrame.


End Etl.

(* ------------------------------------------------------------------ *)
(** ** Feature Deriver: [preprocess] *)

Definition is_upper (c : ascii) : bool :=
  (65 <=? nat_of_ascii c) && (nat_of_ascii c <=? 90).

Definition is_lower (c : ascii) : bool :=
  (97 <=? nat_of_ascii c) && (nat_of_ascii c <=? 122).

Definition to_lower (c : ascii) : ascii :=
  if is_upper c then ascii_of_nat (nat_of_ascii c + 32) else c.

Definition to_upper (c : ascii) : ascii :=
  if is_lower c then ascii_of_nat (nat_of_ascii c - 32) else c.

Definition is_space (c : ascii) : bool :=
  let n := nat_of_ascii c in
  (n =? 32) || ((9 <=? n) && (n <=? 13)) || ((28 <=? n) && (n <=? 31)).

(** [str.lower()] *)
Fixpoint lower (s : string) : string :=
  match s with
  | EmptyString => EmptyString
  | String c t => String (to_lower c) (lower t)
  end.

Fixpoint lstrip (l : list ascii) : list ascii :=
  match l with
  | c :: t => if is_space c then lstrip t else l
  | [] => []
  end.

(** [str.strip()] *)
Definition strip (s : string) : string :=
  string_of_list_ascii (rev (lstrip (rev (lstrip (list_ascii_of_string s))))).

(** [str.title()]: a letter that follows a letter is lower-cased, any
    other letter is upper-cased. *)
Fixpoint title_from (prev_cased : bool) (s : string) : string :=
  match s with
  | EmptyString => EmptyString
  | String c t =>
      if is_upper c || is_lower c then
        String (if prev_cased then to_lower c else to_upper c) (title_from true t)
      else String c (title_from false t)
  end.

Definition title (s : string) : string := title_from false s.

(** [severity_map = {'Slight': 1, 'Serious': 2, 'Fatal': 3}] *)
Definition severity_map (s : string) : option Z :=
  if String.eqb s "Slight" then Some 1%Z
  else if String.eqb s "Serious" then Some 2%Z
  else if String.eqb s "Fatal" then Some 3%Z
  else None.

(** [s.map(severity_map)]: a cell that is no key of the dictionary
    becomes the missing value. *)
Definition map_severity (c : cell) : cell :=
  match c with
  | Some (VStr s) => option_map VInt (severity_map s)
  | _ => None
  end.

Definition string_cols : list string :=
  ["road_conditions"; "weather_conditions"; "road_type";
   "light_conditions"; "gender"; "severity"; "age_grp"; "day"]%string.

Definition label_count (name : string) (df : DataFrame) : nat :=
  List.length (filter (fun p => String.eqb name (fst p)) df).

(** [df[name]] where a column is needed: a label that occurs more than
    once selects a table, on which the column operation that follows
    raises [dup]. *)
Definition getcol (dup : exn) (df : DataFrame) (name : string) : result Series :=
  if 1 <? label_count name df then Raise dup else getitem df name.

Section FeatureDeriver.

(** [str(v)] for a number or a date. *)
Variable repr : val -> string.
(** [pd.to_datetime(., errors='coerce')] on a cell. *)
Variable to_datetime : cell -> option (Z * Z * Z).
(** [Timestamp.day_name()] *)
Variable day_name : Z * Z * Z -> string.
(** [pd.to_datetime(., format='%H:%M', errors='coerce').dt.time] on a cell. *)
Variable to_time : cell -> cell.

(** [.astype(str)] on a cell: the missing value becomes the text [nan]. *)
Definition astype_str (c : cell) : string :=
  match c with
  | None => "nan"%string
  | Some (VStr s) => s
  | Some v => repr v
  end.

Definition clean_text (c : cell) : cell :=
  Some (VStr (title (strip (astype_str c)))).

Fixpoint clean_string_cols (cols : list string) (df : DataFrame) : result DataFrame :=
  match cols with
  | [] => Ok df
  | col :: rest =>
      if has_column col df then
        s <- getcol AttributeError df col ;;
        clean_string_cols rest (setitem df col (map clean_text s))
      else clean_string_cols rest df
  end.

Definition date_cell (d : option (Z * Z * Z)) : cell :=
  match d with
  | Some (y, m, d) => Some (VDate y m d)
  | None => None
  end.

Definition preprocess (df : DataFrame) : result DataFrame :=
  let df := map (fun p => (lower (fst p), snd p)) df in
  df <- clean_string_cols string_cols df ;;
  raw_date <- getcol ValueError df "date" ;;
  let df := setitem df "date" (map (fun c => date_cell (to_datetime c)) raw_date) in
  date <- getitem df "date" ;;
  dates <- dt date ;;
  let df := setitem df "year"
              (map (fun d => option_map (fun t => VInt (fst (fst t))) d) dates) in
  let df := setitem df "month"
              (map (fun d => option_map (fun t => VInt (snd (fst t))) d) dates) in
  let df := setitem df "day_of_week"
              (map (fun d => option_map (fun t => VStr (day_name t)) d) dates) in
  raw_time <- getcol ValueError df "time" ;;
  let df := setitem df "time" (map to_time raw_time) in
  severity <- getcol TypeError df "severity" ;;
  let df := setitem df "severity_numeric" (map map_severity severity) in
  Ok df.

End FeatureDeriver.

(* ------------------------------------------------------------------ *)
(** ** Top categories and filter options *)

(** [s.head(n)] on the entries of a series: the first [n], or all but the
    last [-n] when [n] is negative. *)
Definition series_head {A} (n : Z) (l : list A) : list A :=
  if Z.leb 0 n then firstn (Z.to_nat n) l
  else firstn (List.length l - Z.to_nat (- n)) l.

Definition get_top_categories (df : DataFrame) (column : string) (top_n : Z)
  : result (list val) :=
  if has_column column df then
    col <- getitem df column ;;
    Ok (map fst (series_head top_n (value_counts col)))
  else Ok [].

Definition categorical_columns : list string :=
  ["severity"; "gender"; "age_grp"; "road_conditions";
   "weather_conditions"; "road_type"; "light_conditions"; "day_of_week"]%string.

Section FilterOptions.

(** [str(v)] for a number or a date. *)
Variable repr : val -> string.

Definition str_of (v : val) : string :=
  match v with
  | VStr s => s
  | _ => repr v
  end.

(** The option list of one column: [df[col].dropna().unique()], every
    value as text, the text [nan] left out, sorted. *)
Definition filter_options (col : Series) : list string :=
  let values := dedup val_eqb (dropna col) in
  sort_by String.leb
    (filter (fun s => negb (String.eqb s "nan")) (map str_of values)).

(** The dictionary is the list of its entries in insertion order. *)
Fixpoint unique_values_of (cols : list string) (df : DataFrame)
  : result (list (string * list string)) :=
  match cols with
  | [] => Ok []
  | col :: rest =>
      if has_column col df then
        s <- getitem df col ;;
        tail <- unique_values_of rest df ;;
        Ok ((col, filter_options s) :: tail)
      else unique_values_of rest df
  end.

Definition get_unique_values_for_filters (df : DataFrame)
  : result (list (string * list string)) :=
  unique_values_of categorical_columns df.

End FilterOptions.

(** [d.get(key, [])] *)
Fixpoint dict_get (key : string) (d : list (string * list string)) : list string :=
  match d with
  | [] => []
  | (k, v) :: rest => if String.eqb key k then v else dict_get key rest
  end.

(* ------------------------------------------------------------------ *)
(** ** Key indicators: [calculate_kpis] *)

Record Kpis : Type := mkKpis {
  total_accidents : nat;
  total_casualties : Z;
  total_vehicles : Z;
  fatal_accidents : nat;
  serious_accidents : nat;
  slight_accidents : nat;
  avg_casualties_per_accident : Q;
  kpi_year_range : string
}.

(** [len(df[df['severity'] == label])]; a missing cell equals no label. *)
Definition count_label (df : DataFrame) (label : string) : result nat :=
  sev <- getitem df "severity" ;;
  Ok (nrows (take_rows (map (cell_eqb (Some (VStr label))) sev) df)).

Section Kpi.

(** [Series.sum()], [Series.mean()] and the text of [min()]-[max()]. *)
Variable series_sum : Series -> Z.
Variable series_mean : Series -> Q.
Variable span_text : Series -> string.

Definition calculate_kpis (df : DataFrame) : result Kpis :=
  casualties <-
    (if has_column "number_of_casualties" df
     then c <- getitem df "number_of_casualties" ;; Ok (series_sum c) else Ok 0%Z) ;;
  vehicles <-
    (if has_column "number_of_vehicles" df
     then c <- getitem df "number_of_vehicles" ;; Ok (series_sum c) else Ok 0%Z) ;;
  fatal <- (if has_column "severity" df then count_label df "Fatal" else Ok 0) ;;
  serious <- (if has_column "severity" df then count_label df "Serious" else Ok 0) ;;
  slight <- (if has_column "severity" df then count_label df "Slight" else Ok 0) ;;
  avg <-
    (if has_column "number_of_casualties" df
     then c <- getitem df "number_of_casualties" ;; Ok (series_mean c) else Ok 0%Q) ;;
  span <-
    (if has_column "year" df && (0 <? nrows df)
     then y <- getitem df "year" ;; Ok (span_text y) else Ok "N/A"%string) ;;
  Ok (mkKpis (nrows df) casualties vehicles fatal serious slight avg span).

End Kpi.

(* ------------------------------------------------------------------ *)
(** ** Severity trends: [prepare_severity_trends_data] *)

(** [df.groupby(['year', 'severity']).size().unstack(fill_value=0)]: one
    row per year, one column per severity, in sorted order, the count of
    a pair that does not occur filled with 0; [reset_index] turns the
    index into the [year] column, kept here as the index of the table. *)
Definition prepare_severity_trends_data (df : DataFrame) : result (CrossTab nat) :=
  if has_column "year" df && has_column "severity" df then
    year <- getitem df "year" ;;
    sev <- getitem df "severity" ;;
    let ps := valid_pairs year sev in
    let years := group_keys (map fst ps) in
    let severities := group_keys (map snd ps) in
    Ok (mkCrossTab years severities
          (map (fun y => map (fun s => count_pair (y, s) ps) severities) years))
  else Ok empty_frame.

(* ------------------------------------------------------------------ *)
(** ** Correlation matrices *)

(** [df[cols]]: the listed columns, in the order of the list. *)
Fixpoint select_columns (cols : list string) (df : DataFrame) : result DataFrame :=
  match cols with
  | [] => Ok []
  | c :: rest =>
      s <- getitem df c ;;
      tail <- select_columns rest df ;;
      Ok ((c, s) :: tail)
  end.

(** [df.dropna()]: the rows without a missing cell. *)
Definition complete_rows (df : DataFrame) : list bool :=
  map (fun i => forallb (fun p => negb (isnull (nth i (snd p) None))) df)
      (seq 0 (nrows df)).

Definition dropna_rows (df : DataFrame) : DataFrame :=
  take_rows (complete_rows df) df.

Section Correlation.

Variable hours_strict : Series -> option Series.
Variable hours_any : Series -> option Series.
(** [DataFrame.corr()], the matrix of Pearson coefficients. *)
Variable corr : DataFrame -> CrossTab Q.

Definition prepare_correlation_data (df : DataFrame) : result (CrossTab Q) :=
  let numeric_cols :=
    ["speed_limit"; "number_of_vehicles"; "number_of_casualties";
     "severity_numeric"]%string in
  let available_cols := filter (fun col => has_column col df) numeric_cols in
  if 1 <? List.length available_cols then
    sub <- select_columns available_cols df ;;
    Ok (corr sub)
  else Ok empty_frame.

Definition calculate_correlation_matrix (df : DataFrame) : result (CrossTab Q) :=
  let df_with_hour := extract_hour_from_time hours_strict hours_any df in
  let numeric_cols :=
    ["speed_limit"; "number_of_casualties"; "number_of_vehicles";
     "severity_numeric"]%string in
  let numeric_cols :=
    if has_column "hour" df_with_hour then numeric_cols ++ ["hour"%string]
    else numeric_cols in
  let available_cols := filter (fun col => has_column col df_with_hour) numeric_cols in
  if 1 <? List.length available_cols then
    sub <- select_columns available_cols df_with_hour ;;
    let correlation_data := dropna_rows sub in
    if 0 <? nrows correlation_data then Ok (corr correlation_data)
    else Ok empty_frame
  else Ok empty_frame.

End Correlation.

(* ------------------------------------------------------------------ *)
(** ** Binned heatmap: [prepare_severity_speed_heatmap] *)

Definition speed_bins : list Z := [0; 20; 30; 40; 50; 60; 70; 100]%Z.

Definition speed_labels : list string :=
  ["≤20"; "21-30"; "31-40"; "41-50"; "51-60"; "61-70"; ">70"]%string.

(** [pd.cut(x, bins, labels=labels, include_lowest=True)] on one number:
    the intervals are closed on the right, the first one on the left
    too; a number in no interval has no bin. *)
Fixpoint cut_from (first : bool) (lo : Z) (edges : list Z) (labels : list string)
    (x : Z) : option string :=
  match edges, labels with
  | hi :: edges', l :: labels' =>
      if (if first then Z.leb lo x else Z.ltb lo x) && Z.leb x hi then Some l
      else cut_from false hi edges' labels' x
  | _, _ => None
  end.

Definition cut (bins : list Z) (labels : list string) (x : Z) : option string :=
  match bins with
  | lo :: edges => cut_from true lo edges labels x
  | [] => None
  end.

(** [pd.cut] on a column: a cell that is no number is a type error. *)
Fixpoint cut_series (bins : list Z) (labels : list string) (s : Series) : result Series :=
  match s with
  | [] => Ok []
  | c :: t =>
      b <- match c with
           | None => Ok None
           | Some (VInt x) => Ok (option_map VStr (cut bins labels x))
           | Some _ => Raise TypeError
           end ;;
      r <- cut_series bins labels t ;;
      Ok (b :: r)
  end.

(** [pd.crosstab] with a categorical index: the rows are the categories
    that occur, in the order of the categories. *)
Definition crosstab_categorical (categories : list val) (a b : Series) : CrossTab nat :=
  let ps := valid_pairs a b in
  let index := filter (fun c => existsb (val_eqb c) (map fst ps)) categories in
  let columns := group_keys (map snd ps) in
  mkCrossTab index columns
    (map (fun r => map (fun c => count_pair (r, c) ps) columns) index).

(** [t.round(1)] *)
Definition round_table (t : CrossTab Q) : CrossTab Q :=
  mkCrossTab (ct_index t) (ct_columns t) (map (map round1) (ct_data t)).

(** The body of the [try] block. *)
Definition speed_heatmap_table (df_temp : DataFrame) : result (CrossTab Q) :=
  speed <- getitem df_temp "speed_limit" ;;
  bins <- cut_series speed_bins speed_labels speed ;;
  let df_temp := setitem df_temp "speed_bin" bins in
  speed_bin <- getitem df_temp "speed_bin" ;;
  sev <- getitem df_temp "severity" ;;
  let heatmap_data :=
    scale 100 (normalize_index
                 (crosstab_categorical (map VStr speed_labels) speed_bin sev)) in
  Ok (round_table heatmap_data).

Definition prepare_severity_speed_heatmap (df : DataFrame) : CrossTab Q :=
  if has_column "severity" df && has_column "speed_limit" df then
    match getitem df "speed_limit" with
    | Ok speed =>
        let df_temp := take_rows (map (fun c => negb (isnull c)) speed) df in
        match speed_heatmap_table df_temp with
        | Ok t => t
        | Raise _ => empty_frame
        end
    | Raise _ => empty_frame
    end
  else empty_frame.

(* ------------------------------------------------------------------ *)
(** ** Environmental conditions: [prepare_environmental_analysis] *)

Record EnvironmentalResults : Type := mkEnvironmental {
  weather_severity : option (CrossTab Q);
  road_type_severity : option (CrossTab nat);
  light_severity : option (CrossTab Q)
}.

(** A staged column with its rare labels collapsed, cross-tabulated with
    severity. *)
Definition collapsed_crosstab (df : DataFrame) (column : string) (min_count : Z)
  : result (CrossTab nat) :=
  let df_temp := df in
  col <- getitem df_temp column ;;
  let df_temp := setitem df_temp column (group_rare col min_count "Other") in
  c <- getitem df_temp column ;;
  sev <- getitem df_temp "severity" ;;
  Ok (crosstab c sev).

Definition prepare_environmental_analysis (df : DataFrame) : result EnvironmentalResults :=
  weather <-
    (if has_column "weather_conditions" df && has_column "severity" df then
       t <- collapsed_crosstab df "weather_conditions" 500 ;;
       Ok (Some (round_table (scale 100 (normalize_index t))))
     else Ok None) ;;
  road <-
    (if has_column "road_type" df && has_column "severity" df then
       t <- collapsed_crosstab df "road_type" 500 ;;
       Ok (Some t)
     else Ok None) ;;
  light <-
    (if has_column "light_conditions" df && has_column "severity" df then
       t <- collapsed_crosstab df "light_conditions" 500 ;;
       Ok (Some (round_table (scale 100 (normalize_index t))))
     else Ok None) ;;
  Ok (mkEnvironmental weather road light).

(* ------------------------------------------------------------------ *)
(** ** Demographics: [prepare_demographic_severity_analysis] *)

Record DemographicResults : Type := mkDemographic {
  age_severity_heatmap : option (CrossTab Q);
  gender_road_conditions : option (CrossTab Q);
  age_gender_time : option DataFrame
}.

Section Demographic.

Variable hours_strict : Series -> option Series.
Variable hours_any : Series -> option Series.

Definition prepare_demographic_severity_analysis (df : DataFrame)
  : result DemographicResults :=
  age_severity <-
    (if has_column "age_grp" df && has_column "severity" df then
       age <- getitem df "age_grp" ;;
       sev <- getitem df "severity" ;;
       Ok (Some (round_table (scale 100 (normalize_index (crosstab age sev)))))
     else Ok None) ;;
  gender_road <-
    (if has_column "gender" df && has_column "road_conditions" df then
       let df_temp := df in
       road <- getitem df_temp "road_conditions" ;;
       let df_temp := setitem df_temp "road_conditions" (group_rare road 1000 "Other") in
       gender <- getitem df_temp "gender" ;;
       road <- getitem df_temp "road_conditions" ;;
       Ok (Some (round_table (scale 100 (normalize_index (crosstab gender road)))))
     else Ok None) ;;
  let df_with_hour := extract_hour_from_time hours_strict hours_any df in
  by_time <-
    (if has_column "hour" df_with_hour && has_column "age_grp" df_with_hour
        && has_column "gender" df_with_hour then
       let df_temp := df_with_hour in
       hour <- getitem df_temp "hour" ;;
       let df_temp := take_rows (map (fun c => negb (isnull c)) hour) df_temp in
       t <- groupby_size2 df_temp "hour" "gender" ;;
       Ok (Some t)
     else Ok None) ;;
  Ok (mkDemographic age_severity gender_road by_time).

End Demographic.


(* ------------------------------------------------------------------ *)
(** ** Reference definitions

    The properties below compare the functions above with these direct
    descriptions of their results. *)

(** Collapsing, cell by cell: a value rarer than [min_count] in the column
    [s] becomes the catch-all label, any other cell is kept. *)
Definition collapse_cell (s : Series) (min_count : Z) (other_label : string) (c : cell) : cell :=
  match c with
  | Some v => if Z.ltb (Z.of_nat (freq v s)) min_count then Some (VStr other_label) else Some v
  | None => None
  end.

(** A year cell that lies in the inclusive range. *)
Definition year_in_range (min_year max_year : Z) (c : cell) : bool :=
  match c with
  | Some (VInt y) => Z.leb min_year y && Z.leb y max_year
  | _ => false
  end.

(** A cell of a column of integers: an integer or the missing value. *)
Definition int_or_null (c : cell) : Prop :=
  match c with
  | Some (VInt _) | None => True
  | Some _ => False
  end.

(** Every column has as many cells as the table has rows. *)
Definition well_formed (df : DataFrame) : Prop :=
  Forall (fun p => List.length (snd p) = nrows df) df.

(** Position of a label among the columns. *)
Fixpoint column_position (name : string) (df : DataFrame) : nat :=
  match df with
  | [] => 0
  | (n, _) :: rest => if String.eqb name n then 0 else S (column_position name rest)
  end.

(** The cell of a row under a label. *)
Definition row_cell (df : DataFrame) (name : string) (r : list cell) : cell :=
  nth (column_position name df) r None.

(** The positions at which a mask holds. *)
Definition kept (mask : list bool) : list nat :=
  filter (fun i => nth i mask false) (seq 0 (List.length mask)).


(** Number of the rows, among those with a value in both columns, that
    belong to the group [g]. *)
Definition group_size (g : val) (ps : list (val * val)) : nat :=
  List.length (filter (fun p => val_eqb g (fst p)) ps).

(** Percentage of the rows of the group [g] that have the label [l]. *)
Definition severity_share (ps : list (val * val)) (g l : val) : Q :=
  (Qofnat (count_pair (g, l) ps) / Qofnat (group_size g ps) * 100)%Q.

(** Position of the first cell of a list equal to [x] (the length of the
    list when there is none). *)
Fixpoint first_index (x : cell) (l : list cell) : nat :=
  match l with
  | [] => 0
  | h :: t => if cell_eqb x h then 0 else S (first_index x t)
  end.

(** The flows kept from a table of pair counts: source position, target
    position and count of every pair with at least 100 records. *)
Definition flows_of (nodes : list cell) (counts : list ((val * val) * nat))
  : list (nat * nat * nat) :=
  map (fun e => (first_index (Some (fst (fst e))) nodes,
                 first_index (Some (snd (fst e))) nodes,
                 snd e))
      (filter (fun e => 100 <=? snd e) counts).

(** Order of the entries of [value_counts]: no count grows. *)
Definition by_count_desc (a b : val * nat) : Prop := snd b <= snd a.

(** A severity cell that holds one of the three labels. *)
Definition is_severity_label (c : cell) : bool :=
  cell_eqb (Some (VStr "Slight")) c || cell_eqb (Some (VStr "Serious")) c
  || cell_eqb (Some (VStr "Fatal")) c.

(** A cell that holds one of the listed texts. *)
Definition cell_in (values : list string) (c : cell) : bool :=
  match c with
  | Some v => existsb (val_eqb v) (map VStr values)
  | None => false
  end.

(** One entry of the filter mapping, read on a row: a list that is given
    and not empty, for a column the table has, asks the row's cell to be
    in the list; any other entry asks nothing. *)
Definition passes_filter (df : DataFrame) (r : list cell)
    (e : string * option (list string)) : bool :=
  if truthy (snd e) && has_column (fst e) df
  then cell_in (values_of (snd e)) (row_cell df (fst e) r)
  else true.

(** The conjunction of the year range and of the entries of the mapping. *)
Definition row_passes (df : DataFrame) (year_range : option (Z * Z))
    (mapping : list (string * option (list string))) (r : list cell) : bool :=
  match year_range with
  | Some (min_year, max_year) => year_in_range min_year max_year (row_cell df "year" r)
  | None => true
  end && forallb (passes_filter df r) mapping.

(** The mapping that [filter_dataframe] builds from its arguments. *)
Definition filter_mapping_of
    (severity gender age_groups road_conditions weather_conditions
     road_type light_conditions : option (list string))
  : list (string * option (list string)) :=
  [ ("severity", severity); ("gender", gender); ("age_grp", age_groups);
    ("road_conditions", road_conditions);
    ("weather_conditions", weather_conditions);
    ("road_type", road_type); ("light_conditions", light_conditions) ]%string.

(** A cell that holds a text other than [nan]. *)
Definition has_text (c : cell) : bool :=
  match c with
  | Some (VStr t) => negb (String.eqb t "nan")
  | _ => false
  end.

(** A cell of a column of texts: a text or the missing value. *)
Definition text_or_null (c : cell) : Prop :=
  match c with
  | Some (VStr _) | None => True
  | Some _ => False
  end.


(** The columns that [preprocess] writes besides the text columns. *)
Definition derived_columns : list string :=
  ["date"; "year"; "month"; "day_of_week"; "time"; "severity_numeric"]%string.


(** The row labels of one table of [prepare_environmental_analysis]:
    absent when the staged column or [severity] is missing; otherwise
    distinct, and each is [Other] or a value that occurs at least 500
    times in the staged column of the input. *)
Definition collapsed_index_ok (df : DataFrame) (column : string)
    (index : option (list val)) : Prop :=
  match index with
  | Some ix =>
      exists col,
        getitem df column = Ok col /\
        has_column "severity" df = true /\
        NoDup ix /\
        Forall (fun v => v = VStr "Other" \/ (500 <= Z.of_nat (freq v col))%Z) ix
  | None => has_column column df && has_column "severity" df = false
  end.



(** The speed band of a speed limit, by its bounds: 0 to 20, 21 to 30,
    and so on to 71 to 100; a number below 0 or above 100 is in no band. *)
Definition speed_bin_of (x : Z) : option string :=
  if (x <? 0)%Z then None
  else if (x <=? 20)%Z then Some "≤20"%string
  else if (x <=? 30)%Z then Some "21-30"%string
  else if (x <=? 40)%Z then Some "31-40"%string
  else if (x <=? 50)%Z then Some "41-50"%string
  else if (x <=? 60)%Z then Some "51-60"%string
  else if (x <=? 70)%Z then Some "61-70"%string
  else if (x <=? 100)%Z then Some ">70"%string
  else None.

(** A band is occupied when some row has a speed limit of the band and a
    severity. *)
Definition bin_occupied (speed sev : Series) (l : string) : bool :=
  existsb (fun p =>
             match fst p, snd p with
             | Some (VInt x), Some _ =>
                 match speed_bin_of x with
                 | Some l' => String.eqb l l'
                 | None => false
                 end
             | _, _ => false
             end)
          (combine speed sev).

(** [pd.cut] on one cell of a column of numbers. *)
Definition bin_cell (c : cell) : cell :=
  match c with
  | Some (VInt x) => option_map VStr (cut speed_bins speed_labels x)
  | _ => None
  end.




(** A letter, upper or lower case. *)
Definition cased (c : ascii) : bool := is_upper c || is_lower c.

(** A text that does not begin with white space. *)
Definition starts_clean (l : list ascii) : Prop :=
  match l with
  | [] => True
  | c :: _ => is_space c = false
  end.

(* ================================================================== *)
(** * Properties *)

(* ------------------------------------------------------------------ *)
(** ** Equality tests *)

Lemma val_eqb_eq (a b : val) : val_eqb a b = true <-> a = b.
Proof.
  destruct a, b; simpl; split; intro H; try discriminate; try congruence.
  - apply Z.eqb_eq in H. now subst.
  - inversion H. apply Z.eqb_refl.
  - apply String.eqb_eq in H. now subst.
  - inversion H. apply String.eqb_refl.
  - apply andb_true_iff in H as [H Hd]. apply andb_true_iff in H as [Hy Hm].
    apply Z.eqb_eq in Hy, Hm, Hd. now subst.
  - inversion H. now rewrite !Z.eqb_refl.
Qed.

Lemma val_eqb_refl (a : val) : val_eqb a a = true.
Proof. now apply val_eqb_eq. Qed.

Lemma val_eqb_neq (a b : val) : val_eqb a b = false <-> a <> b.
Proof.
  split.
  - intros H E. apply val_eqb_eq in E. congruence.
  - intro H. destruct (val_eqb a b) eqn:E; [apply val_eqb_eq in E; contradiction | reflexivity].
Qed.

Lemma cell_eqb_eq (a b : cell) : cell_eqb a b = true <-> a = b.
Proof.
  destruct a, b; simpl; try (split; [discriminate | congruence]).
  - rewrite val_eqb_eq. split; congruence.
  - split; reflexivity.
Qed.

Lemma pair_eqb_eq (p q : val * val) : pair_eqb p q = true <-> p = q.
Proof.
  destruct p, q; unfold pair_eqb; simpl.
  rewrite andb_true_iff, !val_eqb_eq. split; [intros [-> ->] | intro H; inversion H]; auto.
Qed.

Lemma existsb_eqb_In {A} (eqb : A -> A -> bool)
    (Heq : forall a b, eqb a b = true <-> a = b) (x : A) (l : list A) :
  existsb (eqb x) l = true <-> In x l.
Proof.
  rewrite existsb_exists. split.
  - intros (y & Hy & E). apply Heq in E. now subst.
  - intro H. exists x. split; [assumption | now apply Heq].
Qed.

(* ------------------------------------------------------------------ *)
(** ** Distinct elements *)

Section Dedup.

Variable A : Type.
Variable eqb : A -> A -> bool.
Hypothesis eqb_eq : forall a b, eqb a b = true <-> a = b.

Lemma dedup_from_In (x : A) (l seen : list A) :
  In x (dedup_from eqb seen l) <-> In x l /\ ~ In x seen.
Proof.
  revert seen. induction l as [|y t IH]; intro seen; simpl.
  - tauto.
  - destruct (existsb (eqb y) seen) eqn:E.
    + apply (existsb_eqb_In eqb eqb_eq) in E. rewrite IH.
      split; [tauto|]. intros [[->|H] Hn]; [contradiction | tauto].
    + assert (Hy : ~ In y seen).
      { intro H. apply (existsb_eqb_In eqb eqb_eq) in H. congruence. }
      simpl. rewrite IH. simpl. split.
      * intros [->|[H Hn]]; [tauto|]. split; [tauto|]. intro. apply Hn. tauto.
      * intros [[->|H] Hn]; [tauto|].
        destruct (eqb y x) eqn:Eyx; [apply eqb_eq in Eyx; tauto|].
        right. split; [assumption|]. intros [->|Hs]; [|contradiction].
        assert (eqb x x = true) by now apply eqb_eq. congruence.
Qed.

Lemma dedup_from_NoDup (l seen : list A) : NoDup (dedup_from eqb seen l).
Proof.
  revert seen. induction l as [|y t IH]; intro seen; simpl.
  - constructor.
  - destruct (existsb (eqb y) seen); [apply IH|].
    constructor; [|apply IH]. rewrite dedup_from_In. simpl. tauto.
Qed.

Lemma dedup_In (x : A) (l : list A) : In x (dedup eqb l) <-> In x l.
Proof. unfold dedup. rewrite dedup_from_In. simpl. tauto. Qed.

Lemma dedup_NoDup (l : list A) : NoDup (dedup eqb l).
Proof. apply dedup_from_NoDup. Qed.

End Dedup.

Lemma dropna_In (v : val) (s : Series) : In v (dropna s) <-> In (Some v) s.
Proof.
  induction s as [|[w|] t IH]; simpl.
  - tauto.
  - rewrite IH. split; intros [H|H]; auto; left; congruence.
  - rewrite IH. split; [tauto|]. intros [H|H]; [discriminate|assumption].
Qed.

Lemma dropna_NoDup (s : Series) : NoDup s -> NoDup (dropna s).
Proof.
  induction 1 as [|[w|] t Hn Hd IH]; simpl; try constructor; auto.
  now rewrite dropna_In.
Qed.

Lemma distinct_values_In (v : val) (s : Series) :
  In v (distinct_values s) <-> In (Some v) s.
Proof.
  unfold distinct_values, unique. rewrite dropna_In.
  apply dedup_In. exact cell_eqb_eq.
Qed.

Lemma distinct_values_NoDup (s : Series) : NoDup (distinct_values s).
Proof. apply dropna_NoDup, dedup_NoDup. exact cell_eqb_eq. Qed.

(* ------------------------------------------------------------------ *)
(** ** Sorting keeps the elements *)

Lemma insert_desc_perm (e : val * nat) (l : list (val * nat)) :
  Permutation (insert_desc e l) (e :: l).
Proof.
  induction l as [|h t IH]; simpl.
  - reflexivity.
  - destruct (Nat.leb (snd h) (snd e)); [reflexivity|].
    rewrite IH. apply perm_swap.
Qed.

Lemma sort_desc_perm (l : list (val * nat)) : Permutation (sort_desc l) l.
Proof.
  induction l as [|h t IH]; simpl; [reflexivity|].
  rewrite insert_desc_perm. now constructor.
Qed.

Lemma insert_by_perm {A} (leb : A -> A -> bool) (x : A) (l : list A) :
  Permutation (insert_by leb x l) (x :: l).
Proof.
  induction l as [|h t IH]; simpl.
  - reflexivity.
  - destruct (leb x h); [reflexivity|].
    rewrite IH. apply perm_swap.
Qed.

Lemma sort_by_perm {A} (leb : A -> A -> bool) (l : list A) :
  Permutation (sort_by leb l) l.
Proof.
  induction l as [|h t IH]; simpl; [reflexivity|].
  rewrite insert_by_perm. now constructor.
Qed.

Lemma group_keys_In (v : val) (l : list val) : In v (group_keys l) <-> In v l.
Proof.
  unfold group_keys. rewrite <- (dedup_In val_eqb val_eqb_eq v l).
  split; apply Permutation_in; [|symmetry]; apply sort_by_perm.
Qed.

Lemma group_keys_NoDup (l : list val) : NoDup (group_keys l).
Proof.
  unfold group_keys.
  apply (Permutation_NoDup (l := dedup val_eqb l)).
  - symmetry. apply sort_by_perm.
  - apply dedup_NoDup. exact val_eqb_eq.
Qed.

(* ------------------------------------------------------------------ *)
(** ** Frequencies *)

Lemma freq_cons (v : val) (c : cell) (s : Series) :
  freq v (c :: s) = (if cell_eqb (Some v) c then 1 else 0) + freq v s.
Proof. unfold freq. cbn [filter]. now destruct (cell_eqb (Some v) c). Qed.

Lemma freq_pos (v : val) (s : Series) : In (Some v) s -> 0 < freq v s.
Proof.
  induction s as [|c t IH]; simpl; [tauto|].
  rewrite freq_cons. intros [->|H].
  - simpl. rewrite val_eqb_refl. lia.
  - apply IH in H. lia.
Qed.

Lemma sum_nat_app (l1 l2 : list nat) : sum_nat (l1 ++ l2) = sum_nat l1 + sum_nat l2.
Proof. induction l1; simpl; lia. Qed.

Lemma sum_nat_perm (l1 l2 : list nat) : Permutation l1 l2 -> sum_nat l1 = sum_nat l2.
Proof. induction 1; simpl; lia. Qed.

Lemma sum_nat_map_add {A} (f g : A -> nat) (l : list A) :
  sum_nat (map (fun x => f x + g x) l) = sum_nat (map f l) + sum_nat (map g l).
Proof. induction l; simpl; lia. Qed.

Lemma sum_nat_map_zero {A} (f : A -> nat) (l : list A) :
  (forall x, In x l -> f x = 0) -> sum_nat (map f l) = 0.
Proof.
  induction l as [|h t IH]; simpl; intro H; [reflexivity|].
  rewrite H, IH; auto.
Qed.

(** Exactly one key of a duplicate-free list is a given element of it. *)
Lemma sum_indicator {A} (eqb : A -> A -> bool)
    (eqb_eq : forall a b, eqb a b = true <-> a = b) (x : A) (ks : list A) :
  NoDup ks -> In x ks ->
  sum_nat (map (fun k => if eqb k x then 1 else 0) ks) = 1.
Proof.
  induction 1 as [|k t Hn Hd IH]; simpl; [tauto|].
  intros [->|H].
  - assert (E : eqb x x = true) by now apply eqb_eq. rewrite E.
    rewrite sum_nat_map_zero; [reflexivity|].
    intros y Hy. destruct (eqb y x) eqn:Eyx; [|reflexivity].
    apply eqb_eq in Eyx. subst. contradiction.
  - destruct (eqb k x) eqn:Ekx.
    + apply eqb_eq in Ekx. subst. contradiction.
    + now rewrite IH.
Qed.

(** The frequencies of a duplicate-free list of keys that covers the
    values of a column add up to the number of its non-missing cells. *)
Lemma sum_freq_cover (ks : list val) (s : Series) :
  NoDup ks -> (forall v, In (Some v) s -> In v ks) ->
  sum_nat (map (fun k => freq k s) ks) = List.length (dropna s).
Proof.
  intro Hnd. induction s as [|c t IH]; intro Hcov.
  - apply sum_nat_map_zero. reflexivity.
  - rewrite (map_ext _ (fun k => (if cell_eqb (Some k) c then 1 else 0) + freq k t))
      by (intro; apply freq_cons).
    rewrite sum_nat_map_add, IH by (intros; apply Hcov; now right).
    destruct c as [v|]; simpl.
    + rewrite (sum_indicator val_eqb val_eqb_eq); [reflexivity | assumption |].
      apply Hcov. now left.
    + rewrite sum_nat_map_zero; reflexivity.
Qed.

Lemma value_counts_perm (s : Series) :
  Permutation (value_counts s) (map (fun v => (v, freq v s)) (distinct_values s)).
Proof. apply sort_desc_perm. Qed.

Lemma value_counts_In (v : val) (n : nat) (s : Series) :
  In (v, n) (value_counts s) <-> In (Some v) s /\ n = freq v s.
Proof.
  rewrite <- distinct_values_In.
  split.
  - intro H. apply (Permutation_in _ (value_counts_perm s)) in H.
    apply in_map_iff in H as (w & E & Hw). inversion E; subst. auto.
  - intros [H ->]. apply (Permutation_in _ (Permutation_sym (value_counts_perm s))).
    apply in_map_iff. eauto.
Qed.

(** [value_counts] counts the non-missing cells, each once. *)
Lemma value_counts_total (s : Series) :
  sum_nat (map snd (value_counts s)) = List.length (dropna s).
Proof.
  rewrite (sum_nat_perm (Permutation_map snd (value_counts_perm s))).
  rewrite map_map. simpl.
  apply sum_freq_cover.
  - apply distinct_values_NoDup.
  - intros v H. now apply distinct_values_In.
Qed.

Lemma value_counts_keys_NoDup (s : Series) : NoDup (map fst (value_counts s)).
Proof.
  apply (Permutation_NoDup (l := distinct_values s)).
  - rewrite (Permutation_map fst (value_counts_perm s)), map_map. simpl.
    now rewrite map_id.
  - apply distinct_values_NoDup.
Qed.

(* ------------------------------------------------------------------ *)
(** ** Category Collapser *)

Lemma mask_assign_map (f : cell -> bool) (c : cell) (s : Series) :
  mask_assign (map f s) c s = map (fun x => if f x then c else x) s.
Proof. induction s as [|x t IH]; simpl; [reflexivity | now rewrite IH]. Qed.

Lemma rare_categories_In (v : val) (s : Series) (min_count : Z) :
  In v (rare_categories s min_count) <->
  In (Some v) s /\ (Z.of_nat (freq v s) < min_count)%Z.
Proof.
  unfold rare_categories. rewrite in_map_iff. split.
  - intros ([w n] & E & H). simpl in E. subst w.
    apply filter_In in H as [H Hlt]. apply value_counts_In in H as [H ->].
    simpl in Hlt. apply Z.ltb_lt in Hlt. auto.
  - intros [H Hlt]. exists (v, freq v s). split; [reflexivity|].
    apply filter_In. split; [now apply value_counts_In|].
    simpl. now apply Z.ltb_lt.
Qed.

Lemma group_rare_map (s : Series) (min_count : Z) (other_label : string) :
  group_rare s min_count other_label = map (collapse_cell s min_count other_label) s.
Proof.
  unfold group_rare, isin. rewrite mask_assign_map.
  apply map_ext_in. intros [v|] Hin; simpl; [|reflexivity].
  destruct (existsb (val_eqb v) (rare_categories s min_count)) eqn:E.
  - apply (existsb_eqb_In val_eqb val_eqb_eq) in E.
    apply rare_categories_In in E as [_ E]. apply Z.ltb_lt in E. now rewrite E.
  - destruct (Z.ltb (Z.of_nat (freq v s)) min_count) eqn:Elt; [|reflexivity].
    apply Z.ltb_lt in Elt.
    assert (H : In v (rare_categories s min_count)) by (apply rare_categories_In; auto).
    apply (existsb_eqb_In val_eqb val_eqb_eq) in H. congruence.
Qed.

Lemma update_app_last (h : Store.heap) (x y : Series) :
  Store.update (List.length h) y (h ++ [x]) = h ++ [y].
Proof. induction h as [|a t IH]; simpl; [reflexivity | now rewrite IH]. Qed.

Lemma nth_app_last (h : Store.heap) (x : Series) : nth (List.length h) (h ++ [x]) [] = x.
Proof. rewrite app_nth2, Nat.sub_diag by lia. reflexivity. Qed.

(** Running the function on a store: the store gains one object, the
    result, which holds the collapsed column; nothing else changes. *)
Lemma group_rare_categories_run (h : Store.heap) (series : Store.loc)
    (min_count : Z) (other_label : string) :
  Store.group_rare_categories series min_count other_label h =
  (List.length h, h ++ [group_rare (nth series h []) min_count other_label]).
Proof.
  unfold Store.group_rare_categories, Store.sbind, Store.deref, Store.copy,
    Store.loc_assign, Store.ret. simpl.
  rewrite nth_app_last, update_app_last. reflexivity.
Qed.

Lemma dropna_length (s : Series) :
  List.length (dropna s) = List.length (filter (fun c => negb (isnull c)) s).
Proof. induction s as [|[v|] t IH]; simpl; congruence. Qed.

Lemma map_isnull_collapse (s0 s : Series) (min_count : Z) (other_label : string) :
  map isnull (map (collapse_cell s0 min_count other_label) s) = map isnull s.
Proof.
  rewrite map_map. apply map_ext. intros [v|]; simpl; [|reflexivity].
  now destruct (Z.ltb (Z.of_nat (freq v s0)) min_count).
Qed.

(** C9. Whatever the threshold, the missing cells of the input are the
    missing cells of the output of [group_rare_categories] (none is
    replaced by the label, none appears), and [value_counts] does not
    count them: its counts are the frequencies of the values and add up to
    the number of non-missing cells. *)
Theorem group_rare_categories_keeps_nulls
    (h : Store.heap) (series : Store.loc) (min_count : Z) (other_label : string) :
  let s := nth series h [] in
  let run := Store.group_rare_categories series min_count other_label h in
  let out := nth (fst run) (snd run) [] in
  map isnull out = map isnull s /\
  Forall (fun e => snd e = freq (fst e) s) (value_counts s) /\
  sum_nat (map snd (value_counts s)) =
    List.length (filter (fun c => negb (isnull c)) s).
Proof.
  intros s run out. subst run out. rewrite group_rare_categories_run. simpl.
  rewrite nth_app_last, group_rare_map. fold s.
  split; [apply map_isnull_collapse|]. split.
  - apply Forall_forall. intros [v n] H. apply value_counts_In in H. simpl. tauto.
  - rewrite value_counts_total. apply dropna_length.
Qed.

(** C6, as stated, fails on a column with a missing cell: every value of
    [A, null] is rarer than 2, and the output is [Other, null], not a
    column of [Other]. *)
Lemma group_rare_categories_all_rare_counterexample :
  let s := [Some (VStr "A"); None] in
  let run := Store.group_rare_categories 0 2 "Other" [s] in
  (forall v, In (Some v) s -> (Z.of_nat (freq v s) < 2)%Z) /\
  nth (fst run) (snd run) [] = [Some (VStr "Other"); None] /\
  ~ Forall (fun c => c = Some (VStr "Other")) (nth (fst run) (snd run) []).
Proof.
  split; [|split].
  - intros v [E|[E|[]]]; inversion E. vm_compute. reflexivity.
  - reflexivity.
  - intro H. vm_compute in H. inversion H as [|? ? _ H']. inversion H' as [|? ? E _].
    discriminate.
Qed.

(** C6, amended. On a store in which [series] names a column [s],
    [group_rare_categories] returns a new object whose cells are those of
    [s] with exactly the values of frequency below [min_count] replaced by
    [other_label], the values of frequency at least [min_count] and the
    missing cells kept; the objects of the store, [series] among them, are
    unchanged; and when every value is below the threshold, every
    non-missing cell of the output is [other_label]. *)
Theorem group_rare_categories_spec
    (h : Store.heap) (series : Store.loc) (min_count : Z) (other_label : string)
    (Hseries : series < List.length h) :
  let s := nth series h [] in
  let run := Store.group_rare_categories series min_count other_label h in
  let out := nth (fst run) (snd run) [] in
  out = map (collapse_cell s min_count other_label) s /\
  fst run <> series /\
  firstn (List.length h) (snd run) = h /\
  nth series (snd run) [] = s /\
  ((forall v, In (Some v) s -> (Z.of_nat (freq v s) < min_count)%Z) ->
   out = map (fun c => if isnull c then None else Some (VStr other_label)) s).
Proof.
  intros s run out. subst run out. rewrite group_rare_categories_run. simpl.
  rewrite nth_app_last, group_rare_map. fold s.
  split; [reflexivity|]. split; [lia|]. split; [|split].
  - rewrite firstn_app, Nat.sub_diag, firstn_all. simpl. apply app_nil_r.
  - rewrite app_nth1 by assumption. reflexivity.
  - intro Hall. apply map_ext_in. intros [v|] Hin; simpl; [|reflexivity].
    apply Hall in Hin. apply Z.ltb_lt in Hin. now rewrite Hin.
Qed.

Lemma group_rare_categories_spec_witness :
  nth 1 (snd (Store.group_rare_categories 0 2 "Other"
                [[Some (VStr "A"); None; Some (VStr "B")]])) [] =
  [Some (VStr "Other"); None; Some (VStr "Other")].
Proof.
  destruct (@group_rare_categories_spec
              [[Some (VStr "A"); None; Some (VStr "B")]] 0 2 "Other")
    as (_ & _ & _ & _ & H).
  - simpl. lia.
  - apply H. intros v [E|[E|[E|[]]]]; inversion E; vm_compute; reflexivity.
Defined.

(* ------------------------------------------------------------------ *)
(** ** Masks and rows *)

Lemma filter_map_swap {A B} (f : B -> bool) (g : A -> B) (l : list A) :
  filter f (map g l) = map g (filter (fun x => f (g x)) l).
Proof.
  induction l as [|x t IH]; simpl; [reflexivity|].
  destruct (f (g x)); simpl; now rewrite IH.
Qed.

Lemma kept_cons (b : bool) (m : list bool) :
  kept (b :: m) = (if b then [0] else []) ++ map S (kept m).
Proof.
  unfold kept. simpl List.length. rewrite <- cons_seq. simpl filter.
  rewrite <- seq_shift, filter_map_swap. simpl.
  now destruct b.
Qed.

Lemma select_kept (mask : list bool) (s : Series) :
  List.length s = List.length mask ->
  select mask s = map (fun i => nth i s None) (kept mask).
Proof.
  revert s. induction mask as [|b m IH]; intros [|c t] H; simpl in H; try discriminate.
  - reflexivity.
  - rewrite kept_cons, map_app, map_map. simpl.
    rewrite <- IH by lia. now destruct b.
Qed.

Lemma map_nth_seq {A} (l : list A) (d : A) :
  map (fun j => nth j l d) (seq 0 (List.length l)) = l.
Proof.
  induction l as [|x t IH]; simpl; [reflexivity|].
  rewrite <- seq_shift, map_map. simpl. now rewrite IH.
Qed.

Lemma nrows_take_rows (mask : list bool) (df : DataFrame) :
  well_formed df -> List.length mask = nrows df -> df <> [] ->
  nrows (take_rows mask df) = List.length (kept mask).
Proof.
  intros Hwf Hlen Hne. destruct df as [|[n s] rest]; [congruence|].
  simpl. inversion Hwf as [|? ? Hs _]. simpl in Hs, Hlen.
  rewrite select_kept by lia. now rewrite length_map.
Qed.

(** The rows of a masked table are the rows of the table at the kept
    positions, in order. *)
Lemma rows_take_rows (mask : list bool) (df : DataFrame) :
  well_formed df -> List.length mask = nrows df ->
  rows (take_rows mask df) = map (row df) (kept mask).
Proof.
  intros Hwf Hlen. destruct df as [|p rest] eqn:Edf.
  - simpl in Hlen. destruct mask; [reflexivity | discriminate].
  - rewrite <- Edf in *. unfold rows.
    rewrite nrows_take_rows by (auto; congruence).
    rewrite <- (map_nth_seq (kept mask) 0) at 2. rewrite map_map.
    apply map_ext_in. intros j Hj. apply in_seq in Hj.
    unfold row, take_rows. rewrite map_map. simpl.
    apply map_ext_in. intros q Hq.
    unfold well_formed in Hwf. rewrite Forall_forall in Hwf.
    specialize (Hwf q Hq). simpl in Hwf.
    rewrite select_kept by (etransitivity; [exact Hwf | symmetry; exact Hlen]).
    rewrite (nth_indep _ None (nth 0 (snd q) None)) by (rewrite length_map; lia).
    now rewrite (map_nth (fun i => nth i (snd q) None)).
Qed.

Lemma rows_filter (Q : list cell -> bool) (df : DataFrame) :
  filter Q (rows df) =
  map (row df) (filter (fun i => Q (row df i)) (seq 0 (nrows df))).
Proof. unfold rows. apply filter_map_swap. Qed.

Lemma row_cell_row (df : DataFrame) (name : string) (s : Series) (i : nat) :
  getitem df name = Ok s -> row_cell df name (row df i) = nth i s None.
Proof.
  unfold row_cell, row. induction df as [|[n c] rest IH]; simpl; [discriminate|].
  destruct (String.eqb name n); intro H.
  - now inversion H.
  - now apply IH.
Qed.

Lemma getitem_In (df : DataFrame) (name : string) (s : Series) :
  getitem df name = Ok s -> In (name, s) df.
Proof.
  induction df as [|[n c] rest IH]; simpl; [discriminate|].
  destruct (String.eqb name n) eqn:E; intro H.
  - apply String.eqb_eq in E. inversion H. subst. now left.
  - right. now apply IH.
Qed.

Lemma has_column_getitem (df : DataFrame) (name : string) :
  has_column name df = true <-> exists s, getitem df name = Ok s.
Proof.
  unfold has_column. induction df as [|[n c] rest IH]; simpl.
  - split; [discriminate | intros [s H]; discriminate].
  - destruct (String.eqb name n); simpl; [|exact IH].
    split; [eauto | reflexivity].
Qed.

Lemma has_column_false_getitem (df : DataFrame) (name : string) :
  has_column name df = false -> getitem df name = Raise KeyError.
Proof.
  unfold has_column. induction df as [|[n c] rest IH]; simpl; [reflexivity|].
  destruct (String.eqb name n); simpl; [discriminate | exact IH].
Qed.

(* ------------------------------------------------------------------ *)
(** ** Filter Engine *)

Lemma compare_int_ok (test : Z -> bool) (s : Series) :
  Forall int_or_null s ->
  compare_int test s =
  Ok (map (fun c => match c with Some (VInt y) => test y | _ => false end) s).
Proof.
  induction 1 as [|c t Hc _ IH]; simpl; [reflexivity|].
  rewrite IH. destruct c as [[y|x|y m d]|]; simpl in *; tauto || reflexivity.
Qed.

Lemma mask_and_map {A} (f g : A -> bool) (l : list A) :
  mask_and (map f l) (map g l) = map (fun x => f x && g x) l.
Proof.
  unfold mask_and. induction l as [|x t IH]; simpl; [reflexivity | now rewrite IH].
Qed.







(* ------------------------------------------------------------------ *)
(** ** Record Merger *)



Lemma filter_nth_seq {A} (P : A -> bool) (l : list A) (d : A) :
  List.length (filter (fun j => P (nth j l d)) (seq 0 (List.length l))) =
  List.length (filter P l).
Proof.
  transitivity (List.length (filter P (map (fun j => nth j l d) (seq 0 (List.length l))))).
  - now rewrite filter_map_swap, length_map.
  - now rewrite map_nth_seq.
Qed.









Lemma key_column_length (df : DataFrame) (name : string) (s : Series) :
  well_formed df -> getitem df name = Ok s -> List.length s = nrows df.
Proof.
  intros Hwf H. unfold well_formed in Hwf. rewrite Forall_forall in Hwf.
  apply (Hwf _ (getitem_In _ _ H)).
Qed.





(* ------------------------------------------------------------------ *)
(** ** Severity cross-tabulation *)

Lemma count_pair_cons (q p : val * val) (ps : list (val * val)) :
  count_pair q (p :: ps) = (if pair_eqb q p then 1 else 0) + count_pair q ps.
Proof. unfold count_pair. cbn [filter]. now destruct (pair_eqb q p). Qed.

Lemma group_size_cons (g : val) (p : val * val) (ps : list (val * val)) :
  group_size g (p :: ps) = (if val_eqb g (fst p) then 1 else 0) + group_size g ps.
Proof. unfold group_size. cbn [filter]. now destruct (val_eqb g (fst p)). Qed.

(** Over a duplicate-free list of labels that covers the labels of a
    group, the pair counts of the group add up to its size. *)
Lemma sum_count_pair_cover (g : val) (cols : list val) (ps : list (val * val)) :
  NoDup cols ->
  (forall p, In p ps -> fst p = g -> In (snd p) cols) ->
  sum_nat (map (fun c => count_pair (g, c) ps) cols) = group_size g ps.
Proof.
  intro Hnd. induction ps as [|p t IH]; intro Hcov.
  - apply sum_nat_map_zero. reflexivity.
  - rewrite (map_ext _ (fun c => (if pair_eqb (g, c) p then 1 else 0) + count_pair (g, c) t))
      by (intro; apply count_pair_cons).
    rewrite sum_nat_map_add, IH, group_size_cons
      by (intros q Hq; apply Hcov; now right).
    f_equal. unfold pair_eqb. simpl.
    destruct (val_eqb g (fst p)) eqn:E; simpl.
    + apply val_eqb_eq in E.
      apply (sum_indicator val_eqb val_eqb_eq); [assumption|].
      apply Hcov; [now left | auto].
    + apply sum_nat_map_zero. reflexivity.
Qed.

Lemma count_pair_zero (g c : val) (ps : list (val * val)) :
  ~ In (g, c) ps -> count_pair (g, c) ps = 0.
Proof.
  intro H. unfold count_pair.
  induction ps as [|p t IH]; simpl; [reflexivity|].
  destruct (pair_eqb (g, c) p) eqn:E.
  - apply pair_eqb_eq in E. subst. exfalso. apply H. now left.
  - apply IH. intro Hin. apply H. now right.
Qed.

Lemma group_size_pos (g : val) (ps : list (val * val)) :
  In g (map fst ps) -> 0 < group_size g ps.
Proof.
  induction ps as [|p t IH]; simpl; [tauto|].
  rewrite group_size_cons. intros [E|H].
  - subst g. rewrite val_eqb_refl. lia.
  - apply IH in H. lia.
Qed.

Lemma position_nth {T} (v : val) (l : list val) (f : val -> T) (d : T) (j : nat) :
  position v l = Some j -> nth j (map f l) d = f v.
Proof.
  revert j. induction l as [|h t IH]; simpl; intro j; [discriminate|].
  destruct (val_eqb v h) eqn:E.
  - intro H. inversion H. apply val_eqb_eq in E. now subst.
  - destruct (position v t) as [k|]; simpl; [|discriminate].
    intro H. inversion H. now apply IH.
Qed.

Lemma position_None (v : val) (l : list val) : position v l = None -> ~ In v l.
Proof.
  induction l as [|h t IH]; simpl; [tauto|].
  destruct (val_eqb v h) eqn:E; [discriminate|].
  destruct (position v t); simpl; [discriminate|].
  intros _ [H|H]; [|now apply IH].
  subst. rewrite val_eqb_refl in E. discriminate.
Qed.

Lemma Forall2_map_self {X Y} (R : X -> Y -> Prop) (f : X -> Y) (l : list X) :
  (forall x, In x l -> R x (f x)) -> Forall2 R l (map f l).
Proof.
  induction l as [|x t IH]; simpl; intro H; constructor; auto.
Qed.

Lemma Qofnat_add (a b : nat) : (Qofnat (a + b) == Qofnat a + Qofnat b)%Q.
Proof. unfold Qofnat. now rewrite Nat2Z.inj_add, inject_Z_plus. Qed.

Lemma Qofnat_pos (n : nat) : 0 < n -> ~ (Qofnat n == 0)%Q.
Proof.
  intros H E. unfold Qofnat in E.
  assert (Hq : (0 < inject_Z (Z.of_nat n))%Q).
  { change 0%Q with (inject_Z 0). rewrite <- Zlt_Qlt. lia. }
  rewrite E in Hq. now apply Qlt_irrefl in Hq.
Qed.

(** The percentage cell of the group [g] under the label [l], as the
    pipeline crosstab / normalize / reindex / scale builds it. *)
Lemma severity_cell (ps : list (val * val)) (cols : list val) (g l : val) :
  NoDup cols -> (forall p, In p ps -> In (snd p) cols) ->
  let row := map (fun c => count_pair (g, c) ps) cols in
  ((match position l cols with
    | Some j => nth j (map (fun n => Qofnat n / Qofnat (sum_nat row)) row) 0
    | None => 0
    end) * 100 == severity_share ps g l)%Q.
Proof.
  intros Hnd Hcov row. unfold severity_share.
  assert (Hsum : sum_nat row = group_size g ps).
  { apply sum_count_pair_cover; auto. }
  destruct (position l cols) as [j|] eqn:E.
  - unfold row. rewrite map_map.
    rewrite (position_nth _ _ (fun c => (Qofnat (count_pair (g, c) ps) /
               Qofnat (sum_nat (map (fun c0 => count_pair (g, c0) ps) cols)))%Q) _ E).
    fold row. rewrite Hsum. reflexivity.
  - apply position_None in E.
    rewrite count_pair_zero.
    + unfold Qofnat, Qdiv. simpl. ring.
    + intro H. apply E. apply (Hcov _ H).
Qed.

Lemma valid_pairs_snd_cover (ps : list (val * val)) (p : val * val) :
  In p ps -> In (snd p) (group_keys (map snd ps)).
Proof. intro H. apply group_keys_In. now apply in_map. Qed.

Lemma severity_order_NoDup : NoDup severity_order.
Proof.
  unfold severity_order. repeat constructor; simpl; intuition discriminate.
Qed.

(** The three percentages of a group add up to 100 when every severity of
    the group is one of the three labels. *)
Lemma severity_share_sum (ps : list (val * val)) (g : val) :
  In g (map fst ps) ->
  (forall s, In (g, s) ps -> In s severity_order) ->
  (Qsum (map (severity_share ps g) severity_order) == 100)%Q.
Proof.
  intros Hg Hrec.
  assert (Hn : sum_nat (map (fun c => count_pair (g, c) ps) severity_order)
               = group_size g ps).
  { apply sum_count_pair_cover; [apply severity_order_NoDup|].
    intros [a s] Hp E. simpl in E. subst a. simpl. now apply Hrec. }
  pose proof (Qofnat_pos (group_size_pos g ps Hg)) as Hpos.
  unfold severity_order in *. simpl in Hn. simpl. unfold severity_share.
  rewrite <- Hn in *. rewrite !Qofnat_add in *.
  change (Qofnat 0) with 0%Q in *. field.
  intro E. apply Hpos. now rewrite Qplus_0_r.
Qed.

Lemma Qsum_compat (l1 l2 : list Q) : Forall2 Qeq l1 l2 -> (Qsum l1 == Qsum l2)%Q.
Proof. induction 1 as [|x y t u E _ IH]; simpl; [reflexivity | now rewrite E, IH]. Qed.

(** C4, as stated, fails when a severity outside the three labels occurs:
    its share stays in the denominator and its column is dropped.  For a
    group with one [Slight] row and one row whose severity is the text
    [Nan] the three columns hold 50, 0, 0. *)
Lemma prepare_severity_analysis_row_sum_counterexample :
  let df := [("road_type"%string, [Some (VStr "A"); Some (VStr "A")]);
             ("severity"%string, [Some (VStr "Slight"); Some (VStr "Nan")])] in
  exists t row,
    prepare_severity_analysis df "road_type" = Ok t /\
    ct_index t = [VStr "A"] /\
    ct_data t = [row] /\
    (Qsum row == 50)%Q /\ ~ (Qsum row == 100)%Q.
Proof.
  eexists. eexists. split; [reflexivity|]. split; [reflexivity|].
  split; [reflexivity|]. split; [reflexivity | discriminate].
Qed.

(** C4, amended. On a table with the grouping column and a severity
    column, [prepare_severity_analysis] returns a table whose columns are
    exactly Slight, Serious, Fatal in that order; its rows are the grouping
    values that have a row with a severity; the cell of a group under a
    label is the percentage of the group's rows (with a severity) that
    carry the label, hence 0 for a combination that does not occur; and
    the three cells of a group add up to 100 when every severity of the
    group is one of the three labels. *)
Theorem prepare_severity_analysis_table
    (df : DataFrame) (by_column : string) (by_col sev : Series) :
  getitem df by_column = Ok by_col ->
  getitem df "severity" = Ok sev ->
  let ps := valid_pairs by_col sev in
  exists t,
    prepare_severity_analysis df by_column = Ok t /\
    ct_columns t = [VStr "Slight"; VStr "Serious"; VStr "Fatal"] /\
    ct_index t = group_keys (map fst ps) /\
    Forall2 (fun g row =>
               Forall2 Qeq row (map (severity_share ps g) severity_order) /\
               ((forall s, In (g, s) ps -> In s severity_order) ->
                (Qsum row == 100)%Q))
            (ct_index t) (ct_data t).
Proof.
  intros Hby Hsev ps.
  unfold prepare_severity_analysis.
  assert (H1 : has_column "severity" df = true) by (apply has_column_getitem; eauto).
  assert (H2 : has_column by_column df = true) by (apply has_column_getitem; eauto).
  rewrite H1, H2, Hby, Hsev. cbn [andb bind].
  eexists. split; [reflexivity|]. split; [reflexivity|]. split; [reflexivity|].
  cbn [scale reindex_columns normalize_index crosstab ct_index ct_columns ct_data].
  fold ps. rewrite !map_map.
  apply Forall2_map_self. intros g Hg.
  assert (Hcells : Forall2 Qeq
            (map (fun x => (x * 100)%Q)
               (map (fun c =>
                       match position c (group_keys (map snd ps)) with
                       | Some j =>
                           nth j
                             (map (fun n =>
                                     (Qofnat n /
                                      Qofnat (sum_nat
                                        (map (fun c0 => count_pair (g, c0) ps)
                                           (group_keys (map snd ps)))))%Q)
                                (map (fun c0 => count_pair (g, c0) ps)
                                   (group_keys (map snd ps)))) 0%Q
                       | None => 0%Q
                       end) severity_order))
            (map (severity_share ps g) severity_order)).
  { unfold severity_order. cbn [map].
    repeat constructor;
      apply (@severity_cell ps (group_keys (map snd ps)) g);
      (apply group_keys_NoDup || (intros p Hp; now apply valid_pairs_snd_cover)). }
  split; [exact Hcells|].
  intro Hrec. rewrite (Qsum_compat Hcells).
  apply severity_share_sum; [|assumption].
  apply (proj1 (group_keys_In g (map fst ps))). exact Hg.
Qed.

Lemma Forall2_guarded_Forall {X Y} (A : X -> Y -> Prop) (C : X -> Prop) (S : Y -> Prop)
    (xs : list X) (ys : list Y) :
  Forall2 (fun x y => A x y /\ (C x -> S y)) xs ys ->
  (forall x, In x xs -> C x) -> Forall S ys.
Proof.
  induction 1 as [|x y xs ys [_ H] _ IH]; intro HC; constructor.
  - apply H, HC. now left.
  - apply IH. intros z Hz. apply HC. now right.
Qed.

Lemma prepare_severity_analysis_table_witness :
  exists t,
    prepare_severity_analysis
      [("gender"%string, repeat (Some (VStr "Male")) 6);
       ("severity"%string,
        [Some (VStr "Slight"); Some (VStr "Slight"); Some (VStr "Serious");
         Some (VStr "Fatal"); Some (VStr "Fatal"); Some (VStr "Fatal")])]
      "gender" = Ok t /\
    ct_columns t = [VStr "Slight"; VStr "Serious"; VStr "Fatal"] /\
    Forall (fun row => (Qsum row == 100)%Q) (ct_data t).
Proof.
  destruct (@prepare_severity_analysis_table
              [("gender"%string, repeat (Some (VStr "Male")) 6);
               ("severity"%string,
                [Some (VStr "Slight"); Some (VStr "Slight"); Some (VStr "Serious");
                 Some (VStr "Fatal"); Some (VStr "Fatal"); Some (VStr "Fatal")])]
              "gender" (repeat (Some (VStr "Male")) 6)
              [Some (VStr "Slight"); Some (VStr "Slight"); Some (VStr "Serious");
               Some (VStr "Fatal"); Some (VStr "Fatal"); Some (VStr "Fatal")]
              eq_refl eq_refl) as (t & Ht & Hc & Hi & Hrows).
  exists t. split; [exact Ht|]. split; [exact Hc|].
  apply (Forall2_guarded_Forall _ _ _ Hrows).
  rewrite Hi. simpl. intros x [<-|[]] s H.
  simpl in H. unfold severity_order. simpl.
  repeat (destruct H as [H|H]; [inversion H; tauto|]). contradiction.
Defined.

(* ------------------------------------------------------------------ *)
(** ** Rate table *)








(* ------------------------------------------------------------------ *)
(** ** Rolling trend *)

Lemma rolling_mean_length (window : nat) (center : bool) (l : list Z) :
  List.length (rolling_mean window center l) = List.length l.
Proof. unfold rolling_mean. now rewrite length_map, length_seq. Qed.

(** The entry of the centered 3-window at a position inside the series. *)
Lemma rolling_mean_nth (l : list Z) (i : nat) :
  i < List.length l ->
  nth i (rolling_mean 3 true l) None =
  if (3 <=? i + 1 + 1) && (i + 1 <? List.length l) then
    Some (inject_Z (Zsum (firstn 3 (skipn (i + 1 + 1 - 3) l))) / Qofnat 3)%Q
  else None.
Proof.
  intro Hi. unfold rolling_mean.
  change ((3 - 1) / 2) with 1.
  set (F := fun i0 : nat =>
              if (3 <=? i0 + 1 + 1) && (i0 + 1 <? List.length l)
              then Some (inject_Z (Zsum (firstn 3 (skipn (i0 + 1 + 1 - 3) l))) / Qofnat 3)%Q
              else None).
  rewrite (nth_indep _ None (F 0)) by now rewrite length_map, length_seq.
  rewrite (map_nth F), seq_nth by assumption. reflexivity.
Qed.

Lemma skipn_nth_error {A} (l : list A) (i : nat) (a : A) :
  nth_error l i = Some a -> skipn i l = a :: skipn (S i) l.
Proof.
  revert l. induction i as [|i IH]; intros [|x t]; simpl; try discriminate.
  - intro H. now inversion H.
  - intro H. now apply IH.
Qed.

Lemma nth_error_lt {A} (l : list A) (i : nat) (a : A) :
  nth_error l i = Some a -> i < List.length l.
Proof. intro H. apply nth_error_Some. congruence. Qed.

Lemma rolling_mean_first (l : list Z) : nth 0 (rolling_mean 3 true l) None = None.
Proof.
  destruct l as [|x t]; [reflexivity|].
  rewrite rolling_mean_nth by (simpl; lia). reflexivity.
Qed.

Lemma rolling_mean_last (l : list Z) :
  nth (List.length l - 1) (rolling_mean 3 true l) None = None.
Proof.
  destruct l as [|x t]; [reflexivity|].
  rewrite rolling_mean_nth by (simpl; lia).
  replace (List.length (x :: t) - 1 + 1 <? List.length (x :: t)) with false.
  - now rewrite andb_false_r.
  - symmetry. apply Nat.ltb_ge. simpl. lia.
Qed.

Lemma rolling_mean_middle (l : list Z) (i : nat) (a b c : Z) :
  nth_error l i = Some a -> nth_error l (S i) = Some b ->
  nth_error l (S (S i)) = Some c ->
  nth_error (rolling_mean 3 true l) (S i) = Some (Some (inject_Z (a + b + c) / 3)%Q).
Proof.
  intros Ha Hb Hc.
  pose proof (nth_error_lt _ _ Hc) as Hlen.
  rewrite (nth_error_nth' _ None) by (rewrite rolling_mean_length; lia).
  rewrite rolling_mean_nth by lia.
  replace (3 <=? S i + 1 + 1) with true by (symmetry; apply Nat.leb_le; lia).
  replace (S i + 1 <? List.length l) with true by (symmetry; apply Nat.ltb_lt; lia).
  replace (S i + 1 + 1 - 3) with i by lia.
  rewrite (skipn_nth_error _ _ Ha), (skipn_nth_error _ _ Hb), (skipn_nth_error _ _ Hc).
  cbn [andb firstn Zsum fold_right].
  now rewrite Z.add_0_r, Z.add_assoc.
Qed.

Lemma getitem_setitem_same (df : DataFrame) (name : string) (s : Series) :
  getitem (setitem df name s) name = Ok s.
Proof.
  induction df as [|[n c] rest IH]; simpl.
  - now rewrite String.eqb_refl.
  - destruct (String.eqb name n) eqn:E; simpl; rewrite E; [reflexivity | exact IH].
Qed.

Lemma extract_hour_has_hour (hours_strict hours_any : Series -> option Series)
    (df : DataFrame) :
  exists h, getitem (extract_hour_from_time hours_strict hours_any df) "hour" = Ok h.
Proof.
  unfold extract_hour_from_time.
  destruct (has_column "time" df); [|eexists; apply getitem_setitem_same].
  destruct (getitem df "time") as [t|e]; [|eexists; apply getitem_setitem_same].
  destruct (hours_strict t); [eexists; apply getitem_setitem_same|].
  destruct (hours_any t); eexists; apply getitem_setitem_same.
Qed.

(** The weekday block names the two rows of its table: it returns only
    when the rows with a severity include both week days and weekend
    days, and raises on a table of week days. *)
Example weekend_vs_weekday_one_class :
  weekend_vs_weekday
    [("day_of_week"%string, [Some (VStr "Monday"); Some (VStr "Tuesday")]);
     ("severity"%string, [Some (VStr "Slight"); Some (VStr "Fatal")])]
  = Raise ValueError.
Proof. reflexivity. Qed.

(** C7. On a table whose [date] column holds dates, when the weekday
    block of [prepare_temporal_analysis] does not raise (there is no
    [day_of_week] column, or that block returns), the function returns
    and its monthly trend holds one entry per month that occurs, with the
    month's row count and the centered 3-month rolling mean of the counts:
    the rolling column is as long as the count column, its first and last
    entries are missing, and the entry at the middle of any three
    consecutive counts is their arithmetic mean. *)
Theorem prepare_temporal_analysis_rolling_trend
    (hours_strict hours_any : Series -> option Series)
    (df : DataFrame) (col : Series) (dates : list (option (Z * Z * Z))) :
  getitem df "date" = Ok col ->
  dt col = Ok dates ->
  (has_column "day_of_week" df = false \/ exists w, weekend_vs_weekday df = Ok w) ->
  exists r m,
    prepare_temporal_analysis hours_strict hours_any df = Ok r /\
    monthly_trends_data r = Some m /\
    month m = map fst (group_sizes (map to_period_M dates)) /\
    count m = map (fun e => Z.of_nat (snd e)) (group_sizes (map to_period_M dates)) /\
    List.length (rolling_avg m) = List.length (count m) /\
    nth 0 (rolling_avg m) None = None /\
    nth (List.length (count m) - 1) (rolling_avg m) None = None /\
    (forall i a b c,
        nth_error (count m) i = Some a ->
        nth_error (count m) (S i) = Some b ->
        nth_error (count m) (S (S i)) = Some c ->
        nth_error (rolling_avg m) (S i) = Some (Some (inject_Z (a + b + c) / 3)%Q)).
Proof.
  intros Hdate Hdt Hweek.
  unfold prepare_temporal_analysis.
  destruct (extract_hour_has_hour hours_strict hours_any df) as [h Hh].
  assert (Hhour : has_column "hour" (extract_hour_from_time hours_strict hours_any df) = true)
    by (apply has_column_getitem; eauto).
  assert (Hd : has_column "date" df = true) by (apply has_column_getitem; eauto).
  rewrite Hhour, Hd. unfold groupby_size at 1. rewrite Hh. cbn [bind].
  assert (Hw : exists w,
             (if has_column "day_of_week" df
              then w0 <- weekend_vs_weekday df ;; Ok (Some w0)
              else Ok None) = Ok w).
  { destruct Hweek as [E|[w E]].
    - rewrite E. eauto.
    - rewrite E. destruct (has_column "day_of_week" df); cbn [bind]; eauto. }
  destruct Hw as [w Hw]. rewrite Hw. cbn [bind].
  unfold monthly_trends. rewrite Hdate. cbn [bind]. rewrite Hdt. cbn [bind].
  eexists. eexists. split; [reflexivity|]. split; [reflexivity|].
  cbn [month count rolling_avg].
  split; [reflexivity|]. split; [reflexivity|].
  split; [apply rolling_mean_length|].
  split; [apply rolling_mean_first|].
  split; [apply rolling_mean_last|].
  intros i a b c. apply rolling_mean_middle.
Qed.

Lemma prepare_temporal_analysis_rolling_trend_witness :
  exists r m,
    prepare_temporal_analysis (fun _ => None) (fun _ => None)
      [("date"%string,
        [Some (VDate 2020 1 5); Some (VDate 2020 2 9); Some (VDate 2020 1 20);
         Some (VDate 2020 3 1); None; Some (VDate 2020 4 2); Some (VDate 2020 4 3);
         Some (VDate 2020 4 30)]);
       ("day_of_week"%string,
        [Some (VStr "Sunday"); Some (VStr "Sunday"); Some (VStr "Monday");
         Some (VStr "Sunday"); None; Some (VStr "Thursday"); Some (VStr "Friday");
         Some (VStr "Thursday")]);
       ("severity"%string,
        [Some (VStr "Slight"); Some (VStr "Serious"); Some (VStr "Slight");
         Some (VStr "Fatal"); Some (VStr "Slight"); Some (VStr "Slight");
         Some (VStr "Slight"); Some (VStr "Slight")])] = Ok r /\
    monthly_trends_data r = Some m /\
    count m = [2; 1; 1; 3]%Z /\
    nth_error (rolling_avg m) 1 = Some (Some (inject_Z (2 + 1 + 1) / 3)%Q).
Proof.
  destruct (@prepare_temporal_analysis_rolling_trend
              (fun _ => None) (fun _ => None)
              [("date"%string,
                [Some (VDate 2020 1 5); Some (VDate 2020 2 9); Some (VDate 2020 1 20);
                 Some (VDate 2020 3 1); None; Some (VDate 2020 4 2); Some (VDate 2020 4 3);
                 Some (VDate 2020 4 30)]);
               ("day_of_week"%string,
                [Some (VStr "Sunday"); Some (VStr "Sunday"); Some (VStr "Monday");
                 Some (VStr "Sunday"); None; Some (VStr "Thursday"); Some (VStr "Friday");
                 Some (VStr "Thursday")]);
               ("severity"%string,
                [Some (VStr "Slight"); Some (VStr "Serious"); Some (VStr "Slight");
                 Some (VStr "Fatal"); Some (VStr "Slight"); Some (VStr "Slight");
                 Some (VStr "Slight"); Some (VStr "Slight")])]
              [Some (VDate 2020 1 5); Some (VDate 2020 2 9); Some (VDate 2020 1 20);
               Some (VDate 2020 3 1); None; Some (VDate 2020 4 2); Some (VDate 2020 4 3);
               Some (VDate 2020 4 30)]
              [Some (2020, 1, 5); Some (2020, 2, 9); Some (2020, 1, 20);
               Some (2020, 3, 1); None; Some (2020, 4, 2); Some (2020, 4, 3);
               Some (2020, 4, 30)]%Z)
    as (r & m & Hr & Hm & _ & Hc & _ & _ & _ & Hmid).
  - reflexivity.
  - reflexivity.
  - right. eexists. reflexivity.
  - exists r, m. split; [exact Hr|]. split; [exact Hm|].
    assert (Hc' : count m = [2; 1; 1; 3]%Z) by (rewrite Hc; reflexivity).
    split; [exact Hc'|].
    apply Hmid; rewrite Hc'; reflexivity.
Defined.

(* ------------------------------------------------------------------ *)
(** ** Feature Deriver *)

Lemma getitem_setitem (df : DataFrame) (n name : string) (s : Series) :
  getitem (setitem df n s) name =
  if String.eqb name n then Ok s else getitem df name.
Proof.
  induction df as [|[m c] rest IH]; simpl.
  - destruct (String.eqb name n); reflexivity.
  - destruct (String.eqb n m) eqn:E; simpl.
    + apply String.eqb_eq in E. subst m.
      destruct (String.eqb name n); reflexivity.
    + destruct (String.eqb name m) eqn:E'; [|exact IH].
      apply String.eqb_eq in E'. subst m.
      rewrite String.eqb_sym, E. reflexivity.
Qed.

Lemma setitem_labels (df : DataFrame) (n : string) (s : Series) :
  map fst (setitem df n s) =
  if has_column n df then map fst df else map fst df ++ [n].
Proof.
  unfold has_column. induction df as [|[m c] rest IH]; simpl; [reflexivity|].
  destruct (String.eqb n m) eqn:E; simpl.
  - reflexivity.
  - rewrite IH. now destruct (existsb (fun p => String.eqb n (fst p)) rest).
Qed.

Lemma has_column_In (df : DataFrame) (n : string) :
  has_column n df = true <-> In n (map fst df).
Proof.
  unfold has_column. rewrite existsb_exists, in_map_iff. split.
  - intros (p & Hp & E). apply String.eqb_eq in E. eauto.
  - intros (p & E & Hp). exists p. split; [assumption|].
    apply String.eqb_eq. congruence.
Qed.

Lemma setitem_NoDup (df : DataFrame) (n : string) (s : Series) :
  NoDup (map fst df) -> NoDup (map fst (setitem df n s)).
Proof.
  intro H. rewrite setitem_labels.
  destruct (has_column n df) eqn:E; [assumption|].
  apply NoDup_app; [assumption | repeat constructor; simpl; tauto |].
  intros x Hx [<-|[]]. apply has_column_In in Hx. congruence.
Qed.

Lemma label_count_NoDup (df : DataFrame) (name : string) :
  NoDup (map fst df) -> label_count name df <= 1.
Proof.
  unfold label_count. induction df as [|[m c] rest IH]; simpl; intro H; [lia|].
  inversion H as [|? ? Hn Hd]. subst.
  destruct (String.eqb name m) eqn:E; [|now apply IH].
  apply String.eqb_eq in E. subst m. simpl.
  assert (Hz : filter (fun p => String.eqb name (fst p)) rest = []).
  { clear IH Hd H. induction rest as [|[k d] t IHt]; simpl; [reflexivity|].
    destruct (String.eqb name k) eqn:E.
    - apply String.eqb_eq in E. subst. exfalso. apply Hn. now left.
    - apply IHt. intro Hin. apply Hn. now right. }
  rewrite Hz. simpl. lia.
Qed.

Lemma getcol_NoDup (dup : exn) (df : DataFrame) (name : string) :
  NoDup (map fst df) -> getcol dup df name = getitem df name.
Proof.
  intro H. unfold getcol. apply (label_count_NoDup df name) in H.
  replace (1 <? label_count name df) with false; [reflexivity|].
  symmetry. apply Nat.ltb_ge. assumption.
Qed.

Lemma dt_date_cell (l : list (option (Z * Z * Z))) : dt (map date_cell l) = Ok l.
Proof.
  induction l as [|[[[y m] d]|] t IH]; simpl; [reflexivity| |]; now rewrite IH.
Qed.

Section PreprocessFacts.

Variable repr : val -> string.

Lemma clean_string_cols_ok (cols : list string) (df : DataFrame) :
  NoDup cols -> NoDup (map fst df) ->
  exists df',
    clean_string_cols repr cols df = Ok df' /\
    map fst df' = map fst df /\
    forall name,
      getitem df' name =
      match getitem df name with
      | Ok s => Ok (if existsb (String.eqb name) cols
                    then map (clean_text repr) s else s)
      | Raise e => Raise e
      end.
Proof.
  intro Hc. revert df. induction Hc as [|col rest Hn Hd IH]; intros df Hdf.
  - exists df. split; [reflexivity|]. split; [reflexivity|].
    intro name. simpl. now destruct (getitem df name).
  - cbn [clean_string_cols]. destruct (has_column col df) eqn:Ecol.
    + rewrite getcol_NoDup by assumption.
      destruct (proj1 (has_column_getitem df col) Ecol) as [s Hs]. rewrite Hs. cbn [bind].
      destruct (IH (setitem df col (map (clean_text repr) s)))
        as (df' & Hrun & Hlab & Hget); [now apply setitem_NoDup|].
      exists df'. split; [exact Hrun|]. split.
      * rewrite Hlab, setitem_labels, Ecol. reflexivity.
      * intro name. rewrite Hget, getitem_setitem. cbn [existsb].
        destruct (String.eqb name col) eqn:E.
        -- apply String.eqb_eq in E. subst name. rewrite Hs.
           replace (existsb (String.eqb col) rest) with false; [reflexivity|].
           symmetry. apply not_true_is_false. intro H.
           apply existsb_exists in H as (x & Hx & E). apply String.eqb_eq in E.
           subst. contradiction.
        -- reflexivity.
    + destruct (IH df Hdf) as (df' & Hrun & Hlab & Hget).
      exists df'. split; [exact Hrun|]. split; [exact Hlab|].
      intro name. rewrite Hget. cbn [existsb].
      destruct (String.eqb name col) eqn:E; [|reflexivity].
      apply String.eqb_eq in E. subst name.
      now rewrite (has_column_false_getitem df col Ecol).
Qed.

End PreprocessFacts.

Lemma string_cols_NoDup : NoDup string_cols.
Proof.
  unfold string_cols. repeat constructor; simpl; intuition discriminate.
Qed.

Ltac eval_eqb :=
  repeat match goal with
  | |- context [String.eqb ?a ?b] =>
      let v := eval vm_compute in (String.eqb a b) in
      match v with true => idtac | false => idtac end;
      change (String.eqb a b) with v
  end.




(* ------------------------------------------------------------------ *)
(** ** Missing columns in the Aggregation Library *)

(** The functions that test for their columns return the empty result
    when one is missing. *)
Lemma prepare_severity_analysis_missing (df : DataFrame) (by_column : string) :
  has_column "severity" df && has_column by_column df = false ->
  prepare_severity_analysis df by_column = Ok empty_frame.
Proof. intro H. unfold prepare_severity_analysis. now rewrite H. Qed.

Lemma calculate_accident_rates_missing (df : DataFrame) (by_column : string) :
  has_column by_column df = false ->
  calculate_accident_rates df by_column = Ok empty_rates.
Proof. intro H. unfold calculate_accident_rates. now rewrite H. Qed.

Lemma create_sankey_data_missing (df : DataFrame) :
  forallb (fun col => has_column col df)
    ["road_type"; "weather_conditions"; "severity"]%string = false ->
  create_sankey_data df = Ok None.
Proof. intro H. unfold create_sankey_data. now rewrite H. Qed.

(** The ones that do not test raise [KeyError]. *)
Lemma groupby_size_missing (df : DataFrame) (key : string) :
  has_column key df = false -> groupby_size df key = Raise KeyError.
Proof.
  intro H. unfold groupby_size. now rewrite (has_column_false_getitem df key H).
Qed.

Lemma prepare_stacked_bar_data_missing (df : DataFrame) (x_column color_column : string) :
  has_column x_column df = false ->
  prepare_stacked_bar_data df x_column color_column = Raise KeyError.
Proof.
  intro H. unfold prepare_stacked_bar_data.
  now rewrite (has_column_false_getitem df x_column H).
Qed.

(** C2. On a table that has a [severity] column and nothing else,
    [prepare_time_series_data] (for each of its frequencies) and
    [prepare_stacked_bar_data] raise [KeyError], and so does
    [prepare_temporal_analysis] on a table with a [day_of_week] column
    and no [severity] column; the sibling functions
    [prepare_severity_analysis], [calculate_accident_rates] and
    [create_sankey_data] return their empty result on the same table. *)
Theorem aggregation_missing_column_behaviour :
  let df := [("severity"%string, [Some (VStr "Slight")])] in
  prepare_time_series_data df "year" = Raise KeyError /\
  prepare_time_series_data df "month" = Raise KeyError /\
  prepare_time_series_data df "day_of_week" = Raise KeyError /\
  prepare_time_series_data df "road_type" = Raise KeyError /\
  prepare_stacked_bar_data df "road_type" "severity" = Raise KeyError /\
  prepare_temporal_analysis (fun _ => None) (fun _ => None)
    [("day_of_week"%string, [Some (VStr "Monday")])] = Raise KeyError /\
  prepare_severity_analysis df "road_type" = Ok empty_frame /\
  calculate_accident_rates df "road_type" = Ok empty_rates /\
  create_sankey_data df = Ok None.
Proof. repeat split; reflexivity. Qed.

(* ------------------------------------------------------------------ *)
(** ** Flow graph *)

Lemma list_index_In (x : cell) (l : list cell) :
  In x l -> list_index x l = Ok (first_index x l).
Proof.
  induction l as [|h t IH]; simpl; [tauto|].
  destruct (cell_eqb x h) eqn:E; [reflexivity|].
  intros [H|H].
  - subst. assert (cell_eqb x x = true) by now apply cell_eqb_eq. congruence.
  - now rewrite IH.
Qed.

Lemma first_index_app_l (x : cell) (l1 l2 : list cell) :
  In x l1 -> first_index x (l1 ++ l2) = first_index x l1.
Proof.
  induction l1 as [|h t IH]; simpl; [tauto|].
  destruct (cell_eqb x h) eqn:E; [reflexivity|].
  intros [H|H].
  - subst. assert (cell_eqb x x = true) by now apply cell_eqb_eq. congruence.
  - now rewrite IH.
Qed.

Lemma first_index_app_r (x : cell) (l1 l2 : list cell) :
  ~ In x l1 -> first_index x (l1 ++ l2) = List.length l1 + first_index x l2.
Proof.
  induction l1 as [|h t IH]; simpl; intro H; [reflexivity|].
  destruct (cell_eqb x h) eqn:E.
  - apply cell_eqb_eq in E. subst. tauto.
  - rewrite IH; tauto.
Qed.

Lemma first_index_lt (x : cell) (l : list cell) :
  In x l -> first_index x l < List.length l.
Proof.
  induction l as [|h t IH]; simpl; [tauto|].
  destruct (cell_eqb x h) eqn:E; [lia|].
  intros [H|H].
  - subst. assert (cell_eqb x x = true) by now apply cell_eqb_eq. congruence.
  - apply IH in H. lia.
Qed.

Lemma valid_pairs_In (a b : Series) (x y : val) :
  In (x, y) (valid_pairs a b) -> In (Some x) a /\ In (Some y) b.
Proof.
  revert b. induction a as [|c a' IH]; intro b; [simpl; tauto|].
  destruct b as [|d b']; [destruct c; simpl; tauto|].
  destruct c as [v|], d as [w|]; simpl; intro H;
    try (apply IH in H; tauto).
  destruct H as [E|H]; [inversion E; subst; tauto | apply IH in H; tauto].
Qed.

Lemma group_sizes2_In (a b : Series) (x y : val) (n : nat) :
  In ((x, y), n) (group_sizes2 a b) -> In (Some x) a /\ In (Some y) b.
Proof.
  unfold group_sizes2. intro H. apply in_map_iff in H as (p & E & Hp).
  inversion E; subst.
  apply (Permutation_in _ (sort_by_perm pair_leb _)) in Hp.
  apply (proj1 (@dedup_In _ pair_eqb pair_eqb_eq (x, y) (valid_pairs a b))) in Hp.
  exact (@valid_pairs_In a b x y Hp).
Qed.

Lemma unique_In (c : cell) (s : Series) : In c (unique s) <-> In c s.
Proof. apply dedup_In. exact cell_eqb_eq. Qed.

(** One loop of [create_sankey_data] appends the kept flows, and does
    not raise when the labels of the pairs are nodes. *)
Lemma append_flows_ok (nodes : list cell) (counts : list ((val * val) * nat))
    (acc : list nat * list nat * list nat) :
  (forall a b n, In ((a, b), n) counts -> In (Some a) nodes /\ In (Some b) nodes) ->
  append_flows nodes counts acc =
  Ok (fst (fst acc) ++ map (fun f => fst (fst f)) (flows_of nodes counts),
      snd (fst acc) ++ map (fun f => snd (fst f)) (flows_of nodes counts),
      snd acc ++ map snd (flows_of nodes counts)).
Proof.
  revert acc. induction counts as [|[[a b] n] rest IH]; intros acc H.
  - unfold flows_of. simpl. rewrite !app_nil_r. now destruct acc as [[? ?] ?].
  - cbn [append_flows]. unfold flows_of. cbn [filter snd].
    destruct (100 <=? n) eqn:E.
    + destruct (H a b n (or_introl eq_refl)) as [Ha Hb].
      rewrite (list_index_In _ _ Ha), (list_index_In _ _ Hb). cbn [bind].
      rewrite IH by (intros; eapply H; right; eassumption).
      unfold flows_of. cbn [map fst snd]. now rewrite <- !app_assoc.
    + apply IH. intros. eapply H. right. eassumption.
Qed.

(** What [create_sankey_data] returns on a table that has the three
    columns: the nodes are the distinct cells of the (collapsed) road
    type, weather and severity columns, in that order and not
    deduplicated across them; the flows are those of the road-weather
    pairs followed by those of the weather-severity pairs; each has at
    least 100 records; and each end of a flow is the first position of
    its label in the whole node list. *)
Lemma create_sankey_data_flows (df : DataFrame) (road weather severity : Series) :
  getitem df "road_type" = Ok road ->
  getitem df "weather_conditions" = Ok weather ->
  getitem df "severity" = Ok severity ->
  let road_col := group_rare road 1000 "Other" in
  let weather_col := group_rare weather 1000 "Other" in
  let nodes := unique road_col ++ unique weather_col ++ unique severity in
  let flows := flows_of nodes (group_sizes2 road_col weather_col) ++
               flows_of nodes (group_sizes2 weather_col severity) in
  create_sankey_data df =
  Ok (Some (mkSankey nodes (map (fun f => fst (fst f)) flows)
              (map (fun f => snd (fst f)) flows) (map snd flows))) /\
  Forall (fun f => 100 <= snd f) flows.
Proof.
  intros Hr Hw Hs road_col weather_col nodes flows. split.
  - unfold create_sankey_data.
    assert (H1 : has_column "road_type" df = true) by (apply has_column_getitem; eauto).
    assert (H2 : has_column "weather_conditions" df = true) by (apply has_column_getitem; eauto).
    assert (H3 : has_column "severity" df = true) by (apply has_column_getitem; eauto).
    cbn [forallb]. rewrite H1, H2, H3. cbn [andb negb].
    rewrite Hr. cbn [bind]. rewrite !getitem_setitem. eval_eqb. rewrite Hw. cbn [bind].
    rewrite !getitem_setitem. eval_eqb. rewrite Hs. cbn [bind].
    fold road_col weather_col. fold nodes.
    rewrite append_flows_ok.
    + cbn [bind fst snd app]. rewrite append_flows_ok.
      * cbn [fst snd]. unfold flows. now rewrite !map_app.
      * intros a b n H. apply group_sizes2_In in H as [Ha Hb].
        unfold nodes. rewrite !in_app_iff, !unique_In. tauto.
    + intros a b n H. apply group_sizes2_In in H as [Ha Hb].
      unfold nodes. rewrite !in_app_iff, !unique_In. tauto.
  - unfold flows, flows_of. apply Forall_app. split; apply Forall_forall;
      intros f Hf; apply in_map_iff in Hf as (e & <- & He);
      apply filter_In in He as [_ He]; simpl; now apply Nat.leb_le.
Qed.

(** A weather label that is no road type is found at its own place in
    the weather stage; one that is also a road type is found in the road
    stage. *)
Lemma node_of_own_stage (road_types weather_types severities : list cell) (b : cell) :
  ~ In b road_types -> In b weather_types ->
  first_index b (road_types ++ weather_types ++ severities) =
  List.length road_types + first_index b weather_types.
Proof.
  intros Hn Hw. rewrite first_index_app_r by assumption.
  now rewrite first_index_app_l.
Qed.

Lemma node_of_shared_label (road_types weather_types severities : list cell) (b : cell) :
  In b road_types ->
  first_index b (road_types ++ weather_types ++ severities) < List.length road_types.
Proof.
  intro Hr. rewrite first_index_app_l by assumption. now apply first_index_lt.
Qed.

(** C1. On a table of 100 records with one road type, one weather and
    one severity, both staged columns are collapsed to [Other] (100 is
    below the collapsing threshold 1000); the node list holds the label
    twice, at positions 0 (road type) and 1 (weather), and severity at 2.
    Both flows pass the threshold 100, but [nodes.index] finds the first
    [Other]: the road-to-weather flow goes from node 0 to node 0 and the
    weather-to-severity flow leaves node 0, where the weather node is
    node 1. *)
Theorem create_sankey_data_shared_label :
  let df := [("road_type"%string, repeat (Some (VStr "Single carriageway")) 100);
             ("weather_conditions"%string, repeat (Some (VStr "Fine")) 100);
             ("severity"%string, repeat (Some (VStr "Slight")) 100)] in
  create_sankey_data df =
  Ok (Some (mkSankey
              [Some (VStr "Other"); Some (VStr "Other"); Some (VStr "Slight")]
              [0; 0] [0; 2] [100; 100])).
Proof. vm_compute. reflexivity. Qed.

(* ================================================================== *)
(** * Further properties *)

(* ------------------------------------------------------------------ *)
(** ** Collapsing twice *)

Lemma freq_collapse_kept (s t : Series) (min_count : Z) (other_label : string) (v : val) :
  v <> VStr other_label ->
  Z.ltb (Z.of_nat (freq v s)) min_count = false ->
  freq v (map (collapse_cell s min_count other_label) t) = freq v t.
Proof.
  intros Hv Hk. induction t as [|c t IH]; [reflexivity|].
  cbn [map]. rewrite !freq_cons, IH. f_equal.
  destruct c as [w|]; simpl; [|reflexivity].
  destruct (Z.ltb (Z.of_nat (freq w s)) min_count) eqn:Ew; simpl.
  - destruct (val_eqb v (VStr other_label)) eqn:E1.
    + apply val_eqb_eq in E1. contradiction.
    + destruct (val_eqb v w) eqn:E2; [|reflexivity].
      apply val_eqb_eq in E2. subst w. congruence.
  - reflexivity.
Qed.

Lemma group_rare_twice (s : Series) (min_count : Z) (other_label : string) :
  group_rare (group_rare s min_count other_label) min_count other_label =
  group_rare s min_count other_label.
Proof.
  rewrite (group_rare_map (group_rare s min_count other_label)).
  rewrite <- (map_id (group_rare s min_count other_label)) at 3.
  apply map_ext_in. intros c Hc.
  rewrite group_rare_map in Hc. apply in_map_iff in Hc as (c0 & <- & _).
  destruct c0 as [v|]; simpl; [|reflexivity].
  destruct (Z.ltb (Z.of_nat (freq v s)) min_count) eqn:Ev; simpl.
  - match goal with |- (if ?b then _ else _) = _ => destruct b end; reflexivity.
  - destruct (val_eqb v (VStr other_label)) eqn:E.
    + apply val_eqb_eq in E. subst v.
      match goal with |- (if ?b then _ else _) = _ => destruct b end; reflexivity.
    + apply val_eqb_neq in E.
      rewrite group_rare_map, (freq_collapse_kept s s min_count E Ev), Ev.
      reflexivity.
Qed.

(** X1. Collapsing is idempotent: running [group_rare_categories] on its
    own result, with the same threshold and label, returns an object with
    the same cells. *)
Theorem group_rare_categories_idempotent
    (h : Store.heap) (series : Store.loc) (min_count : Z) (other_label : string) :
  let run1 := Store.group_rare_categories series min_count other_label h in
  let run2 := Store.group_rare_categories (fst run1) min_count other_label (snd run1) in
  nth (fst run2) (snd run2) [] = nth (fst run1) (snd run1) [].
Proof.
  intros run1 run2. subst run2 run1.
  rewrite (group_rare_categories_run h). cbn [fst snd].
  rewrite group_rare_categories_run. cbn [fst snd].
  rewrite !nth_app_last. apply group_rare_twice.
Qed.

(* ------------------------------------------------------------------ *)
(** ** Sorted results *)

Lemma insert_desc_sorted (e : val * nat) (l : list (val * nat)) :
  StronglySorted by_count_desc l -> StronglySorted by_count_desc (insert_desc e l).
Proof.
  induction 1 as [|h t Hs IH Hh]; simpl.
  - repeat constructor.
  - destruct (Nat.leb (snd h) (snd e)) eqn:E.
    + apply Nat.leb_le in E. constructor; [now constructor|].
      constructor; [exact E|].
      apply Forall_forall. intros x Hx. rewrite Forall_forall in Hh.
      specialize (Hh x Hx). unfold by_count_desc in *. lia.
    + apply Nat.leb_gt in E. constructor; [exact IH|].
      apply Forall_forall. intros x Hx.
      apply (Permutation_in _ (insert_desc_perm e t)) in Hx.
      destruct Hx as [<-|Hx].
      * unfold by_count_desc. lia.
      * rewrite Forall_forall in Hh. now apply Hh.
Qed.

Lemma value_counts_sorted (s : Series) : StronglySorted by_count_desc (value_counts s).
Proof.
  unfold value_counts, sort_desc.
  induction (map (fun v => (v, freq v s)) (distinct_values s)) as [|h t IH]; simpl.
  - constructor.
  - now apply insert_desc_sorted.
Qed.

Lemma StronglySorted_app_rel {A} (R : A -> A -> Prop) (l1 l2 : list A) :
  StronglySorted R (l1 ++ l2) -> forall a b, In a l1 -> In b l2 -> R a b.
Proof.
  induction l1 as [|x t IH]; simpl; intros H a b Ha Hb; [contradiction|].
  inversion H as [|? ? Hs Hf]. subst. destruct Ha as [<-|Ha].
  - rewrite Forall_forall in Hf. apply Hf. apply in_or_app. now right.
  - now apply IH.
Qed.

Section SortBy.

Variable A : Type.
Variable leb : A -> A -> bool.
Hypothesis leb_total : forall a b, leb a b = true \/ leb b a = true.

Lemma insert_by_sorted (x : A) (l : list A) :
  Sorted (fun a b => leb a b = true) l ->
  Sorted (fun a b => leb a b = true) (insert_by leb x l).
Proof.
  induction 1 as [|h t Hs IH Hh]; simpl.
  - repeat constructor.
  - destruct (leb x h) eqn:E.
    + constructor; [now constructor|]. now constructor.
    + constructor; [exact IH|].
      destruct t as [|k u]; simpl.
      * constructor. destruct (leb_total x h); congruence.
      * destruct (leb x k).
        -- constructor. destruct (leb_total x h); congruence.
        -- inversion Hh. now constructor.
Qed.

Lemma sort_by_sorted (l : list A) : Sorted (fun a b => leb a b = true) (sort_by leb l).
Proof.
  induction l as [|h t IH]; simpl; [constructor|]. now apply insert_by_sorted.
Qed.

End SortBy.

Lemma val_leb_total (a b : val) : val_leb a b = true \/ val_leb b a = true.
Proof.
  destruct a as [x|s|y1 m1 d1], b as [y|t|y2 m2 d2]; simpl; auto.
  - rewrite !Z.leb_le. lia.
  - apply String.leb_total.
  - rewrite !orb_true_iff, !andb_true_iff, !orb_true_iff, !andb_true_iff,
      !Z.ltb_lt, !Z.eqb_eq, !Z.leb_le. lia.
Qed.

Lemma group_keys_sorted (l : list val) :
  Sorted (fun a b => val_leb a b = true) (group_keys l).
Proof. apply sort_by_sorted. exact val_leb_total. Qed.

(* ------------------------------------------------------------------ *)
(** ** Top categories *)

(** X2. On a table that has the column, [get_top_categories] with a
    count [top_n >= 0] returns that many distinct values of the column
    (all of them if there are fewer), none missing, and no value left out
    is more frequent than a value returned. *)
Theorem get_top_categories_most_frequent
    (df : DataFrame) (column : string) (top_n : Z) (col : Series) :
  getitem df column = Ok col ->
  (0 <= top_n)%Z ->
  exists top,
    get_top_categories df column top_n = Ok top /\
    List.length top = Nat.min (Z.to_nat top_n) (List.length (distinct_values col)) /\
    NoDup top /\
    (forall v, In v top -> In (Some v) col) /\
    (forall v w, In v top -> In (Some w) col -> ~ In w top ->
                 freq w col <= freq v col).
Proof.
  intros Hcol Hn. unfold get_top_categories.
  assert (H1 : has_column column df = true) by (apply has_column_getitem; eauto).
  rewrite H1, Hcol. cbn [bind]. unfold series_head.
  replace (Z.leb 0 top_n) with true by (symmetry; now apply Z.leb_le).
  set (n := Z.to_nat top_n). set (vc := value_counts col).
  assert (Hsplit : vc = firstn n vc ++ skipn n vc) by (symmetry; apply firstn_skipn).
  assert (Hin : forall v k, In (v, k) (firstn n vc) -> In (Some v) col /\ k = freq v col).
  { intros v k H. apply value_counts_In. fold vc. rewrite Hsplit.
    apply in_or_app. now left. }
  eexists. split; [reflexivity|]. split; [|split; [|split]].
  - rewrite length_map, length_firstn. unfold vc.
    rewrite (Permutation_length (value_counts_perm col)), length_map. reflexivity.
  - pose proof (value_counts_keys_NoDup col) as Hnd. fold vc in Hnd.
    rewrite Hsplit, map_app in Hnd. now apply NoDup_app_remove_r in Hnd.
  - intros v Hv. apply in_map_iff in Hv as ([v' k] & E & H). simpl in E. subst v'.
    now apply Hin in H.
  - intros v w Hv Hw Hnot.
    apply in_map_iff in Hv as ([v' k] & E & H). simpl in E. subst v'.
    destruct (Hin v k H) as [_ ->].
    assert (Hwvc : In (w, freq w col) vc) by (apply value_counts_In; auto).
    rewrite Hsplit in Hwvc. apply in_app_or in Hwvc as [Hw1|Hw2].
    + exfalso. apply Hnot. apply in_map_iff. exists (w, freq w col). auto.
    + pose proof (value_counts_sorted col) as Hs. fold vc in Hs. rewrite Hsplit in Hs.
      exact (StronglySorted_app_rel _ _ Hs _ _ H Hw2).
Qed.

Lemma get_top_categories_most_frequent_witness :
  exists top,
    get_top_categories
      [("road_type"%string,
        [Some (VStr "A"); Some (VStr "B"); Some (VStr "B"); None; Some (VStr "C");
         Some (VStr "C"); Some (VStr "C")])] "road_type" 2 = Ok top /\
    List.length top = 2 /\ NoDup top.
Proof.
  destruct (@get_top_categories_most_frequent
              [("road_type"%string,
                [Some (VStr "A"); Some (VStr "B"); Some (VStr "B"); None; Some (VStr "C");
                 Some (VStr "C"); Some (VStr "C")])] "road_type" 2
              [Some (VStr "A"); Some (VStr "B"); Some (VStr "B"); None; Some (VStr "C");
               Some (VStr "C"); Some (VStr "C")] eq_refl)
    as (top & Ht & Hl & Hd & _).
  - lia.
  - exists top. split; [exact Ht|]. split; [exact Hl | exact Hd].
Defined.

(* ------------------------------------------------------------------ *)
(** ** Time-series counts *)

Lemma freq_absent (v : val) (s : Series) : ~ In (Some v) s -> freq v s = 0.
Proof.
  intro H. unfold freq. induction s as [|c t IH]; [reflexivity|].
  cbn [filter]. destruct (cell_eqb (Some v) c) eqn:E.
  - apply cell_eqb_eq in E. subst. exfalso. apply H. now left.
  - apply IH. intro Hin. apply H. now right.
Qed.

Lemma lookup_count_In (v : val) (n : nat) (l : list (val * nat)) :
  NoDup (map fst l) -> In (v, n) l -> lookup_count v l = Some n.
Proof.
  induction l as [|[k m] t IH]; simpl; [tauto|].
  intros Hnd [E|H].
  - inversion E; subst. now rewrite val_eqb_refl.
  - inversion Hnd as [|? ? Hn Hd]. subst.
    destruct (val_eqb v k) eqn:E.
    + apply val_eqb_eq in E. subst k. exfalso. apply Hn.
      apply in_map_iff. exists (v, n). auto.
    + now apply IH.
Qed.

Lemma lookup_count_absent (v : val) (l : list (val * nat)) :
  ~ In v (map fst l) -> lookup_count v l = None.
Proof.
  induction l as [|[k m] t IH]; simpl; [reflexivity|].
  intro H. destruct (val_eqb v k) eqn:E.
  - apply val_eqb_eq in E. subst. tauto.
  - apply IH. tauto.
Qed.

Lemma day_count (col : Series) (d : string) :
  match lookup_count (VStr d) (value_counts col) with
  | Some n => int_cell n
  | None => int_cell 0
  end = int_cell (freq (VStr d) col).
Proof.
  destruct (existsb (cell_eqb (Some (VStr d))) col) eqn:E.
  - apply (existsb_eqb_In cell_eqb cell_eqb_eq) in E.
    assert (Hvc : In (VStr d, freq (VStr d) col) (value_counts col))
      by (apply value_counts_In; auto).
    rewrite (@lookup_count_In (VStr d) (freq (VStr d) col) (value_counts col)
               (value_counts_keys_NoDup col) Hvc).
    reflexivity.
  - assert (Hout : ~ In (Some (VStr d)) col).
    { intro H. apply (existsb_eqb_In cell_eqb cell_eqb_eq) in H. congruence. }
    rewrite lookup_count_absent, freq_absent; [reflexivity | assumption |].
    intro H. apply in_map_iff in H as ([k m] & E' & H). simpl in E'. subst k.
    apply value_counts_In in H. tauto.
Qed.

(** X3. For the frequency [day_of_week], on a table that has the column,
    [prepare_time_series_data] returns exactly seven rows, Monday to
    Sunday in that order whatever the data holds; the count of a day is
    the number of rows with that day, 0 for a day that does not occur. *)
Theorem prepare_time_series_data_weekdays (df : DataFrame) (col : Series) :
  getitem df "day_of_week" = Ok col ->
  prepare_time_series_data df "day_of_week" =
  Ok [("day_of_week"%string, map (fun d => Some (VStr d)) day_order);
      ("count"%string, map (fun d => int_cell (freq (VStr d) col)) day_order)].
Proof.
  intro Hcol. unfold prepare_time_series_data. eval_eqb. cbv iota.
  rewrite Hcol. cbn [bind]. do 4 f_equal.
  apply map_ext. intro d. apply day_count.
Qed.

Lemma prepare_time_series_data_weekdays_witness :
  prepare_time_series_data
    [("day_of_week"%string,
      [Some (VStr "Sunday"); Some (VStr "Monday"); None; Some (VStr "Sunday")])]
    "day_of_week" =
  Ok [("day_of_week"%string,
       [Some (VStr "Monday"); Some (VStr "Tuesday"); Some (VStr "Wednesday");
        Some (VStr "Thursday"); Some (VStr "Friday"); Some (VStr "Saturday");
        Some (VStr "Sunday")]);
      ("count"%string,
       [Some (VInt 1); Some (VInt 0); Some (VInt 0); Some (VInt 0); Some (VInt 0);
        Some (VInt 0); Some (VInt 2)])].
Proof.
  exact (@prepare_time_series_data_weekdays
           [("day_of_week"%string,
             [Some (VStr "Sunday"); Some (VStr "Monday"); None; Some (VStr "Sunday")])]
           [Some (VStr "Sunday"); Some (VStr "Monday"); None; Some (VStr "Sunday")]
           eq_refl).
Defined.

Lemma group_sizes_total (s : Series) :
  sum_nat (map snd (group_sizes s)) = List.length (dropna s).
Proof.
  unfold group_sizes. rewrite map_map. simpl.
  apply sum_freq_cover.
  - apply group_keys_NoDup.
  - intros v H. apply group_keys_In. now apply dropna_In.
Qed.

(** X4. For the frequency [year], on a table that has the column,
    [prepare_time_series_data] returns one row per distinct year that
    occurs, in increasing order and without repetition; each count is the
    number of rows of the year, at least 1, and the counts add up to the
    number of rows with a year (rows whose year is missing are in no
    group). *)
Theorem prepare_time_series_data_years (df : DataFrame) (col : Series) :
  getitem df "year" = Ok col ->
  exists keys,
    prepare_time_series_data df "year" =
      Ok [("year"%string, map Some keys);
          ("count"%string, map (fun k => int_cell (freq k col)) keys)] /\
    Sorted (fun a b => val_leb a b = true) keys /\
    NoDup keys /\
    (forall k, In k keys <-> In (Some k) col) /\
    Forall (fun k => 1 <= freq k col) keys /\
    sum_nat (map (fun k => freq k col) keys) =
      List.length (filter (fun c => negb (isnull c)) col).
Proof.
  intro Hcol. exists (group_keys (dropna col)).
  split; [|split; [|split; [|split; [|split]]]].
  - unfold prepare_time_series_data. eval_eqb. cbv iota.
    unfold groupby_size. rewrite Hcol. cbn [bind]. unfold group_sizes.
    now rewrite !map_map.
  - apply group_keys_sorted.
  - apply group_keys_NoDup.
  - intro k. rewrite group_keys_In. apply dropna_In.
  - apply Forall_forall. intros k Hk. apply group_keys_In, dropna_In in Hk.
    now apply freq_pos.
  - rewrite <- dropna_length. apply sum_freq_cover.
    + apply group_keys_NoDup.
    + intros v H. apply group_keys_In. now apply dropna_In.
Qed.

Lemma prepare_time_series_data_years_witness :
  exists keys,
    prepare_time_series_data
      [("year"%string, [Some (VInt 2018); Some (VInt 2016); None; Some (VInt 2018)])]
      "year" =
      Ok [("year"%string, map Some keys);
          ("count"%string,
           map (fun k => int_cell
                  (freq k [Some (VInt 2018); Some (VInt 2016); None; Some (VInt 2018)]))
               keys)] /\
    NoDup keys.
Proof.
  destruct (@prepare_time_series_data_years
              [("year"%string, [Some (VInt 2018); Some (VInt 2016); None; Some (VInt 2018)])]
              [Some (VInt 2018); Some (VInt 2016); None; Some (VInt 2018)] eq_refl)
    as (keys & H & _ & Hd & _).
  exists keys. split; [exact H | exact Hd].
Defined.

(* ------------------------------------------------------------------ *)
(** ** Severity trends *)

Lemma sum_group_size_cover (keys : list val) (ps : list (val * val)) :
  NoDup keys -> (forall p, In p ps -> In (fst p) keys) ->
  sum_nat (map (fun g => group_size g ps) keys) = List.length ps.
Proof.
  intro Hnd. induction ps as [|p t IH]; intro Hcov.
  - apply sum_nat_map_zero. reflexivity.
  - rewrite (map_ext _ (fun g => (if val_eqb g (fst p) then 1 else 0) + group_size g t))
      by (intro; apply group_size_cons).
    rewrite sum_nat_map_add, IH by (intros; apply Hcov; now right).
    rewrite (sum_indicator val_eqb val_eqb_eq); [reflexivity | assumption |].
    apply Hcov. now left.
Qed.

(** X5. On a table with [year] and [severity] columns,
    [prepare_severity_trends_data] returns one row per year and one
    column per severity that occur together with a value on some row,
    both in sorted order; the counts of a year's row add up to the number
    of that year's rows with a severity (at least 1), and all counts
    together to the number of rows that have both a year and a
    severity. *)
Theorem prepare_severity_trends_data_totals (df : DataFrame) (year sev : Series) :
  getitem df "year" = Ok year ->
  getitem df "severity" = Ok sev ->
  let ps := valid_pairs year sev in
  exists t,
    prepare_severity_trends_data df = Ok t /\
    ct_index t = group_keys (map fst ps) /\
    ct_columns t = group_keys (map snd ps) /\
    Forall2 (fun y row => row = map (fun s => count_pair (y, s) ps) (ct_columns t) /\
                          sum_nat row = group_size y ps /\ 1 <= sum_nat row)
            (ct_index t) (ct_data t) /\
    sum_nat (map sum_nat (ct_data t)) = List.length ps.
Proof.
  intros Hy Hs ps. unfold prepare_severity_trends_data.
  assert (H1 : has_column "year" df = true) by (apply has_column_getitem; eauto).
  assert (H2 : has_column "severity" df = true) by (apply has_column_getitem; eauto).
  rewrite H1, H2, Hy, Hs. cbn [andb bind]. fold ps.
  assert (Hrow : forall y, sum_nat (map (fun s => count_pair (y, s) ps)
                                      (group_keys (map snd ps))) = group_size y ps).
  { intro y. apply sum_count_pair_cover; [apply group_keys_NoDup|].
    intros p Hp _. now apply valid_pairs_snd_cover. }
  eexists. split; [reflexivity|]. cbn [ct_index ct_columns ct_data].
  split; [reflexivity|]. split; [reflexivity|]. split.
  - apply Forall2_map_self. intros y Hy'. split; [reflexivity|].
    rewrite Hrow. split; [reflexivity|].
    apply group_size_pos. apply (proj1 (group_keys_In y (map fst ps))). exact Hy'.
  - rewrite map_map. rewrite (map_ext _ (fun y => group_size y ps)) by apply Hrow.
    apply sum_group_size_cover; [apply group_keys_NoDup|].
    intros p Hp. apply group_keys_In. now apply in_map.
Qed.

Lemma prepare_severity_trends_data_totals_witness :
  exists t,
    prepare_severity_trends_data
      [("year"%string, [Some (VInt 2018); Some (VInt 2016); None; Some (VInt 2018)]);
       ("severity"%string,
        [Some (VStr "Slight"); Some (VStr "Fatal"); Some (VStr "Slight"); None])]
    = Ok t /\
    sum_nat (map sum_nat (ct_data t)) = 2.
Proof.
  destruct (@prepare_severity_trends_data_totals
              [("year"%string, [Some (VInt 2018); Some (VInt 2016); None; Some (VInt 2018)]);
               ("severity"%string,
                [Some (VStr "Slight"); Some (VStr "Fatal"); Some (VStr "Slight"); None])]
              [Some (VInt 2018); Some (VInt 2016); None; Some (VInt 2018)]
              [Some (VStr "Slight"); Some (VStr "Fatal"); Some (VStr "Slight"); None]
              eq_refl eq_refl) as (t & Ht & _ & _ & _ & Hsum).
  exists t. split; [exact Ht | exact Hsum].
Defined.

(* ------------------------------------------------------------------ *)
(** ** Key indicators *)

Lemma kept_map_length (f : cell -> bool) (s : Series) :
  f None = false -> List.length (kept (map f s)) = List.length (filter f s).
Proof.
  intro Hf. unfold kept. rewrite length_map.
  rewrite (filter_ext (fun i => nth i (map f s) false) (fun i => f (nth i s None))).
  - apply filter_nth_seq.
  - intro i. rewrite <- Hf. apply map_nth.
Qed.

Lemma count_label_freq (df : DataFrame) (sev : Series) (label : string) :
  well_formed df -> getitem df "severity" = Ok sev ->
  count_label df label = Ok (freq (VStr label) sev).
Proof.
  intros Hwf Hs. unfold count_label. rewrite Hs. cbn [bind]. f_equal.
  pose proof (@key_column_length df "severity" sev Hwf Hs) as Hlen.
  rewrite nrows_take_rows.
  - now apply kept_map_length.
  - assumption.
  - now rewrite length_map.
  - intro E. subst df. discriminate.
Qed.

Lemma label_counts_sum (sev : Series) :
  freq (VStr "Slight") sev + freq (VStr "Serious") sev + freq (VStr "Fatal") sev =
  List.length (filter is_severity_label sev).
Proof.
  unfold freq. induction sev as [|c t IH]; [reflexivity|].
  cbn [filter]. unfold is_severity_label at 1.
  destruct c as [[z|s|y m d]|]; cbn [cell_eqb val_eqb orb]; try exact IH.
  destruct (String.eqb "Slight" s) eqn:E1, (String.eqb "Serious" s) eqn:E2,
           (String.eqb "Fatal" s) eqn:E3;
    cbn [orb List.length]; try lia;
    try (apply String.eqb_eq in E1; subst s; discriminate);
    try (apply String.eqb_eq in E2; subst s; discriminate).
Qed.

(** X6. On a table with a [severity] column, [calculate_kpis] returns;
    its total is the number of rows; its fatal, serious and slight counts
    are the numbers of rows with exactly that label, so they add up to
    the number of rows whose severity is one of the three labels, never
    more than the total: a row with any other or no severity is in the
    total and in none of the three; and the year range of a table
    without rows is [N/A]. *)
Theorem calculate_kpis_severity_counts
    (series_sum : Series -> Z) (series_mean : Series -> Q) (span_text : Series -> string)
    (df : DataFrame) (sev : Series) :
  well_formed df ->
  getitem df "severity" = Ok sev ->
  exists k,
    calculate_kpis series_sum series_mean span_text df = Ok k /\
    total_accidents k = nrows df /\
    fatal_accidents k = freq (VStr "Fatal") sev /\
    serious_accidents k = freq (VStr "Serious") sev /\
    slight_accidents k = freq (VStr "Slight") sev /\
    slight_accidents k + serious_accidents k + fatal_accidents k =
      List.length (filter is_severity_label sev) /\
    slight_accidents k + serious_accidents k + fatal_accidents k <= total_accidents k /\
    (nrows df = 0 -> kpi_year_range k = "N/A"%string).
Proof.
  intros Hwf Hs. unfold calculate_kpis.
  assert (H1 : has_column "severity" df = true) by (apply has_column_getitem; eauto).
  rewrite H1, !(count_label_freq _ Hwf Hs).
  assert (Hget : forall name, has_column name df = true ->
                              exists c, getitem df name = Ok c)
    by (intros; now apply has_column_getitem).
  destruct (has_column "number_of_casualties" df) eqn:Ec;
    [destruct (Hget _ Ec) as [c Hc]; rewrite Hc|];
    (destruct (has_column "number_of_vehicles" df) eqn:Ev;
     [destruct (Hget _ Ev) as [v Hv]; rewrite Hv|]);
    (destruct (has_column "year" df) eqn:Ey;
     [destruct (Hget _ Ey) as [y Hy]; rewrite Hy|]);
    cbn [bind andb];
    (destruct (0 <? nrows df) eqn:En; cbn [bind];
     eexists; (split; [reflexivity|]); cbn [total_accidents fatal_accidents
       serious_accidents slight_accidents kpi_year_range];
     repeat (split; [reflexivity|]);
     (split; [apply label_counts_sum|]);
     (split;
      [rewrite label_counts_sum,
         <- (@key_column_length df "severity" sev Hwf Hs); apply filter_length_le
      | intro Hz; try reflexivity;
        rewrite Hz in En; discriminate])).
Qed.

Lemma calculate_kpis_severity_counts_witness :
  exists k,
    calculate_kpis (fun _ => 0%Z) (fun _ => 0%Q) (fun _ => "1979-2018"%string)
      [("severity"%string,
        [Some (VStr "Slight"); Some (VStr "Fatal"); None; Some (VStr "Nan");
         Some (VStr "Slight")])] = Ok k /\
    total_accidents k = 5 /\
    slight_accidents k + serious_accidents k + fatal_accidents k = 3.
Proof.
  destruct (@calculate_kpis_severity_counts
              (fun _ => 0%Z) (fun _ => 0%Q) (fun _ => "1979-2018"%string)
              [("severity"%string,
                [Some (VStr "Slight"); Some (VStr "Fatal"); None; Some (VStr "Nan");
                 Some (VStr "Slight")])]
              [Some (VStr "Slight"); Some (VStr "Fatal"); None; Some (VStr "Nan");
               Some (VStr "Slight")])
    as (k & Hk & Ht & _ & _ & _ & Hs & _).
  - repeat constructor.
  - reflexivity.
  - exists k. split; [exact Hk|]. split; [exact Ht | exact Hs].
Defined.

(* ------------------------------------------------------------------ *)
(** ** Filter Engine: rows kept *)

Lemma take_rows_labels (mask : list bool) (df : DataFrame) :
  map fst (take_rows mask df) = map fst df.
Proof. unfold take_rows. rewrite map_map. reflexivity. Qed.

Lemma has_column_labels (name : string) (d1 d2 : DataFrame) :
  map fst d1 = map fst d2 -> has_column name d1 = has_column name d2.
Proof.
  unfold has_column. revert d2. induction d1 as [|[n c] t IH]; intros [|[m e] u] H;
    try discriminate; [reflexivity|].
  simpl in *. inversion H. subst. f_equal. now apply IH.
Qed.

Lemma column_position_labels (name : string) (d1 d2 : DataFrame) :
  map fst d1 = map fst d2 -> column_position name d1 = column_position name d2.
Proof.
  revert d2. induction d1 as [|[n c] t IH]; intros [|[m e] u] H;
    try discriminate; [reflexivity|].
  simpl in *. inversion H. subst. destruct (String.eqb name m); [reflexivity|].
  f_equal. now apply IH.
Qed.

Lemma getitem_take_rows (mask : list bool) (df : DataFrame) (name : string) :
  getitem (take_rows mask df) name =
  match getitem df name with
  | Ok s => Ok (select mask s)
  | Raise e => Raise e
  end.
Proof.
  induction df as [|[n c] t IH]; simpl; [reflexivity|].
  destruct (String.eqb name n); [reflexivity | exact IH].
Qed.

Lemma select_incl (mask : list bool) (s : Series) : incl (select mask s) s.
Proof.
  revert s. induction mask as [|b m IH]; intros [|c t]; simpl;
    try (intros x H; contradiction).
  destruct b.
  - intros x [<-|H]; [now left | right; now apply IH].
  - intros x H. right. now apply IH.
Qed.

Lemma well_formed_take_rows (mask : list bool) (df : DataFrame) :
  well_formed df -> List.length mask = nrows df -> well_formed (take_rows mask df).
Proof.
  intros Hwf Hlen. destruct df as [|p rest] eqn:E; [constructor|].
  rewrite <- E in *. assert (Hne : df <> []) by (subst; discriminate).
  unfold well_formed. rewrite (@nrows_take_rows mask df Hwf Hlen Hne).
  apply Forall_forall. intros q Hq. unfold take_rows in Hq.
  apply in_map_iff in Hq as (q0 & <- & Hq0). simpl.
  unfold well_formed in Hwf. rewrite Forall_forall in Hwf.
  specialize (Hwf q0 Hq0). simpl in Hwf.
  rewrite select_kept by (etransitivity; [exact Hwf | symmetry; exact Hlen]).
  now rewrite length_map.
Qed.

(** Masking by a test on one column keeps the rows whose cell passes. *)
Lemma mask_rows (f : cell -> bool) (df : DataFrame) (name : string) (s : Series) :
  getitem df name = Ok s -> well_formed df ->
  rows (take_rows (map f s) df) = filter (fun r => f (row_cell df name r)) (rows df).
Proof.
  intros Hs Hwf.
  pose proof (@key_column_length df name s Hwf Hs) as Hlen.
  rewrite rows_take_rows by (rewrite ?length_map; assumption).
  rewrite rows_filter. f_equal. unfold kept. rewrite length_map, Hlen.
  apply filter_ext_in. intros i Hi. apply in_seq in Hi.
  rewrite (@row_cell_row df name s i Hs).
  rewrite (nth_indep _ false (f None)) by (rewrite length_map, Hlen; lia).
  apply map_nth.
Qed.

Lemma filter_filter {A} (P Q : A -> bool) (l : list A) :
  filter Q (filter P l) = filter (fun x => P x && Q x) l.
Proof.
  induction l as [|x t IH]; simpl; [reflexivity|].
  destruct (P x); simpl; [destruct (Q x)|]; now rewrite IH.
Qed.

Lemma passes_filter_labels (d1 d2 : DataFrame) (r : list cell)
    (e : string * option (list string)) :
  map fst d1 = map fst d2 -> passes_filter d1 r e = passes_filter d2 r e.
Proof.
  intro H. unfold passes_filter, row_cell.
  now rewrite (@has_column_labels (fst e) d1 d2 H), (@column_position_labels (fst e) d1 d2 H).
Qed.

Lemma forallb_passes_labels (d1 d2 : DataFrame) (r : list cell)
    (mapping : list (string * option (list string))) :
  map fst d1 = map fst d2 ->
  forallb (passes_filter d1 r) mapping = forallb (passes_filter d2 r) mapping.
Proof.
  intro H. induction mapping as [|e u IH]; [reflexivity|]. cbn [forallb].
  now rewrite (@passes_filter_labels d1 d2 r e H), IH.
Qed.

Lemma isin_cell_in (s : Series) (values : list string) :
  isin s (map VStr values) = map (cell_in values) s.
Proof. reflexivity. Qed.

(** The loop over the mapping: every step keeps the labels and the
    shape, and the rows left are those that pass every entry. *)
Lemma apply_filters_rows (mapping : list (string * option (list string))) (d : DataFrame) :
  well_formed d ->
  exists out,
    apply_filters mapping d = Ok out /\
    map fst out = map fst d /\
    well_formed out /\
    rows out = filter (fun r => forallb (passes_filter d r) mapping) (rows d) /\
    (forall name s, getitem d name = Ok s ->
                    exists s', getitem out name = Ok s' /\ incl s' s).
Proof.
  revert d. induction mapping as [|[column values] rest IH]; intros d Hwf.
  - exists d. split; [reflexivity|]. split; [reflexivity|]. split; [assumption|].
    split.
    + simpl. induction (rows d) as [|r t IHr]; simpl; [reflexivity | now f_equal].
    + intros name s H. exists s. split; [assumption | apply incl_refl].
  - cbn [apply_filters].
    destruct (truthy values && has_column column d) eqn:E.
    + apply andb_true_iff in E as [Et Eh].
      destruct (proj1 (has_column_getitem d column) Eh) as [col Hcol].
      rewrite Hcol. cbn [bind]. rewrite isin_cell_in.
      pose proof (@key_column_length d column col Hwf Hcol) as Hlen.
      set (d1 := take_rows (map (cell_in (values_of values)) col) d).
      assert (Hwf1 : well_formed d1)
        by (apply well_formed_take_rows; [assumption | now rewrite length_map]).
      assert (Hlab1 : map fst d1 = map fst d) by apply take_rows_labels.
      destruct (IH d1 Hwf1) as (out & Hrun & Hlab & Hwfo & Hrows & Hget).
      exists out. split; [exact Hrun|]. split; [congruence|]. split; [assumption|].
      split.
      * rewrite Hrows. unfold d1.
        rewrite (@mask_rows (cell_in (values_of values)) d column col Hcol Hwf), filter_filter.
        apply filter_ext. intro r. cbn [forallb]. unfold passes_filter at 2.
        cbn [fst snd]. rewrite Et, Eh. cbn [andb]. f_equal.
        apply forallb_passes_labels. exact Hlab1.
      * intros name s Hs.
        pose proof (getitem_take_rows (map (cell_in (values_of values)) col) d name) as G.
        rewrite Hs in G. fold d1 in G.
        destruct (Hget _ _ G) as (s' & Hs' & Hincl).
        exists s'. split; [assumption|].
        eapply incl_tran; [exact Hincl | apply select_incl].
    + destruct (IH d Hwf) as (out & Hrun & Hlab & Hwfo & Hrows & Hget).
      exists out. split; [exact Hrun|]. split; [assumption|]. split; [assumption|].
      split; [|assumption].
      rewrite Hrows. apply filter_ext. intro r. cbn [forallb].
      unfold passes_filter at 2. cbn [fst snd]. now rewrite E.
Qed.

Lemma filter_true {A} (l : list A) : filter (fun _ => true) l = l.
Proof. induction l as [|x t IH]; simpl; [reflexivity | now f_equal]. Qed.

Lemma rows_length (df : DataFrame) : List.length (rows df) = nrows df.
Proof. unfold rows. now rewrite length_map, length_seq. Qed.

Lemma row_passes_labels (d1 d2 : DataFrame) (year_range : option (Z * Z))
    (mapping : list (string * option (list string))) (r : list cell) :
  map fst d1 = map fst d2 ->
  row_passes d1 year_range mapping r = row_passes d2 year_range mapping r.
Proof.
  intro H. unfold row_passes, row_cell.
  now rewrite (@column_position_labels "year" d1 d2 H),
    (@forallb_passes_labels d1 d2 r mapping H).
Qed.

(** What [filter_dataframe] returns, for every choice of arguments. *)
Lemma filter_dataframe_result (df : DataFrame) (year_range : option (Z * Z))
    (severity gender age_groups road_conditions weather_conditions
     road_type light_conditions : option (list string)) :
  well_formed df ->
  (forall lo hi, year_range = Some (lo, hi) ->
                 exists ys, getitem df "year" = Ok ys /\ Forall int_or_null ys) ->
  exists out,
    filter_dataframe df year_range severity gender age_groups road_conditions
      weather_conditions road_type light_conditions = Ok out /\
    map fst out = map fst df /\
    well_formed out /\
    rows out =
      filter (row_passes df year_range
                (filter_mapping_of severity gender age_groups road_conditions
                   weather_conditions road_type light_conditions))
             (rows df) /\
    (forall name s, getitem df name = Ok s ->
                    exists s', getitem out name = Ok s' /\ incl s' s).
Proof.
  intros Hwf Hyear. unfold filter_dataframe.
  fold (filter_mapping_of severity gender age_groups road_conditions
          weather_conditions road_type light_conditions).
  set (mapping := filter_mapping_of severity gender age_groups road_conditions
                    weather_conditions road_type light_conditions).
  destruct year_range as [[lo hi]|].
  - destruct (Hyear lo hi eq_refl) as (ys & Hy & Hint).
    rewrite Hy. cbn [bind]. rewrite !compare_int_ok by assumption. cbn [bind].
    rewrite mask_and_map.
    rewrite (map_ext _ (year_in_range lo hi))
      by (intros [[y|x|y m d]|]; reflexivity).
    pose proof (@key_column_length df "year" ys Hwf Hy) as Hlen.
    set (d1 := take_rows (map (year_in_range lo hi) ys) df).
    assert (Hwf1 : well_formed d1)
      by (apply well_formed_take_rows; [assumption | now rewrite length_map]).
    assert (Hlab1 : map fst d1 = map fst df) by apply take_rows_labels.
    destruct (@apply_filters_rows mapping d1 Hwf1) as (out & Hrun & Hlab & Hwfo & Hrows & Hget).
    exists out. split; [exact Hrun|]. split; [congruence|]. split; [assumption|].
    split.
    + rewrite Hrows. unfold d1.
      rewrite (@mask_rows (year_in_range lo hi) df "year" ys Hy Hwf), filter_filter.
      apply filter_ext. intro r. unfold row_passes. f_equal.
      apply forallb_passes_labels. exact Hlab1.
    + intros name s Hs.
      pose proof (getitem_take_rows (map (year_in_range lo hi) ys) df name) as G.
      rewrite Hs in G. fold d1 in G.
      destruct (Hget _ _ G) as (s' & Hs' & Hincl).
      exists s'. split; [assumption|].
      eapply incl_tran; [exact Hincl | apply select_incl].
  - cbn [bind].
    destruct (@apply_filters_rows mapping df Hwf) as (out & Hrun & Hlab & Hwfo & Hrows & Hget).
    exists out. split; [exact Hrun|]. split; [assumption|]. split; [assumption|].
    split; [|assumption]. rewrite Hrows. reflexivity.
Qed.

(** X7. On a table whose columns have one cell per row (and, when a year
    range is given, with a [year] column of integers), [filter_dataframe]
    returns, for every combination of arguments, a table with the same
    columns whose rows are exactly the rows of the input that satisfy
    every engaged predicate at once (the year range, and each list that
    is given, not empty and names a column of the table), in the input's
    order; a list for a column the table lacks constrains nothing, and a
    row with a missing cell in an engaged column is left out. *)
Theorem filter_dataframe_rows (df : DataFrame) (year_range : option (Z * Z))
    (severity gender age_groups road_conditions weather_conditions
     road_type light_conditions : option (list string)) :
  well_formed df ->
  (forall lo hi, year_range = Some (lo, hi) ->
                 exists ys, getitem df "year" = Ok ys /\ Forall int_or_null ys) ->
  exists out,
    filter_dataframe df year_range severity gender age_groups road_conditions
      weather_conditions road_type light_conditions = Ok out /\
    map fst out = map fst df /\
    well_formed out /\
    rows out =
      filter (row_passes df year_range
                (filter_mapping_of severity gender age_groups road_conditions
                   weather_conditions road_type light_conditions))
             (rows df) /\
    nrows out <= nrows df.
Proof.
  intros Hwf Hyear.
  destruct (@filter_dataframe_result df year_range severity gender age_groups
              road_conditions weather_conditions road_type light_conditions Hwf Hyear)
    as (out & Hrun & Hlab & Hwfo & Hrows & _).
  exists out. repeat (split; [assumption|]).
  rewrite <- (rows_length out), <- (rows_length df), Hrows. apply filter_length_le.
Qed.

Lemma filter_dataframe_rows_witness :
  exists out,
    filter_dataframe
      [("year"%string, [Some (VInt 2018); Some (VInt 2020); None; Some (VInt 2019)]);
       ("severity"%string,
        [Some (VStr "Slight"); Some (VStr "Fatal"); Some (VStr "Slight"); None])]
      (Some (2018, 2019)%Z) (Some ["Slight"%string]) (Some ["Male"%string])
      None None None None None = Ok out /\
    rows out = [[Some (VInt 2018); Some (VStr "Slight")]].
Proof.
  destruct (@filter_dataframe_rows
              [("year"%string, [Some (VInt 2018); Some (VInt 2020); None; Some (VInt 2019)]);
               ("severity"%string,
                [Some (VStr "Slight"); Some (VStr "Fatal"); Some (VStr "Slight"); None])]
              (Some (2018, 2019)%Z) (Some ["Slight"%string]) (Some ["Male"%string])
              None None None None None)
    as (out & Hrun & _ & _ & Hrows & _).
  - repeat constructor.
  - intros lo hi _. eexists. split; [reflexivity | repeat constructor].
  - exists out. split; [exact Hrun|]. rewrite Hrows. reflexivity.
Defined.

(** X8. Filtering is idempotent: under the same conditions, applying
    [filter_dataframe] with the same arguments to its own result returns
    a table with the same columns and the same rows. *)
Theorem filter_dataframe_idempotent (df : DataFrame) (year_range : option (Z * Z))
    (severity gender age_groups road_conditions weather_conditions
     road_type light_conditions : option (list string)) :
  well_formed df ->
  (forall lo hi, year_range = Some (lo, hi) ->
                 exists ys, getitem df "year" = Ok ys /\ Forall int_or_null ys) ->
  exists out out2,
    filter_dataframe df year_range severity gender age_groups road_conditions
      weather_conditions road_type light_conditions = Ok out /\
    filter_dataframe out year_range severity gender age_groups road_conditions
      weather_conditions road_type light_conditions = Ok out2 /\
    map fst out2 = map fst out /\
    rows out2 = rows out.
Proof.
  intros Hwf Hyear.
  destruct (@filter_dataframe_result df year_range severity gender age_groups
              road_conditions weather_conditions road_type light_conditions Hwf Hyear)
    as (out & Hrun & Hlab & Hwfo & Hrows & Hget).
  assert (Hyear2 : forall lo hi, year_range = Some (lo, hi) ->
                     exists ys, getitem out "year" = Ok ys /\ Forall int_or_null ys).
  { intros lo hi E. destruct (Hyear lo hi E) as (ys & Hy & Hint).
    destruct (Hget _ _ Hy) as (ys' & Hy' & Hincl).
    exists ys'. split; [assumption|].
    apply Forall_forall. intros c Hc. rewrite Forall_forall in Hint.
    apply Hint, Hincl, Hc. }
  destruct (@filter_dataframe_result out year_range severity gender age_groups
              road_conditions weather_conditions road_type light_conditions Hwfo Hyear2)
    as (out2 & Hrun2 & Hlab2 & _ & Hrows2 & _).
  exists out, out2. split; [assumption|]. split; [assumption|]. split; [assumption|].
  rewrite Hrows2, Hrows, filter_filter. apply filter_ext. intro r.
  rewrite (@row_passes_labels out df year_range _ r Hlab). apply andb_diag.
Qed.

Lemma filter_dataframe_idempotent_witness :
  exists out out2,
    filter_dataframe
      [("year"%string, [Some (VInt 2018); Some (VInt 2020); None; Some (VInt 2019)]);
       ("severity"%string,
        [Some (VStr "Slight"); Some (VStr "Fatal"); Some (VStr "Slight"); None])]
      (Some (2018, 2019)%Z) (Some ["Slight"%string]) None None None None None None
      = Ok out /\
    filter_dataframe out
      (Some (2018, 2019)%Z) (Some ["Slight"%string]) None None None None None None
      = Ok out2 /\
    rows out2 = rows out.
Proof.
  destruct (@filter_dataframe_idempotent
              [("year"%string, [Some (VInt 2018); Some (VInt 2020); None; Some (VInt 2019)]);
               ("severity"%string,
                [Some (VStr "Slight"); Some (VStr "Fatal"); Some (VStr "Slight"); None])]
              (Some (2018, 2019)%Z) (Some ["Slight"%string]) None None None None None None)
    as (out & out2 & H1 & H2 & _ & H3).
  - repeat constructor.
  - intros lo hi _. eexists. split; [reflexivity | repeat constructor].
  - exists out, out2. split; [exact H1|]. split; [exact H2 | exact H3].
Defined.

(* ------------------------------------------------------------------ *)
(** ** Filter options *)

Section FilterOptionFacts.

Variable repr : val -> string.

Lemma filter_options_In (s : Series) (x : string) :
  In x (filter_options repr s) <->
  x <> "nan"%string /\ exists v, In (Some v) s /\ str_of repr v = x.
Proof.
  unfold filter_options. split.
  - intro H. apply (Permutation_in _ (sort_by_perm String.leb _)) in H.
    apply filter_In in H as [H Hn]. apply negb_true_iff, String.eqb_neq in Hn.
    split; [assumption|]. apply in_map_iff in H as (v & E & Hv).
    exists v. split; [|assumption].
    apply (proj1 (@dedup_In _ val_eqb val_eqb_eq v (dropna s))) in Hv.
    exact (proj1 (dropna_In v s) Hv).
  - intros [Hn (v & Hv & E)].
    apply (Permutation_in _ (Permutation_sym (sort_by_perm String.leb _))).
    apply filter_In. split.
    + apply in_map_iff. exists v. split; [assumption|].
      apply (proj2 (@dedup_In _ val_eqb val_eqb_eq v (dropna s))).
      exact (proj2 (dropna_In v s) Hv).
    + now apply negb_true_iff, String.eqb_neq.
Qed.

Lemma filter_options_sorted (s : Series) :
  Sorted (fun a b => String.leb a b = true) (filter_options repr s).
Proof. apply sort_by_sorted. exact String.leb_total. Qed.

Lemma unique_values_of_cons (col : string) (rest : list string) (df : DataFrame) :
  unique_values_of repr (col :: rest) df =
  if has_column col df then
    s <- getitem df col ;;
    tail <- unique_values_of repr rest df ;;
    Ok ((col, filter_options repr s) :: tail)
  else unique_values_of repr rest df.
Proof. reflexivity. Qed.

Lemma unique_values_of_ok (cols : list string) (df : DataFrame) :
  exists d,
    unique_values_of repr cols df = Ok d /\
    map fst d = filter (fun c => has_column c df) cols /\
    Forall (fun e => exists s, getitem df (fst e) = Ok s /\
                               snd e = filter_options repr s) d.
Proof.
  induction cols as [|c rest (d & Hd & Hk & Hf)]; cbn [unique_values_of filter].
  - exists []. repeat split. constructor.
  - destruct (has_column c df) eqn:E.
    + destruct (proj1 (has_column_getitem df c) E) as [s Hs].
      rewrite Hs, Hd. cbn [bind]. eexists. split; [reflexivity|]. split.
      * cbn [map fst]. now rewrite Hk.
      * constructor; [|assumption]. exists s. split; [assumption | reflexivity].
    + exists d. repeat split; assumption.
Qed.

(** X9. [get_unique_values_for_filters] never raises; its entries are
    the categorical columns that the table has, in the fixed order of the
    list; the options of a column are sorted, and a text is an option
    exactly when it is the text of a non-missing value of the column and
    is not [nan]. *)
Theorem get_unique_values_for_filters_options (df : DataFrame) :
  exists d,
    get_unique_values_for_filters repr df = Ok d /\
    map fst d = filter (fun c => has_column c df) categorical_columns /\
    Forall (fun e =>
              exists s,
                getitem df (fst e) = Ok s /\
                Sorted (fun a b => String.leb a b = true) (snd e) /\
                forall x, In x (snd e) <->
                          x <> "nan"%string /\
                          exists v, In (Some v) s /\ str_of repr v = x) d.
Proof.
  destruct (unique_values_of_ok categorical_columns df) as (d & Hd & Hk & Hf).
  exists d. split; [exact Hd|]. split; [exact Hk|].
  apply Forall_forall. intros e He. rewrite Forall_forall in Hf.
  destruct (Hf e He) as (s & Hs & Ho). exists s. split; [assumption|].
  rewrite Ho. split; [apply filter_options_sorted | apply filter_options_In].
Qed.

Lemma cell_in_options (s : Series) (c : cell) :
  Forall text_or_null s -> In c s ->
  cell_in (filter_options repr s) c = has_text c.
Proof.
  intros Ht Hc. rewrite Forall_forall in Ht. specialize (Ht c Hc).
  destruct c as [[z|t|y m d]|]; simpl in Ht; try contradiction; [|reflexivity].
  cbn [cell_in has_text].
  destruct (String.eqb t "nan") eqn:E; cbn [negb].
  - apply String.eqb_eq in E. apply not_true_is_false. intro H.
    apply existsb_exists in H as (w & Hw & Ew). apply val_eqb_eq in Ew. subst w.
    apply in_map_iff in Hw as (x & Ex & Hx). inversion Ex; subst x.
    apply filter_options_In in Hx. tauto.
  - apply String.eqb_neq in E. apply existsb_exists. exists (VStr t).
    split; [|apply val_eqb_refl]. apply in_map. apply filter_options_In.
    split; [assumption|]. exists (VStr t). auto.
Qed.

Lemma options_truthy (s : Series) :
  Forall text_or_null s ->
  truthy (Some (filter_options repr s)) = existsb has_text s.
Proof.
  intro Ht. destruct (existsb has_text s) eqn:E.
  - apply existsb_exists in E as (c & Hc & Hx).
    pose proof (@cell_in_options s c Ht Hc) as H. rewrite Hx in H.
    destruct (filter_options repr s); [destruct c; discriminate | reflexivity].
  - destruct (filter_options repr s) as [|x t] eqn:Eo; [reflexivity|]. exfalso.
    assert (Hx : In x (filter_options repr s)) by (rewrite Eo; now left).
    apply filter_options_In in Hx as [Hn (v & Hv & Ev)].
    assert (Hh : has_text (Some v) = true).
    { rewrite Forall_forall in Ht. specialize (Ht _ Hv).
      destruct v as [z|t'|y m d]; simpl in Ht; try contradiction.
      simpl in Ev. subst t'. simpl. now apply negb_true_iff, String.eqb_neq. }
    assert (existsb has_text s = true) by (apply existsb_exists; eauto).
    congruence.
Qed.

(** X10. The default selection of the dashboard for severity (all the
    options of [get_unique_values_for_filters]) is not the identity: on a
    table whose severity column holds texts and missing values,
    [filter_dataframe] with that list keeps exactly the rows whose
    severity is a text other than [nan], so a row with a missing severity
    is dropped; only when no row has such a text is the list empty and
    the table returned whole. *)
Theorem default_severity_selection (df : DataFrame) (s : Series) :
  well_formed df ->
  getitem df "severity" = Ok s ->
  Forall text_or_null s ->
  exists d out,
    get_unique_values_for_filters repr df = Ok d /\
    filter_dataframe df None (Some (dict_get "severity" d))
      None None None None None None = Ok out /\
    rows out =
      if existsb has_text s
      then filter (fun r => has_text (row_cell df "severity" r)) (rows df)
      else rows df.
Proof.
  intros Hwf Hs Ht.
  assert (H1 : has_column "severity" df = true) by (apply has_column_getitem; eauto).
  destruct (unique_values_of_ok
              ["gender"; "age_grp"; "road_conditions"; "weather_conditions";
               "road_type"; "light_conditions"; "day_of_week"]%string df)
    as (tail & Htail & _ & _).
  exists (("severity"%string, filter_options repr s) :: tail).
  assert (Hd : get_unique_values_for_filters repr df =
               Ok (("severity"%string, filter_options repr s) :: tail)).
  { unfold get_unique_values_for_filters, categorical_columns.
    rewrite unique_values_of_cons, H1, Hs. cbn [bind]. rewrite Htail. reflexivity. }
  cbn [dict_get]. rewrite String.eqb_refl.
  destruct (@filter_dataframe_result df None (Some (filter_options repr s))
              None None None None None None Hwf) as (out & Hrun & _ & _ & Hrows & _);
    [intros lo hi E; discriminate|].
  exists out. split; [exact Hd|]. split; [exact Hrun|].
  rewrite Hrows. unfold row_passes, filter_mapping_of. cbn [forallb andb].
  unfold passes_filter. cbn [fst snd].
  rewrite (@options_truthy s Ht), H1.
  destruct (existsb has_text s) eqn:E; cbn [truthy andb values_of].
  - pose proof (@key_column_length df "severity" s Hwf Hs) as Hlen.
    unfold rows. rewrite !filter_map_swap. f_equal.
    apply filter_ext_in. intros i Hi. apply in_seq in Hi.
    rewrite (@row_cell_row df "severity" s i Hs), andb_true_r.
    apply cell_in_options; [assumption|]. apply nth_In. lia.
  - apply filter_true.
Qed.

End FilterOptionFacts.

Lemma default_severity_selection_witness :
  exists d out,
    get_unique_values_for_filters (fun _ => "7"%string)
      [("severity"%string, [Some (VStr "Slight"); None; Some (VStr "Fatal")]);
       ("gender"%string, [Some (VStr "Male"); Some (VStr "Male"); None])] = Ok d /\
    filter_dataframe
      [("severity"%string, [Some (VStr "Slight"); None; Some (VStr "Fatal")]);
       ("gender"%string, [Some (VStr "Male"); Some (VStr "Male"); None])]
      None (Some (dict_get "severity" d)) None None None None None None = Ok out /\
    rows out = [[Some (VStr "Slight"); Some (VStr "Male")]; [Some (VStr "Fatal"); None]].
Proof.
  destruct (@default_severity_selection (fun _ => "7"%string)
              [("severity"%string, [Some (VStr "Slight"); None; Some (VStr "Fatal")]);
               ("gender"%string, [Some (VStr "Male"); Some (VStr "Male"); None])]
              [Some (VStr "Slight"); None; Some (VStr "Fatal")])
    as (d & out & Hd & Hrun & Hrows).
  - repeat constructor.
  - reflexivity.
  - repeat constructor.
  - exists d, out. split; [exact Hd|]. split; [exact Hrun|].
    rewrite Hrows. reflexivity.
Defined.


(* ------------------------------------------------------------------ *)
(** ** Flow graph: shape of the result *)

Lemma valid_pairs_length (a b : Series) :
  List.length (valid_pairs a b) <= List.length a.
Proof.
  revert b. induction a as [|c a' IH]; intro b; [simpl; lia|].
  destruct b as [|d b']; [destruct c; simpl; lia|].
  specialize (IH b'). destruct c as [v|], d as [w|]; simpl; lia.
Qed.

Lemma group_sizes2_bound (a b : Series) (p : val * val) (n : nat) :
  In (p, n) (group_sizes2 a b) -> n <= List.length a.
Proof.
  unfold group_sizes2. intro H. apply in_map_iff in H as (q & E & _).
  inversion E; subst. unfold count_pair.
  etransitivity; [apply filter_length_le | apply valid_pairs_length].
Qed.

Lemma flows_of_valid (nodes : list cell) (counts : list ((val * val) * nat)) (m : nat) :
  (forall a b n, In ((a, b), n) counts ->
                 In (Some a) nodes /\ In (Some b) nodes /\ n <= m) ->
  Forall (fun f => fst (fst f) < List.length nodes /\
                   snd (fst f) < List.length nodes /\
                   100 <= snd f <= m) (flows_of nodes counts).
Proof.
  intro H. apply Forall_forall. intros f Hf. unfold flows_of in Hf.
  apply in_map_iff in Hf as ([[a b] n] & <- & He).
  apply filter_In in He as [He Hn]. cbn [fst snd] in *.
  apply Nat.leb_le in Hn. destruct (H a b n He) as (Ha & Hb & Hm).
  repeat split; try assumption; now apply first_index_lt.
Qed.

(** X11. On a table with the three columns, one cell per row,
    [create_sankey_data] returns a flow graph whose three flow lists
    have the same length, whose source and target numbers are positions
    of the node list, and whose values lie between 100 and the number of
    rows; so a table of fewer than 100 rows gives nodes without flows. *)
Theorem create_sankey_data_shape (df : DataFrame) :
  well_formed df ->
  forallb (fun col => has_column col df)
    ["road_type"; "weather_conditions"; "severity"]%string = true ->
  exists sk,
    create_sankey_data df = Ok (Some sk) /\
    List.length (sources sk) = List.length (values sk) /\
    List.length (targets sk) = List.length (values sk) /\
    Forall (fun i => i < List.length (nodes sk)) (sources sk) /\
    Forall (fun i => i < List.length (nodes sk)) (targets sk) /\
    Forall (fun v => 100 <= v <= nrows df) (values sk) /\
    (nrows df < 100 -> sources sk = [] /\ targets sk = [] /\ values sk = []).
Proof.
  intros Hwf Hc. cbn [forallb] in Hc.
  apply andb_prop in Hc as [H1 Hc]. apply andb_prop in Hc as [H2 Hc].
  apply andb_prop in Hc as [H3 _].
  apply has_column_getitem in H1 as [road Hr].
  apply has_column_getitem in H2 as [weather Hw].
  apply has_column_getitem in H3 as [severity Hs].
  destruct (@create_sankey_data_flows df road weather severity Hr Hw Hs) as [E _].
  cbv zeta in E.
  set (road_col := group_rare road 1000 "Other") in *.
  set (weather_col := group_rare weather 1000 "Other") in *.
  set (nd := unique road_col ++ unique weather_col ++ unique severity) in *.
  set (flows := flows_of nd (group_sizes2 road_col weather_col) ++
                flows_of nd (group_sizes2 weather_col severity)) in *.
  assert (Lr : List.length road_col = nrows df).
  { unfold road_col. rewrite group_rare_map, length_map.
    exact (@key_column_length df "road_type" road Hwf Hr). }
  assert (Lw : List.length weather_col = nrows df).
  { unfold weather_col. rewrite group_rare_map, length_map.
    exact (@key_column_length df "weather_conditions" weather Hwf Hw). }
  assert (HF : Forall (fun f => fst (fst f) < List.length nd /\
                               snd (fst f) < List.length nd /\
                               100 <= snd f <= nrows df) flows).
  { unfold flows. apply Forall_app. split; apply flows_of_valid; intros a b n H.
    - pose proof (@group_sizes2_bound road_col weather_col (a, b) n H) as Hb.
      apply group_sizes2_In in H as [Ha Hb'].
      unfold nd. rewrite !in_app_iff, !unique_In. repeat split; [tauto | tauto | lia].
    - pose proof (@group_sizes2_bound weather_col severity (a, b) n H) as Hb.
      apply group_sizes2_In in H as [Ha Hb'].
      unfold nd. rewrite !in_app_iff, !unique_In. repeat split; [tauto | tauto | lia]. }
  eexists. split; [exact E|]. cbn [sources targets values nodes].
  rewrite !length_map. rewrite !Forall_map.
  repeat split; try reflexivity.
  - eapply Forall_impl; [|exact HF]. cbv beta. tauto.
  - eapply Forall_impl; [|exact HF]. cbv beta. tauto.
  - eapply Forall_impl; [|exact HF]. cbv beta. tauto.
  - destruct flows as [|f fl]; [reflexivity|]. inversion HF; subst. lia.
  - destruct flows as [|f fl]; [reflexivity|]. inversion HF; subst. lia.
  - destruct flows as [|f fl]; [reflexivity|]. inversion HF; subst. lia.
Qed.

Lemma create_sankey_data_shape_witness :
  exists sk,
    create_sankey_data
      [("road_type"%string, [Some (VStr "A road"); None]);
       ("weather_conditions"%string, [Some (VStr "Fine"); Some (VStr "Rain")]);
       ("severity"%string, [Some (VStr "Slight"); Some (VStr "Fatal")])] = Ok (Some sk) /\
    sources sk = [] /\ targets sk = [] /\ values sk = [].
Proof.
  destruct (@create_sankey_data_shape
              [("road_type"%string, [Some (VStr "A road"); None]);
               ("weather_conditions"%string, [Some (VStr "Fine"); Some (VStr "Rain")]);
               ("severity"%string, [Some (VStr "Slight"); Some (VStr "Fatal")])])
    as (sk & E & _ & _ & _ & _ & _ & Hsmall).
  - repeat constructor.
  - reflexivity.
  - exists sk. split; [exact E|]. apply Hsmall. simpl. lia.
Defined.


(* ------------------------------------------------------------------ *)
(** ** Record Merger: the merged rows *)

Lemma getitem_raise (df : DataFrame) (name : string) (e : exn) :
  getitem df name = Raise e -> e = KeyError.
Proof.
  induction df as [|[n c] rest IH]; simpl.
  - intro H. now inversion H.
  - destruct (String.eqb name n); [discriminate | exact IH].
Qed.








(* ------------------------------------------------------------------ *)
(** ** Feature Deriver: calendar fields, untouched columns, errors *)

Lemma existsb_eqb_false (name : string) (l : list string) :
  ~ In name l -> existsb (String.eqb name) l = false.
Proof.
  intro H. apply not_true_is_false. intro E.
  apply existsb_exists in E as (x & Hx & E). apply String.eqb_eq in E. now subst.
Qed.

(** X13. On a table whose lower-cased labels are distinct and include
    [date], [time] and [severity], [preprocess] returns a table in which
    [date] is the parsed date of the input cell, [year], [month] and
    [day_of_week] are taken from that parsed date cell by cell (missing
    exactly where the date does not parse), and [time] is the parsed
    time; each of the eight text columns that exists is the cleaned text
    of the input column; every other column that is none of the derived
    ones is the input column unchanged. *)
Theorem preprocess_calendar_fields
    (repr : val -> string) (to_datetime : cell -> option (Z * Z * Z))
    (day_name : Z * Z * Z -> string) (to_time : cell -> cell)
    (df : DataFrame) (raw_date raw_time : Series) :
  let lowered := map (fun p => (lower (fst p), snd p)) df in
  NoDup (map fst lowered) ->
  getitem lowered "date" = Ok raw_date ->
  getitem lowered "time" = Ok raw_time ->
  has_column "severity" lowered = true ->
  exists out,
    preprocess repr to_datetime day_name to_time df = Ok out /\
    getitem out "date" = Ok (map (fun c => date_cell (to_datetime c)) raw_date) /\
    getitem out "year" =
      Ok (map (fun c => option_map (fun t => VInt (fst (fst t))) (to_datetime c)) raw_date) /\
    getitem out "month" =
      Ok (map (fun c => option_map (fun t => VInt (snd (fst t))) (to_datetime c)) raw_date) /\
    getitem out "day_of_week" =
      Ok (map (fun c => option_map (fun t => VStr (day_name t)) (to_datetime c)) raw_date) /\
    getitem out "time" = Ok (map to_time raw_time) /\
    (forall name s, In name string_cols -> getitem lowered name = Ok s ->
                    getitem out name = Ok (map (clean_text repr) s)) /\
    (forall name, ~ In name string_cols -> ~ In name derived_columns ->
                  getitem out name = getitem lowered name).
Proof.
  intros lowered Hnd Hd Ht Hsev.
  destruct (proj1 (has_column_getitem lowered "severity") Hsev) as [raw Hs].
  destruct (@clean_string_cols_ok repr string_cols lowered string_cols_NoDup Hnd)
    as (df1 & Hrun & Hlab & Hget).
  assert (Hnd1 : NoDup (map fst df1)) by now rewrite Hlab.
  pose proof (Hget "date"%string) as Gd. rewrite Hd in Gd.
  pose proof (Hget "time"%string) as Gt. rewrite Ht in Gt.
  pose proof (Hget "severity"%string) as Gs. rewrite Hs in Gs.
  unfold string_cols in Gd, Gt, Gs. cbn [existsb] in Gd, Gt, Gs.
  vm_compute (String.eqb _ _) in Gd. vm_compute (String.eqb _ _) in Gt.
  vm_compute (String.eqb _ _) in Gs. cbn [orb] in Gd, Gt, Gs.
  unfold preprocess. fold lowered. rewrite Hrun. cbn [bind].
  rewrite getcol_NoDup, Gd by assumption. cbn [bind].
  rewrite getitem_setitem_same. cbn [bind].
  rewrite <- (map_map to_datetime date_cell), dt_date_cell. cbn [bind].
  rewrite getcol_NoDup by (repeat apply setitem_NoDup; assumption).
  rewrite !getitem_setitem. eval_eqb. rewrite Gt. cbn [bind].
  rewrite getcol_NoDup by (repeat apply setitem_NoDup; assumption).
  rewrite !getitem_setitem. eval_eqb. rewrite Gs. cbn [bind].
  eexists. split; [reflexivity|].
  rewrite !map_map.
  split; [rewrite !getitem_setitem; eval_eqb; reflexivity|].
  split; [rewrite !getitem_setitem; eval_eqb; reflexivity|].
  split; [rewrite !getitem_setitem; eval_eqb; reflexivity|].
  split; [rewrite !getitem_setitem; eval_eqb; reflexivity|].
  split; [rewrite !getitem_setitem; eval_eqb; reflexivity|].
  split.
  - intros name s Hin Hname.
    assert (Hn : ~ In name derived_columns).
    { intro H. unfold string_cols in Hin. unfold derived_columns in H.
      simpl in Hin, H.
      repeat (destruct Hin as [<-|Hin]; [intuition discriminate|]). exact Hin. }
    rewrite !getitem_setitem.
    unfold derived_columns in Hn. simpl in Hn.
    repeat match goal with
    | |- context [String.eqb name ?l] =>
        rewrite (proj2 (String.eqb_neq name l)) by (intro; subst; tauto)
    end.
    rewrite Hget, Hname.
    replace (existsb (String.eqb name) string_cols) with true; [reflexivity|].
    symmetry. apply existsb_exists. exists name. split; [assumption|apply String.eqb_refl].
  - intros name Hn1 Hn2.
    rewrite !getitem_setitem.
    unfold derived_columns in Hn2. simpl in Hn2.
    repeat match goal with
    | |- context [String.eqb name ?l] =>
        rewrite (proj2 (String.eqb_neq name l)) by (intro; subst; tauto)
    end.
    rewrite Hget, (existsb_eqb_false _ _ Hn1). now destruct (getitem lowered name).
Qed.

Lemma preprocess_calendar_fields_witness :
  exists out,
    preprocess (fun _ => "7"%string)
      (fun c => match c with Some (VStr "2020-01-05") => Some (2020, 1, 5)%Z | _ => None end)
      (fun _ => "Sunday"%string) (fun c => c)
      [("Date"%string, [Some (VStr "2020-01-05"); None; Some (VStr "x")]);
       ("Time"%string, [Some (VStr "10:30"); None; None]);
       ("Severity"%string, [Some (VStr " fatal "); None; Some (VStr "Unknown")]);
       ("Speed_limit"%string, [Some (VInt 30); Some (VInt 60); None])]
    = Ok out /\
    getitem out "year" = Ok [Some (VInt 2020); None; None] /\
    getitem out "day_of_week" = Ok [Some (VStr "Sunday"); None; None] /\
    getitem out "speed_limit" = Ok [Some (VInt 30); Some (VInt 60); None].
Proof.
  destruct (@preprocess_calendar_fields
              (fun _ => "7"%string)
              (fun c => match c with
                        | Some (VStr "2020-01-05") => Some (2020, 1, 5)%Z
                        | _ => None
                        end)
              (fun _ => "Sunday"%string) (fun c => c)
              [("Date"%string, [Some (VStr "2020-01-05"); None; Some (VStr "x")]);
               ("Time"%string, [Some (VStr "10:30"); None; None]);
               ("Severity"%string, [Some (VStr " fatal "); None; Some (VStr "Unknown")]);
               ("Speed_limit"%string, [Some (VInt 30); Some (VInt 60); None])]
              [Some (VStr "2020-01-05"); None; Some (VStr "x")]
              [Some (VStr "10:30"); None; None])
    as (out & Hout & _ & Hy & _ & Hw & _ & _ & Hrest).
  - vm_compute. repeat constructor; simpl; intuition discriminate.
  - reflexivity.
  - reflexivity.
  - reflexivity.
  - exists out. split; [exact Hout|]. split; [exact Hy|]. split; [exact Hw|].
    rewrite Hrest.
    + reflexivity.
    + simpl. intuition discriminate.
    + simpl. intuition discriminate.
Defined.

(** X14. [preprocess] looks its columns up after lower-casing the
    labels: on a table whose lower-cased labels are distinct it raises
    [KeyError] when there is no [date] column, when there is no [time]
    column, and when there is no [severity] column (the cleaning loop
    skips a missing column, the severity lookup does not). *)
Theorem preprocess_missing_column
    (repr : val -> string) (to_datetime : cell -> option (Z * Z * Z))
    (day_name : Z * Z * Z -> string) (to_time : cell -> cell)
    (df : DataFrame) :
  let lowered := map (fun p => (lower (fst p), snd p)) df in
  NoDup (map fst lowered) ->
  has_column "date" lowered && has_column "time" lowered
    && has_column "severity" lowered = false ->
  preprocess repr to_datetime day_name to_time df = Raise KeyError.
Proof.
  intros lowered Hnd Hmiss.
  destruct (@clean_string_cols_ok repr string_cols lowered string_cols_NoDup Hnd)
    as (df1 & Hrun & Hlab & Hget).
  assert (Hnd1 : NoDup (map fst df1)) by now rewrite Hlab.
  unfold preprocess. fold lowered. rewrite Hrun. cbn [bind].
  rewrite getcol_NoDup by assumption.
  destruct (has_column "date" lowered) eqn:Ed.
  2:{ rewrite Hget, (has_column_false_getitem lowered "date" Ed). reflexivity. }
  destruct (proj1 (has_column_getitem lowered "date") Ed) as [raw_date Hd].
  pose proof (Hget "date"%string) as Gd. rewrite Hd in Gd.
  unfold string_cols in Gd. cbn [existsb] in Gd.
  vm_compute (String.eqb _ _) in Gd. cbn [orb] in Gd.
  rewrite Gd. cbn [bind].
  rewrite getitem_setitem_same. cbn [bind].
  rewrite <- (map_map to_datetime date_cell), dt_date_cell. cbn [bind].
  rewrite getcol_NoDup by (repeat apply setitem_NoDup; assumption).
  rewrite !getitem_setitem. eval_eqb.
  destruct (has_column "time" lowered) eqn:Et.
  2:{ rewrite Hget, (has_column_false_getitem lowered "time" Et). reflexivity. }
  destruct (proj1 (has_column_getitem lowered "time") Et) as [raw_time Ht].
  pose proof (Hget "time"%string) as Gt. rewrite Ht in Gt.
  unfold string_cols in Gt. cbn [existsb] in Gt.
  vm_compute (String.eqb _ _) in Gt. cbn [orb] in Gt.
  rewrite Gt. cbn [bind].
  rewrite getcol_NoDup by (repeat apply setitem_NoDup; assumption).
  rewrite !getitem_setitem. eval_eqb.
  cbn [andb] in Hmiss.
  rewrite Hget, (has_column_false_getitem lowered "severity" Hmiss). reflexivity.
Qed.

Lemma preprocess_missing_column_witness :
  preprocess (fun _ => "7"%string) (fun _ => None) (fun _ => "Monday"%string) (fun c => c)
    [("Date"%string, [Some (VStr "2020-01-05")]);
     ("Time"%string, [Some (VStr "10:30")])] = Raise KeyError.
Proof.
  apply (@preprocess_missing_column
           (fun _ => "7"%string) (fun _ => None) (fun _ => "Monday"%string) (fun c => c)
           [("Date"%string, [Some (VStr "2020-01-05")]);
            ("Time"%string, [Some (VStr "10:30")])]).
  - vm_compute. repeat constructor; simpl; intuition discriminate.
  - reflexivity.
Defined.


(* ------------------------------------------------------------------ *)
(** ** Correlation matrix without hours *)

Lemma select_columns_ok (cols : list string) (df : DataFrame) :
  (forall c, In c cols -> has_column c df = true) ->
  exists sub,
    select_columns cols df = Ok sub /\
    map fst sub = cols /\
    Forall (fun p => getitem df (fst p) = Ok (snd p)) sub.
Proof.
  induction cols as [|c rest IH]; intro H.
  - exists []. repeat split. constructor.
  - destruct IH as (tail & Ht & Hl & Hf); [intros; apply H; now right|].
    destruct (proj1 (has_column_getitem df c) (H c (or_introl eq_refl))) as [s Hs].
    exists ((c, s) :: tail). cbn [select_columns]. rewrite Hs, Ht. cbn [bind].
    split; [reflexivity|]. split; [cbn [map fst]; now rewrite Hl|].
    constructor; assumption.
Qed.

Lemma select_none (mask : list bool) (s : Series) :
  Forall (fun b => b = false) mask -> select mask s = [].
Proof.
  intro H. revert s. induction H as [|b m Hb _ IH]; intros [|c t]; try reflexivity.
  subst b. cbn [select]. apply IH.
Qed.

Lemma nrows_take_none (mask : list bool) (df : DataFrame) :
  Forall (fun b => b = false) mask -> nrows (take_rows mask df) = 0.
Proof.
  intro H. destruct df as [|[n s] rest]; [reflexivity|].
  simpl. now rewrite select_none.
Qed.

Lemma nth_repeat_none (i n : nat) : nth i (repeat (@None val) n) None = None.
Proof.
  revert i. induction n as [|n IH]; intros [|i]; simpl; try reflexivity. apply IH.
Qed.

Lemma complete_rows_null_column (df : DataFrame) (name : string) (n : nat) :
  In (name, repeat (@None val) n) df ->
  Forall (fun b => b = false) (complete_rows df).
Proof.
  intro Hin. unfold complete_rows. apply Forall_forall. intros b Hb.
  apply in_map_iff in Hb as (i & <- & _).
  apply not_true_is_false. intro E. rewrite forallb_forall in E.
  specialize (E _ Hin). cbn [snd] in E. now rewrite nth_repeat_none in E.
Qed.

Lemma extract_hour_unparsed (hours_strict hours_any : Series -> option Series)
    (df : DataFrame) :
  match getitem df "time" with
  | Ok t => hours_strict t = None /\ hours_any t = None
  | Raise _ => True
  end ->
  extract_hour_from_time hours_strict hours_any df =
  setitem df "hour" (repeat None (nrows df)).
Proof.
  intro H. unfold extract_hour_from_time.
  destruct (has_column "time" df); [|reflexivity].
  destruct (getitem df "time") as [t|e]; [|reflexivity].
  destruct H as [H1 H2]. now rewrite H1, H2.
Qed.

(** X15. [calculate_correlation_matrix] needs the hours: on every table
    without a [time] column, and on every table whose [time] column
    neither parse accepts, it returns the empty table, whatever numeric
    columns the table has; the [hour] column is then missing in every
    row and [dropna] leaves no row. *)
Theorem calculate_correlation_matrix_without_hours
    (hours_strict hours_any : Series -> option Series) (corr : DataFrame -> CrossTab Q)
    (df : DataFrame) :
  match getitem df "time" with
  | Ok t => hours_strict t = None /\ hours_any t = None
  | Raise _ => True
  end ->
  calculate_correlation_matrix hours_strict hours_any corr df = Ok empty_frame.
Proof.
  intro H. unfold calculate_correlation_matrix.
  rewrite (extract_hour_unparsed hours_strict hours_any df H).
  set (D := setitem df "hour" (repeat None (nrows df))).
  assert (Hh : getitem D "hour" = Ok (repeat None (nrows df)))
    by apply getitem_setitem_same.
  assert (HhD : has_column "hour" D = true) by (apply has_column_getitem; eauto).
  rewrite HhD.
  set (available := filter (fun col => has_column col D) _).
  destruct (1 <? List.length available) eqn:E; [|reflexivity].
  destruct (@select_columns_ok available D) as (sub & Hsub & Hl & Hf).
  { intros c Hc. unfold available in Hc. now apply filter_In in Hc. }
  rewrite Hsub. cbn [bind].
  assert (Hin : In ("hour"%string, repeat (@None val) (nrows df)) sub).
  { assert (Ha : In "hour"%string (map fst sub)).
    { rewrite Hl. unfold available. apply filter_In. split; [|exact HhD].
      apply in_or_app. right. now left. }
    apply in_map_iff in Ha as ([n s] & En & Hp). cbn [fst] in En. subst n.
    rewrite Forall_forall in Hf. specialize (Hf _ Hp). cbn [fst snd] in Hf.
    rewrite Hh in Hf. inversion Hf; subst. exact Hp. }
  unfold dropna_rows.
  rewrite nrows_take_none by (eapply complete_rows_null_column; exact Hin).
  reflexivity.
Qed.

Lemma calculate_correlation_matrix_without_hours_witness :
  calculate_correlation_matrix (fun _ => None) (fun _ => None)
    (fun _ => mkCrossTab [VStr "speed_limit"] [VStr "speed_limit"] [[1%Q]])
    [("speed_limit"%string, [Some (VInt 30); Some (VInt 60)]);
     ("number_of_casualties"%string, [Some (VInt 1); Some (VInt 2)]);
     ("time"%string, [Some (VStr "noon"); Some (VStr "late")])] = Ok empty_frame.
Proof.
  apply (@calculate_correlation_matrix_without_hours
           (fun _ => None) (fun _ => None)
           (fun _ => mkCrossTab [VStr "speed_limit"] [VStr "speed_limit"] [[1%Q]])
           [("speed_limit"%string, [Some (VInt 30); Some (VInt 60)]);
            ("number_of_casualties"%string, [Some (VInt 1); Some (VInt 2)]);
            ("time"%string, [Some (VStr "noon"); Some (VStr "late")])]).
  simpl. split; reflexivity.
Defined.


(* ------------------------------------------------------------------ *)
(** ** Environmental conditions *)

Lemma collapsed_crosstab_index (df : DataFrame) (column : string) (min_count : Z) :
  has_column column df = true -> has_column "severity" df = true ->
  exists col t,
    getitem df column = Ok col /\
    collapsed_crosstab df column min_count = Ok t /\
    NoDup (ct_index t) /\
    Forall (fun v => v = VStr "Other" \/ (min_count <= Z.of_nat (freq v col))%Z)
           (ct_index t).
Proof.
  intros Hc Hs.
  apply has_column_getitem in Hc as [col Hcol].
  apply has_column_getitem in Hs as [sev Hsev].
  unfold collapsed_crosstab. rewrite Hcol. cbn [bind].
  rewrite getitem_setitem_same. cbn [bind]. rewrite getitem_setitem.
  assert (G : forall sv, exists t,
             Ok (crosstab (group_rare col min_count "Other") sv) = Ok t /\
             NoDup (ct_index t) /\
             Forall (fun v => v = VStr "Other" \/ (min_count <= Z.of_nat (freq v col))%Z)
                    (ct_index t)).
  { intro sv. eexists. split; [reflexivity|]. cbn [crosstab ct_index].
    split; [apply group_keys_NoDup|].
    apply Forall_forall. intros v Hv. apply (proj1 (group_keys_In v _)) in Hv.
    apply in_map_iff in Hv as ([x y] & E & Hp). cbn [fst] in E. subst x.
    apply valid_pairs_In in Hp as [Hp _].
    rewrite group_rare_map in Hp. apply in_map_iff in Hp as (c & E & _).
    destruct c as [w|]; [|discriminate]. simpl in E.
    destruct (Z.ltb (Z.of_nat (freq w col)) min_count) eqn:El.
    - inversion E. now left.
    - inversion E. subst. right. now apply Z.ltb_ge. }
  destruct (String.eqb "severity" column).
  - destruct (G (group_rare col min_count "Other")) as (t & Ht & Hn & Hf).
    exists col, t. cbn [bind]. tauto.
  - rewrite Hsev. cbn [bind]. destruct (G sev) as (t & Ht & Hn & Hf).
    exists col, t. tauto.
Qed.

(** X16. [prepare_environmental_analysis] never raises.  Each of its
    three tables is present exactly when the table has the staged column
    and [severity]; its row labels are distinct, and each is [Other] or a
    value that occurs at least 500 times in that column of the input: a
    rarer value has no row of its own. *)
Theorem prepare_environmental_analysis_labels (df : DataFrame) :
  exists r,
    prepare_environmental_analysis df = Ok r /\
    collapsed_index_ok df "weather_conditions"
      (option_map (@ct_index Q) (weather_severity r)) /\
    collapsed_index_ok df "road_type"
      (option_map (@ct_index nat) (road_type_severity r)) /\
    collapsed_index_ok df "light_conditions"
      (option_map (@ct_index Q) (light_severity r)).
Proof.
  unfold prepare_environmental_analysis.
  assert (G : forall column,
             exists o,
               (if has_column column df && has_column "severity" df
                then t <- collapsed_crosstab df column 500 ;; Ok (Some t)
                else Ok None) = Ok o /\
               collapsed_index_ok df column (option_map (@ct_index nat) o)).
  { intro column.
    destruct (has_column column df && has_column "severity" df) eqn:E.
    - apply andb_prop in E as [Hc Hs].
      destruct (@collapsed_crosstab_index df column 500 Hc Hs)
        as (col & t & Hcol & Ht & Hn & Hf).
      exists (Some t). rewrite Ht. cbn [bind]. split; [reflexivity|].
      exists col. tauto.
    - exists None. split; [reflexivity | exact E]. }
  destruct (G "weather_conditions"%string) as (w & Hw & Pw).
  destruct (G "road_type"%string) as (r & Hr & Pr).
  destruct (G "light_conditions"%string) as (l & Hl & Pl).
  exists (mkEnvironmental
            (option_map (fun t => round_table (scale 100 (normalize_index t))) w) r
            (option_map (fun t => round_table (scale 100 (normalize_index t))) l)).
  split.
  - destruct (has_column "weather_conditions" df && has_column "severity" df);
      destruct (has_column "road_type" df && has_column "severity" df);
      destruct (has_column "light_conditions" df && has_column "severity" df);
      repeat match goal with
      | H : (x <- ?c ;; _) = Ok _ |- _ =>
          destruct c; cbn [bind] in H; [|discriminate]
      | H : Ok _ = Ok _ |- _ => inversion H; clear H; subst
      end; reflexivity.
  - cbn [weather_severity road_type_severity light_severity].
    split; [|split]; [destruct w | assumption | destruct l]; assumption.
Qed.


(* ------------------------------------------------------------------ *)
(** ** Binned heatmap *)

Lemma cut_speed_bins (x : Z) : cut speed_bins speed_labels x = speed_bin_of x.
Proof.
  unfold cut, speed_bins, speed_labels, speed_bin_of. cbn [cut_from].
  repeat match goal with
  | |- context [Z.leb ?a ?b] => destruct (Z.leb_spec a b)
  | |- context [Z.ltb ?a ?b] => destruct (Z.ltb_spec a b)
  end; cbn [andb]; try reflexivity; lia.
Qed.

Lemma bin_cell_int (x : Z) : bin_cell (Some (VInt x)) = option_map VStr (speed_bin_of x).
Proof. unfold bin_cell. now rewrite cut_speed_bins. Qed.

Lemma cut_series_ok (s : Series) :
  Forall int_or_null s -> cut_series speed_bins speed_labels s = Ok (map bin_cell s).
Proof.
  induction 1 as [|c t Hc _ IH]; [reflexivity|].
  cbn [cut_series map]. rewrite IH.
  destruct c as [[x|w|y m d]|]; try contradiction; reflexivity.
Qed.

Lemma cut_series_bad (s : Series) :
  Exists (fun c => ~ int_or_null c) s ->
  cut_series speed_bins speed_labels s = Raise TypeError.
Proof.
  induction s as [|c t IH]; intro H; [inversion H|].
  cbn [cut_series].
  destruct c as [[x|w|y m d]|]; try reflexivity;
    (inversion H as [? ? Hc|? ? Ht]; subst; [exfalso; apply Hc; exact I|]);
    rewrite (IH Ht); reflexivity.
Qed.

Lemma select_Forall (P : cell -> Prop) (mask : list bool) (s : Series) :
  Forall P s -> Forall P (select mask s).
Proof.
  intro H. revert mask. induction H as [|c t Hc _ IH]; intros [|b m]; try constructor.
  cbn [select]. destruct b; [constructor; [assumption | apply IH] | apply IH].
Qed.

Lemma select_nonnull_Exists (s : Series) :
  Exists (fun c => ~ int_or_null c) s ->
  Exists (fun c => ~ int_or_null c) (select (map (fun c => negb (isnull c)) s) s).
Proof.
  induction 1 as [c t Hc|c t _ IH]; cbn [map select].
  - destruct c as [v|]; [|exfalso; apply Hc; exact I]. now constructor.
  - destruct c as [v|]; cbn [isnull negb]; [now constructor 2 | assumption].
Qed.

Lemma select_nil_r (mask : list bool) : select mask [] = [].
Proof. destruct mask; reflexivity. Qed.

Lemma valid_pairs_nil_r (a : Series) : valid_pairs a [] = [].
Proof. destruct a as [|[v|] t]; reflexivity. Qed.

Lemma occupied_rows (speed sev : Series) (l : string) :
  existsb (val_eqb (VStr l))
    (map fst (valid_pairs
                (map bin_cell (select (map (fun c => negb (isnull c)) speed) speed))
                (select (map (fun c => negb (isnull c)) speed) sev))) =
  bin_occupied speed sev l.
Proof.
  unfold bin_occupied. revert sev.
  induction speed as [|c t IH]; intros [|d u]; try reflexivity.
  - rewrite select_nil_r, valid_pairs_nil_r. reflexivity.
  - cbn [map select combine existsb fst snd].
    destruct c as [v|]; cbn [isnull negb]; [|apply IH].
    cbn [map]. destruct v as [x|w|y m dd].
    + rewrite bin_cell_int.
      destruct (speed_bin_of x) as [l'|]; destruct d as [sv|];
        cbn [option_map valid_pairs map fst existsb val_eqb orb]; now rewrite IH.
    + change (bin_cell (Some (VStr w))) with (@None val).
      destruct d; cbn [valid_pairs orb]; apply IH.
    + change (bin_cell (Some (VDate y m dd))) with (@None val).
      destruct d; cbn [valid_pairs orb]; apply IH.
Qed.

Lemma prepare_severity_speed_heatmap_run (df : DataFrame) (speed sev : Series) :
  getitem df "speed_limit" = Ok speed ->
  getitem df "severity" = Ok sev ->
  let mask := map (fun c => negb (isnull c)) speed in
  prepare_severity_speed_heatmap df =
  match cut_series speed_bins speed_labels (select mask speed) with
  | Ok bins =>
      round_table
        (scale 100 (normalize_index
                      (crosstab_categorical (map VStr speed_labels) bins
                         (select mask sev))))
  | Raise _ => empty_frame
  end.
Proof.
  intros Hsp Hsv mask. unfold prepare_severity_speed_heatmap.
  assert (H1 : has_column "severity" df = true) by (apply has_column_getitem; eauto).
  assert (H2 : has_column "speed_limit" df = true) by (apply has_column_getitem; eauto).
  rewrite H1, H2, Hsp. cbn [andb]. fold mask. unfold speed_heatmap_table.
  rewrite getitem_take_rows, Hsp. cbn [bind].
  destruct (cut_series speed_bins speed_labels (select mask speed)) as [bins|e];
    cbn [bind]; [|reflexivity].
  rewrite getitem_setitem_same. cbn [bind].
  rewrite getitem_setitem. eval_eqb. rewrite getitem_take_rows, Hsv. reflexivity.
Qed.

(** X17. On a table with [speed_limit] and [severity] columns,
    [prepare_severity_speed_heatmap] never raises.  When the speed
    limits are numbers or missing, the rows of the table are the speed
    bands, in their fixed order, occupied by a row that has a speed limit
    of the band and a severity: the bands are 0 to 20, 21 to 30, ..., 61
    to 70 and 71 to 100, a band that no such row occupies is absent, and
    a speed limit below 0 or above 100 is counted in no band; the table
    has one line of cells per band and one cell per severity column.
    When some speed limit is a text or a date the result is the empty
    table. *)
Theorem prepare_severity_speed_heatmap_bands (df : DataFrame) (speed sev : Series) :
  getitem df "speed_limit" = Ok speed ->
  getitem df "severity" = Ok sev ->
  let t := prepare_severity_speed_heatmap df in
  (Forall int_or_null speed ->
     ct_index t = map VStr (filter (bin_occupied speed sev) speed_labels) /\
     List.length (ct_data t) = List.length (ct_index t) /\
     Forall (fun line => List.length line = List.length (ct_columns t)) (ct_data t)) /\
  (Exists (fun c => ~ int_or_null c) speed -> t = empty_frame).
Proof.
  intros Hsp Hsv t. unfold t.
  rewrite (@prepare_severity_speed_heatmap_run df speed sev Hsp Hsv). cbv zeta.
  split.
  - intro Hnum.
    rewrite cut_series_ok by now apply select_Forall.
    cbn [round_table scale normalize_index crosstab_categorical ct_index ct_columns ct_data].
    split; [|split].
    + rewrite filter_map_swap. f_equal. apply filter_ext. intro l.
      apply occupied_rows.
    + now rewrite !length_map.
    + rewrite !Forall_map. apply Forall_forall. intros v _. now rewrite !length_map.
  - intro Hbad.
    now rewrite cut_series_bad by now apply select_nonnull_Exists.
Qed.

Lemma prepare_severity_speed_heatmap_bands_witness :
  ct_index (prepare_severity_speed_heatmap
              [("speed_limit"%string,
                [Some (VInt 30); Some (VInt 20); None; Some (VInt 101); Some (VInt 21);
                 Some (VInt 70)]);
               ("severity"%string,
                [Some (VStr "Slight"); Some (VStr "Fatal"); Some (VStr "Slight");
                 Some (VStr "Slight"); Some (VStr "Serious"); None])]) =
  [VStr "≤20"; VStr "21-30"].
Proof.
  destruct (@prepare_severity_speed_heatmap_bands
              [("speed_limit"%string,
                [Some (VInt 30); Some (VInt 20); None; Some (VInt 101); Some (VInt 21);
                 Some (VInt 70)]);
               ("severity"%string,
                [Some (VStr "Slight"); Some (VStr "Fatal"); Some (VStr "Slight");
                 Some (VStr "Slight"); Some (VStr "Serious"); None])]
              [Some (VInt 30); Some (VInt 20); None; Some (VInt 101); Some (VInt 21);
               Some (VInt 70)]
              [Some (VStr "Slight"); Some (VStr "Fatal"); Some (VStr "Slight");
               Some (VStr "Slight"); Some (VStr "Serious"); None]
              eq_refl eq_refl) as [H _].
  destruct H as [H _]; [repeat constructor|].
  rewrite H. reflexivity.
Defined.


(* ------------------------------------------------------------------ *)
(** ** Weekdays and weekends *)








(* ------------------------------------------------------------------ *)
(** ** Counts of pairs: stacked bars and months *)

Lemma count_pair_pos (p : val * val) (ps : list (val * val)) :
  In p ps -> 1 <= count_pair p ps.
Proof.
  induction ps as [|q t IH]; [intros []|].
  rewrite count_pair_cons. intros [->|H].
  - assert (E : pair_eqb p p = true) by now apply pair_eqb_eq. rewrite E. lia.
  - apply IH in H. lia.
Qed.

Lemma sum_count_pairs_cover (keys ps : list (val * val)) :
  NoDup keys -> (forall p, In p ps -> In p keys) ->
  sum_nat (map (fun k => count_pair k ps) keys) = List.length ps.
Proof.
  intro Hnd. induction ps as [|p t IH]; intro Hcov.
  - apply sum_nat_map_zero. reflexivity.
  - rewrite (map_ext _ (fun k => (if pair_eqb k p then 1 else 0) + count_pair k t))
      by (intro; apply count_pair_cons).
    rewrite sum_nat_map_add, IH by (intros; apply Hcov; now right).
    rewrite (sum_indicator pair_eqb pair_eqb_eq); [reflexivity | assumption |].
    apply Hcov. now left.
Qed.

Lemma pair_leb_total (p q : val * val) : pair_leb p q = true \/ pair_leb q p = true.
Proof.
  unfold pair_leb. destruct (val_eqb (fst p) (fst q)) eqn:E.
  - apply val_eqb_eq in E. rewrite E, val_eqb_refl. apply val_leb_total.
  - assert (E' : val_eqb (fst q) (fst p) = false).
    { apply val_eqb_neq. apply val_eqb_neq in E. congruence. }
    rewrite E'. apply val_leb_total.
Qed.

(** X19. [prepare_stacked_bar_data] raises [KeyError] when one of its
    two columns is missing, and nothing else.  Otherwise it returns the
    table of counts of the rows that have a value in both columns: one
    row per value of the first column and one column per value of the
    second that occur on such a row, both sorted and without repetition;
    a row's counts add up to the number of such rows with its value, at
    least 1, and all counts to the number of rows with both values. *)
Theorem prepare_stacked_bar_data_counts (df : DataFrame) (x_column color_column : string) :
  match getitem df x_column, getitem df color_column with
  | Ok xs, Ok cs =>
      let ps := valid_pairs xs cs in
      exists t,
        prepare_stacked_bar_data df x_column color_column = Ok t /\
        ct_index t = group_keys (map fst ps) /\
        ct_columns t = group_keys (map snd ps) /\
        Sorted (fun a b => val_leb a b = true) (ct_index t) /\
        Sorted (fun a b => val_leb a b = true) (ct_columns t) /\
        Forall2 (fun x line =>
                   line = map (fun c => count_pair (x, c) ps) (ct_columns t) /\
                   sum_nat line = group_size x ps /\ 1 <= sum_nat line)
                (ct_index t) (ct_data t) /\
        sum_nat (map sum_nat (ct_data t)) = List.length ps
  | _, _ => prepare_stacked_bar_data df x_column color_column = Raise KeyError
  end.
Proof.
  unfold prepare_stacked_bar_data.
  destruct (getitem df x_column) as [xs|e] eqn:Hx.
  2:{ apply getitem_raise in Hx. now subst e. }
  destruct (getitem df color_column) as [cs|e] eqn:Hc.
  2:{ apply getitem_raise in Hc. now subst e. }
  cbv zeta. cbn [bind]. set (ps := valid_pairs xs cs).
  assert (Hrow : forall x, sum_nat (map (fun c => count_pair (x, c) ps)
                                      (group_keys (map snd ps))) = group_size x ps).
  { intro x. apply sum_count_pair_cover; [apply group_keys_NoDup|].
    intros p Hp _. now apply valid_pairs_snd_cover. }
  eexists. split; [reflexivity|]. cbn [crosstab ct_index ct_columns ct_data]. fold ps.
  split; [reflexivity|]. split; [reflexivity|].
  split; [apply group_keys_sorted|]. split; [apply group_keys_sorted|]. split.
  - apply Forall2_map_self. intros x Hx'. split; [reflexivity|].
    rewrite Hrow. split; [reflexivity|].
    apply group_size_pos. apply (proj1 (group_keys_In x (map fst ps))). exact Hx'.
  - rewrite map_map. rewrite (map_ext _ (fun x => group_size x ps)) by apply Hrow.
    apply sum_group_size_cover; [apply group_keys_NoDup|].
    intros p Hp. apply group_keys_In. now apply in_map.
Qed.

(** X20. For the frequency [month], on a table with [year] and [month]
    columns, [prepare_time_series_data] returns one row per pair of a
    year and a month that occur together on a row, ordered by year and
    then by month, without repetition; each count is the number of rows
    of that year and month, at least 1, and the counts add up to the
    number of rows that have both a year and a month. *)
Theorem prepare_time_series_data_months (df : DataFrame) (ys ms : Series) :
  getitem df "year" = Ok ys ->
  getitem df "month" = Ok ms ->
  let ps := valid_pairs ys ms in
  exists keys,
    prepare_time_series_data df "month" =
      Ok [("year"%string, map (fun k => Some (fst k)) keys);
          ("month"%string, map (fun k => Some (snd k)) keys);
          ("count"%string, map (fun k => int_cell (count_pair k ps)) keys)] /\
    Sorted (fun a b => pair_leb a b = true) keys /\
    NoDup keys /\
    (forall k, In k keys <-> In k ps) /\
    Forall (fun k => 1 <= count_pair k ps) keys /\
    sum_nat (map (fun k => count_pair k ps) keys) = List.length ps.
Proof.
  intros Hy Hm ps. exists (sort_by pair_leb (dedup pair_eqb ps)).
  assert (Hin : forall k, In k (sort_by pair_leb (dedup pair_eqb ps)) <-> In k ps).
  { intro k. rewrite <- (dedup_In pair_eqb pair_eqb_eq k ps).
    split; apply Permutation_in; [|symmetry]; apply sort_by_perm. }
  assert (Hnd : NoDup (sort_by pair_leb (dedup pair_eqb ps))).
  { apply (Permutation_NoDup (l := dedup pair_eqb ps)).
    - symmetry. apply sort_by_perm.
    - apply dedup_NoDup. exact pair_eqb_eq. }
  split; [|split; [|split; [|split; [|split]]]].
  - unfold prepare_time_series_data. eval_eqb. cbv iota.
    unfold groupby_size2. rewrite Hy, Hm. cbn [bind]. unfold group_sizes2. fold ps.
    now rewrite !map_map.
  - apply sort_by_sorted. exact pair_leb_total.
  - exact Hnd.
  - exact Hin.
  - apply Forall_forall. intros k Hk. apply count_pair_pos. now apply Hin.
  - apply sum_count_pairs_cover; [exact Hnd|]. intros p Hp. now apply Hin.
Qed.

Lemma prepare_time_series_data_months_witness :
  exists keys,
    prepare_time_series_data
      [("year"%string, [Some (VInt 2019); Some (VInt 2018); Some (VInt 2019); None]);
       ("month"%string, [Some (VInt 3); Some (VInt 12); Some (VInt 3); Some (VInt 1)])]
      "month" =
      Ok [("year"%string, map (fun k => Some (fst k)) keys);
          ("month"%string, map (fun k => Some (snd k)) keys);
          ("count"%string,
           map (fun k => int_cell (count_pair k [(VInt 2019, VInt 3); (VInt 2018, VInt 12);
                                                 (VInt 2019, VInt 3)])) keys)] /\
    sum_nat (map (fun k => count_pair k [(VInt 2019, VInt 3); (VInt 2018, VInt 12);
                                         (VInt 2019, VInt 3)]) keys) = 3.
Proof.
  destruct (@prepare_time_series_data_months
              [("year"%string, [Some (VInt 2019); Some (VInt 2018); Some (VInt 2019); None]);
               ("month"%string, [Some (VInt 3); Some (VInt 12); Some (VInt 3); Some (VInt 1)])]
              [Some (VInt 2019); Some (VInt 2018); Some (VInt 2019); None]
              [Some (VInt 3); Some (VInt 12); Some (VInt 3); Some (VInt 1)]
              eq_refl eq_refl) as (keys & H & _ & _ & _ & _ & Hsum).
  exists keys. split; [exact H | exact Hsum].
Defined.


(* ------------------------------------------------------------------ *)
(** ** Demographics *)

Lemma has_column_setitem (df : DataFrame) (n m : string) (s : Series) :
  has_column n (setitem df m s) = String.eqb n m || has_column n df.
Proof.
  unfold has_column. induction df as [|[k c] rest IH]; simpl.
  - reflexivity.
  - destruct (String.eqb m k) eqn:E; simpl.
    + apply String.eqb_eq in E. subst k.
      destruct (String.eqb n m); reflexivity.
    + rewrite IH. destruct (String.eqb n m), (String.eqb n k); reflexivity.
Qed.

Lemma extract_hour_setitem (hours_strict hours_any : Series -> option Series)
    (df : DataFrame) :
  exists h, extract_hour_from_time hours_strict hours_any df = setitem df "hour" h.
Proof.
  unfold extract_hour_from_time.
  destruct (has_column "time" df); [|eauto].
  destruct (getitem df "time") as [t|e]; [|eauto].
  destruct (hours_strict t); [eauto|]. destruct (hours_any t); eauto.
Qed.

Lemma select_nonnull_repeat (n : nat) (s : Series) :
  select (map (fun c => negb (isnull c)) (repeat (@None val) n)) s = [].
Proof.
  apply select_none. apply Forall_forall. intros b Hb.
  apply in_map_iff in Hb as (c & <- & Hc). apply repeat_spec in Hc. now subst c.
Qed.

(** X21. [prepare_demographic_severity_analysis] never raises.  The
    age table is present exactly when the table has [age_grp] and
    [severity]; the gender table exactly when it has [gender] and
    [road_conditions], and each of its column labels is [Other] or a road
    condition that occurs at least 1000 times in the input; the table by
    hour and gender is present exactly when the table has [age_grp] and
    [gender], has the columns [hour], [gender] and [count], and has no
    row at all when the table has no [time] column or neither parse
    accepts it. *)
Theorem prepare_demographic_severity_analysis_results
    (hours_strict hours_any : Series -> option Series) (df : DataFrame) :
  exists r,
    prepare_demographic_severity_analysis hours_strict hours_any df = Ok r /\
    (age_severity_heatmap r = None <->
     has_column "age_grp" df && has_column "severity" df = false) /\
    match gender_road_conditions r with
    | Some t =>
        exists road,
          getitem df "road_conditions" = Ok road /\
          has_column "gender" df = true /\
          Forall (fun v => v = VStr "Other" \/ (1000 <= Z.of_nat (freq v road))%Z)
                 (ct_columns t)
    | None => has_column "gender" df && has_column "road_conditions" df = false
    end /\
    match age_gender_time r with
    | Some t =>
        has_column "age_grp" df && has_column "gender" df = true /\
        map fst t = ["hour"; "gender"; "count"]%string /\
        (match getitem df "time" with
         | Ok tm => hours_strict tm = None /\ hours_any tm = None
         | Raise _ => True
         end -> rows t = [])
    | None => has_column "age_grp" df && has_column "gender" df = false
    end.
Proof.
  assert (G1 : exists o,
             (if has_column "age_grp" df && has_column "severity" df
              then age <- getitem df "age_grp" ;;
                   sev <- getitem df "severity" ;;
                   Ok (Some (round_table (scale 100 (normalize_index (crosstab age sev)))))
              else Ok None) = Ok o /\
             (o = None <-> has_column "age_grp" df && has_column "severity" df = false)).
  { destruct (has_column "age_grp" df && has_column "severity" df) eqn:E.
    - apply andb_prop in E as [Ha Hs].
      apply has_column_getitem in Ha as [age Ha].
      apply has_column_getitem in Hs as [sev Hs].
      rewrite Ha, Hs. cbn [bind]. eexists. split; [reflexivity|].
      split; discriminate.
    - exists None. split; [reflexivity | tauto]. }
  assert (G2 : exists o,
             (if has_column "gender" df && has_column "road_conditions" df
              then road <- getitem df "road_conditions" ;;
                   gender <- getitem (setitem df "road_conditions"
                                        (group_rare road 1000 "Other")) "gender" ;;
                   road0 <- getitem (setitem df "road_conditions"
                                       (group_rare road 1000 "Other")) "road_conditions" ;;
                   Ok (Some (round_table (scale 100
                               (normalize_index (crosstab gender road0)))))
              else Ok None) = Ok o /\
             match o with
             | Some t =>
                 exists road,
                   getitem df "road_conditions" = Ok road /\
                   has_column "gender" df = true /\
                   Forall (fun v => v = VStr "Other" \/ (1000 <= Z.of_nat (freq v road))%Z)
                          (ct_columns t)
             | None => has_column "gender" df && has_column "road_conditions" df = false
             end).
  { destruct (has_column "gender" df && has_column "road_conditions" df) eqn:E.
    - apply andb_prop in E as [Hg Hr]. pose proof Hg as Hg'.
      apply has_column_getitem in Hg as [gender Hg].
      apply has_column_getitem in Hr as [road Hr].
      rewrite Hr. cbn [bind]. rewrite getitem_setitem. eval_eqb. rewrite Hg. cbn [bind].
      rewrite getitem_setitem_same. cbn [bind].
      eexists. split; [reflexivity|]. exists road. split; [reflexivity|].
      split; [exact Hg'|].
      cbn [round_table scale normalize_index crosstab ct_columns].
      apply Forall_forall. intros v Hv. apply (proj1 (group_keys_In v _)) in Hv.
      apply in_map_iff in Hv as ([x y] & Ey & Hp). cbn [snd] in Ey. subst y.
      apply valid_pairs_In in Hp as [_ Hp].
      rewrite group_rare_map in Hp. apply in_map_iff in Hp as (c & Ec & _).
      destruct c as [w|]; [|discriminate]. simpl in Ec.
      destruct (Z.ltb (Z.of_nat (freq w road)) 1000) eqn:El.
      + inversion Ec. now left.
      + inversion Ec. subst. right. now apply Z.ltb_ge.
    - exists None. split; [reflexivity | reflexivity]. }
  destruct (extract_hour_setitem hours_strict hours_any df) as [h Hh].
  assert (G3 : exists o,
             (if has_column "hour" (setitem df "hour" h)
                 && has_column "age_grp" (setitem df "hour" h)
                 && has_column "gender" (setitem df "hour" h)
              then hour <- getitem (setitem df "hour" h) "hour" ;;
                   t <- groupby_size2
                          (take_rows (map (fun c => negb (isnull c)) hour)
                             (setitem df "hour" h)) "hour" "gender" ;;
                   Ok (Some t)
              else Ok None) = Ok o /\
             match o with
             | Some t =>
                 has_column "age_grp" df && has_column "gender" df = true /\
                 map fst t = ["hour"; "gender"; "count"]%string /\
                 (h = repeat None (nrows df) -> rows t = [])
             | None => has_column "age_grp" df && has_column "gender" df = false
             end).
  { rewrite !has_column_setitem. eval_eqb. cbn [orb andb].
    destruct (has_column "age_grp" df && has_column "gender" df) eqn:E.
    - apply andb_prop in E as [_ Hg].
      apply has_column_getitem in Hg as [gender Hg].
      rewrite getitem_setitem_same. cbn [bind]. unfold groupby_size2.
      rewrite !getitem_take_rows, getitem_setitem_same. cbn [bind].
      rewrite getitem_setitem. eval_eqb. rewrite Hg. cbn [bind].
      eexists. split; [reflexivity|]. split; [reflexivity|]. split; [reflexivity|].
      intros ->. rewrite !select_nonnull_repeat. reflexivity.
    - exists None. split; reflexivity. }
  destruct G1 as (o1 & E1 & P1). destruct G2 as (o2 & E2 & P2).
  destruct G3 as (o3 & E3 & P3).
  exists (mkDemographic o1 o2 o3).
  split.
  - unfold prepare_demographic_severity_analysis. cbv zeta.
    rewrite E1. cbn [bind]. rewrite E2. cbn [bind]. rewrite Hh, E3. reflexivity.
  - cbn [age_severity_heatmap gender_road_conditions age_gender_time].
    split; [exact P1|]. split; [exact P2|].
    destruct o3 as [t|]; [|exact P3].
    destruct P3 as (Q1 & Q2 & Q3). split; [exact Q1|]. split; [exact Q2|].
    intro Hun. apply Q3.
    pose proof (extract_hour_unparsed hours_strict hours_any df Hun) as Hu.
    rewrite Hh in Hu.
    assert (Eg : getitem (setitem df "hour" h) "hour" =
                 getitem (setitem df "hour" (repeat None (nrows df))) "hour")
      by now rewrite Hu.
    rewrite !getitem_setitem_same in Eg. now inversion Eg.
Qed.


(* ------------------------------------------------------------------ *)
(** ** Feature Deriver: cleaned texts *)

Lemma ascii_cases (P : ascii -> Prop) :
  (forall b0 b1 b2 b3 b4 b5 b6 b7 : bool, P (Ascii b0 b1 b2 b3 b4 b5 b6 b7)) ->
  forall c, P c.
Proof. intros H [b0 b1 b2 b3 b4 b5 b6 b7]. apply H. Qed.

Ltac by_ascii_cases :=
  let c := fresh "c" in
  intro c; pattern c; apply ascii_cases;
  intros [] [] [] [] [] [] [] []; vm_compute; try reflexivity; try discriminate; auto.

Lemma to_lower_idem : forall c, to_lower (to_lower c) = to_lower c.
Proof. by_ascii_cases. Qed.

Lemma to_upper_idem : forall c, to_upper (to_upper c) = to_upper c.
Proof. by_ascii_cases. Qed.

Lemma to_upper_lower : forall c, to_upper (to_lower c) = to_upper c.
Proof. by_ascii_cases. Qed.

Lemma cased_to_lower : forall c, cased (to_lower c) = cased c.
Proof. by_ascii_cases. Qed.

Lemma cased_to_upper : forall c, cased (to_upper c) = cased c.
Proof. by_ascii_cases. Qed.

Lemma space_to_lower : forall c, is_space (to_lower c) = is_space c.
Proof. by_ascii_cases. Qed.

Lemma space_to_upper : forall c, is_space (to_upper c) = is_space c.
Proof. by_ascii_cases. Qed.

Lemma to_lower_uncased : forall c, cased c = false -> to_lower c = c.
Proof.
  intro c. pattern c. apply ascii_cases.
  intros [] [] [] [] [] [] [] []; vm_compute; intro H;
    first [reflexivity | discriminate H].
Qed.

Lemma title_from_cons (p : bool) (c : ascii) (t : string) :
  title_from p (String c t) =
  if cased c then String (if p then to_lower c else to_upper c) (title_from true t)
  else String c (title_from false t).
Proof. reflexivity. Qed.

Lemma title_from_idem (p : bool) (s : string) :
  title_from p (title_from p s) = title_from p s.
Proof.
  revert p. induction s as [|c t IH]; intro p; [reflexivity|].
  rewrite title_from_cons. destruct (cased c) eqn:E.
  - rewrite title_from_cons.
    assert (E' : cased (if p then to_lower c else to_upper c) = true)
      by (destruct p; [rewrite cased_to_lower | rewrite cased_to_upper]; exact E).
    rewrite E', IH. f_equal.
    destruct p; [apply to_lower_idem | apply to_upper_idem].
  - rewrite title_from_cons, E, IH. reflexivity.
Qed.

Lemma title_from_lower (p : bool) (s : string) :
  title_from p (lower s) = title_from p s.
Proof.
  revert p. induction s as [|c t IH]; intro p; [reflexivity|].
  cbn [lower]. rewrite !title_from_cons, cased_to_lower, !IH.
  destruct (cased c) eqn:E; f_equal.
  - destruct p; [apply to_lower_idem | apply to_upper_lower].
  - now apply to_lower_uncased.
Qed.

(** White space stays where it is under [title]. *)
Lemma title_from_spaces (p : bool) (s : string) :
  map is_space (list_ascii_of_string (title_from p s)) =
  map is_space (list_ascii_of_string s).
Proof.
  revert p. induction s as [|c t IH]; intro p; [reflexivity|].
  rewrite title_from_cons. destruct (cased c); cbn [list_ascii_of_string map];
    rewrite IH; [|reflexivity].
  f_equal. destruct p; [apply space_to_lower | apply space_to_upper].
Qed.

Lemma lstrip_clean (l : list ascii) : starts_clean (lstrip l).
Proof.
  induction l as [|c t IH]; simpl; [exact I|].
  destruct (is_space c) eqn:E; [exact IH | exact E].
Qed.

Lemma lstrip_id (l : list ascii) : starts_clean l -> lstrip l = l.
Proof. destruct l as [|c t]; simpl; [reflexivity|]. now intros ->. Qed.

Lemma lstrip_snoc (l : list ascii) (c : ascii) :
  is_space c = false -> lstrip (l ++ [c]) = lstrip l ++ [c].
Proof.
  intro Hc. induction l as [|a t IH]; simpl; [now rewrite Hc|].
  destruct (is_space a); [exact IH | reflexivity].
Qed.

Lemma rstrip_clean (m : list ascii) :
  starts_clean m -> starts_clean (rev (lstrip (rev m))).
Proof.
  destruct m as [|c t]; [intros _; exact I|]. simpl. intro Hc.
  rewrite lstrip_snoc by assumption. now rewrite rev_app_distr.
Qed.

Lemma starts_clean_spaces (l m : list ascii) :
  map is_space l = map is_space m -> starts_clean l -> starts_clean m.
Proof.
  destruct l as [|a l'], m as [|b m']; simpl; try discriminate; auto.
  intros E H. inversion E. congruence.
Qed.

Lemma strip_fixed (s : string) :
  starts_clean (list_ascii_of_string s) ->
  starts_clean (rev (list_ascii_of_string s)) ->
  strip s = s.
Proof.
  intros H1 H2. unfold strip.
  rewrite (lstrip_id _ H1), (lstrip_id _ H2), rev_involutive.
  apply string_of_list_ascii_of_string.
Qed.

Lemma strip_clean (s : string) :
  starts_clean (list_ascii_of_string (strip s)) /\
  starts_clean (rev (list_ascii_of_string (strip s))).
Proof.
  unfold strip. rewrite list_ascii_of_string_of_list_ascii. split.
  - apply rstrip_clean, lstrip_clean.
  - rewrite rev_involutive. apply lstrip_clean.
Qed.

Lemma strip_title_strip (s : string) : strip (title (strip s)) = title (strip s).
Proof.
  destruct (strip_clean s) as [H1 H2]. unfold title.
  pose proof (title_from_spaces false (strip s)) as E.
  apply strip_fixed.
  - apply (starts_clean_spaces (list_ascii_of_string (strip s))); [now symmetry | exact H1].
  - apply (starts_clean_spaces (rev (list_ascii_of_string (strip s)))); [|exact H2].
    rewrite !map_rev. now rewrite E.
Qed.

(** X22. The cleaning of [preprocess] is a normal form.  Cleaning a
    cleaned cell changes nothing; a cleaned text has no white space at
    either end; and two raw texts that agree after stripping, letter
    case apart, are cleaned to the same text, so that [ fatal ] and
    [FATAL] are both read as [Fatal]. *)
Theorem clean_text_normal_form (repr : val -> string) :
  (forall c, clean_text repr (clean_text repr c) = clean_text repr c) /\
  (forall c s, clean_text repr c = Some (VStr s) -> strip s = s) /\
  (forall s t, lower (strip s) = lower (strip t) ->
               clean_text repr (Some (VStr s)) = clean_text repr (Some (VStr t))) /\
  clean_text repr (Some (VStr " fatal ")) = Some (VStr "Fatal") /\
  clean_text repr (Some (VStr "FATAL")) = Some (VStr "Fatal").
Proof.
  split; [|split; [|split; [|split]]].
  - intro c. unfold clean_text. cbn [astype_str].
    rewrite strip_title_strip. unfold title. now rewrite title_from_idem.
  - intros c s H. unfold clean_text in H. inversion H. apply strip_title_strip.
  - intros s t H. unfold clean_text. cbn [astype_str]. unfold title.
    now rewrite <- (title_from_lower false (strip s)), H, title_from_lower.
  - reflexivity.
  - reflexivity.
Qed.


(* ------------------------------------------------------------------ *)
(** ** Indicators of a filtered table *)

Lemma calculate_kpis_counts
    (series_sum : Series -> Z) (series_mean : Series -> Q) (span_text : Series -> string)
    (df : DataFrame) (sev : Series) :
  well_formed df ->
  getitem df "severity" = Ok sev ->
  exists k,
    calculate_kpis series_sum series_mean span_text df = Ok k /\
    total_accidents k = nrows df /\
    fatal_accidents k = freq (VStr "Fatal") sev /\
    serious_accidents k = freq (VStr "Serious") sev /\
    slight_accidents k = freq (VStr "Slight") sev.
Proof.
  intros Hwf Hs. unfold calculate_kpis.
  assert (H1 : has_column "severity" df = true) by (apply has_column_getitem; eauto).
  rewrite H1, !(count_label_freq _ Hwf Hs).
  assert (Hget : forall name, has_column name df = true ->
                              exists c, getitem df name = Ok c)
    by (intros; now apply has_column_getitem).
  destruct (has_column "number_of_casualties" df) eqn:Ec;
    [destruct (Hget _ Ec) as [c Hc]; rewrite Hc|];
    (destruct (has_column "number_of_vehicles" df) eqn:Ev;
     [destruct (Hget _ Ev) as [v Hv]; rewrite Hv|]);
    (destruct (has_column "year" df) eqn:Ey;
     [destruct (Hget _ Ey) as [y Hy]; rewrite Hy|]);
    cbn [bind andb];
    (destruct (0 <? nrows df); cbn [bind];
     eexists; (split; [reflexivity|]); cbn [total_accidents fatal_accidents
       serious_accidents slight_accidents];
     repeat split; reflexivity).
Qed.

Lemma select_map_filter (f : cell -> bool) (s : Series) :
  select (map f s) s = filter f s.
Proof.
  induction s as [|c t IH]; [reflexivity|].
  cbn [map select filter]. destruct (f c); now rewrite IH.
Qed.

Lemma freq_selected (labels : list string) (l : string) (s : Series) :
  freq (VStr l) (filter (cell_in labels) s) =
  if existsb (String.eqb l) labels then freq (VStr l) s else 0.
Proof.
  assert (Hin : cell_in labels (Some (VStr l)) = existsb (String.eqb l) labels).
  { unfold cell_in. induction labels as [|a t IH]; [reflexivity|].
    cbn [map existsb val_eqb]. now rewrite IH. }
  unfold freq. induction s as [|c t IH]; [now destruct (existsb (String.eqb l) labels)|].
  cbn [filter]. destruct (cell_eqb (Some (VStr l)) c) eqn:E.
  - apply cell_eqb_eq in E. subst c. rewrite Hin.
    destruct (existsb (String.eqb l) labels) eqn:El.
    + cbn [filter]. assert (R : cell_eqb (Some (VStr l)) (Some (VStr l)) = true)
        by now apply cell_eqb_eq.
      rewrite R. cbn [List.length]. now rewrite IH.
    + exact IH.
  - destruct (cell_in labels c); [|exact IH].
    cbn [filter]. now rewrite E.
Qed.

Lemma selected_labels (labels : list string) (s : Series) :
  incl labels ["Slight"; "Serious"; "Fatal"]%string ->
  filter is_severity_label (filter (cell_in labels) s) = filter (cell_in labels) s.
Proof.
  intro Hincl. rewrite <- (filter_true (filter (cell_in labels) s)) at 2.
  apply filter_ext_in. intros c Hc. apply filter_In in Hc as [_ Hc].
  destruct c as [v|]; [|discriminate]. unfold cell_in in Hc.
  apply existsb_exists in Hc as (w & Hw & E). apply val_eqb_eq in E. subst w.
  apply in_map_iff in Hw as (l & <- & Hl). apply Hincl in Hl.
  simpl in Hl. destruct Hl as [<-|[<-|[<-|[]]]]; reflexivity.
Qed.

(** X23. The indicators shown for a severity selection.  On a table
    with a [severity] column, filtering by a list of severity labels
    that is not empty and computing the indicators of the result gives:
    as total the number of rows whose severity is in the list; for each
    of Fatal, Serious and Slight its number of rows in the input when
    the label is in the list, and 0 otherwise; and when the list holds
    only these three labels, the three counts add up to the total. *)
Theorem calculate_kpis_after_severity_filter
    (series_sum : Series -> Z) (series_mean : Series -> Q) (span_text : Series -> string)
    (df : DataFrame) (sev : Series) (labels : list string) :
  well_formed df ->
  getitem df "severity" = Ok sev ->
  labels <> [] ->
  exists out k,
    filter_dataframe df None (Some labels) None None None None None None = Ok out /\
    calculate_kpis series_sum series_mean span_text out = Ok k /\
    total_accidents k = List.length (filter (cell_in labels) sev) /\
    fatal_accidents k =
      (if existsb (String.eqb "Fatal") labels then freq (VStr "Fatal") sev else 0) /\
    serious_accidents k =
      (if existsb (String.eqb "Serious") labels then freq (VStr "Serious") sev else 0) /\
    slight_accidents k =
      (if existsb (String.eqb "Slight") labels then freq (VStr "Slight") sev else 0) /\
    (incl labels ["Slight"; "Serious"; "Fatal"]%string ->
     slight_accidents k + serious_accidents k + fatal_accidents k = total_accidents k).
Proof.
  intros Hwf Hs Hne.
  assert (H1 : has_column "severity" df = true) by (apply has_column_getitem; eauto).
  pose proof (@key_column_length df "severity" sev Hwf Hs) as Hlen.
  set (out := take_rows (isin sev (map VStr labels)) df).
  assert (Hrun : filter_dataframe df None (Some labels) None None None None None None
                 = Ok out).
  { unfold filter_dataframe. cbn [bind apply_filters truthy andb].
    destruct labels as [|l ls]; [congruence|].
    rewrite H1, Hs. cbn [bind values_of]. reflexivity. }
  assert (Hmask : List.length (isin sev (map VStr labels)) = nrows df)
    by (rewrite isin_cell_in, length_map; exact Hlen).
  assert (Hwf' : well_formed out) by now apply well_formed_take_rows.
  assert (Hs' : getitem out "severity" = Ok (filter (cell_in labels) sev)).
  { unfold out. rewrite getitem_take_rows, Hs, isin_cell_in. now rewrite select_map_filter. }
  destruct (@calculate_kpis_counts series_sum series_mean span_text out _ Hwf' Hs')
    as (k & Hk & Ht & Hf & Hse & Hsl).
  exists out, k. split; [exact Hrun|]. split; [exact Hk|].
  rewrite Ht, Hf, Hse, Hsl, !freq_selected.
  rewrite <- (@key_column_length out "severity" _ Hwf' Hs').
  repeat split.
  intro Hincl. rewrite <- !freq_selected, label_counts_sum.
  now rewrite selected_labels.
Qed.

Lemma calculate_kpis_after_severity_filter_witness :
  exists out k,
    filter_dataframe
      [("severity"%string,
        [Some (VStr "Slight"); Some (VStr "Fatal"); None; Some (VStr "Nan");
         Some (VStr "Slight")])]
      None (Some ["Slight"; "Fatal"]%string) None None None None None None = Ok out /\
    calculate_kpis (fun _ => 0%Z) (fun _ => 0%Q) (fun _ => "1979-2018"%string) out = Ok k /\
    total_accidents k = 3 /\
    slight_accidents k + serious_accidents k + fatal_accidents k = total_accidents k.
Proof.
  destruct (@calculate_kpis_after_severity_filter
              (fun _ => 0%Z) (fun _ => 0%Q) (fun _ => "1979-2018"%string)
              [("severity"%string,
                [Some (VStr "Slight"); Some (VStr "Fatal"); None; Some (VStr "Nan");
                 Some (VStr "Slight")])]
              [Some (VStr "Slight"); Some (VStr "Fatal"); None; Some (VStr "Nan");
               Some (VStr "Slight")]
              ["Slight"; "Fatal"]%string)
    as (out & k & H1 & H2 & H3 & _ & _ & _ & H7).
  - repeat constructor.
  - reflexivity.
  - discriminate.
  - exists out, k. split; [exact H1|]. split; [exact H2|]. split; [exact H3|].
    apply H7. intros x [<-|[<-|[]]]; simpl; tauto.
Defined.
